(** * java-class-diagram-view: inheritance-chain resolution and PlantUML rendering

    A shallow embedding of [src/parser/JavaCodeParser.ts] and
    [src/plantuml/PlantUMLGenerator.ts].

    - JavaScript strings are [string]s of 8-bit characters; the texts the
      program handles (Java identifiers, javap output) are ASCII.
    - The external processes and the file system ([javac]/[java] running the
      embedded JavaParser program, [javap], [fs], [path]) are the fields of an
      environment record [Env]; every call to one of them is recorded as an
      [Event].
    - [async] functions are awaited strictly in sequence in the source, so a
      promise is modelled by its outcome: fulfilled ([Returned]), rejected
      ([Thrown]) or never settled within the given number of loop
      iterations ([Timeout]).
    - [console.log] and [console.error] are not modelled. *)

From Stdlib Require Import String Ascii List Bool Arith Lia.
From stdpp Require Import gmap strings.
From Equations Require Import Equations.
Import ListNotations.

Open Scope string_scope.
Open Scope list_scope.

(** ** JavaScript string primitives used by the sources *)

Module Js.

(** [if (s)] on a string: the empty string is falsy. *)
Definition truthy (s : string) : bool := negb (String.eqb s "").

(** [if (o)] on an optional string ([undefined] is falsy). *)
Definition truthyOpt (o : option string) : bool :=
  match o with
  | Some s => truthy s
  | None => false
  end.

(** [a || b] on strings. *)
Definition orElse (a b : string) : string := if truthy a then a else b.

(** [o || b] where [o] may be [undefined]. *)
Definition optOrElse (o : option string) (b : string) : string :=
  match o with
  | Some s => orElse s b
  | None => b
  end.

Definition startsWith (s p : string) : bool := String.prefix p s.

Fixpoint includes (s sub : string) : bool :=
  String.prefix sub s ||
  match s with
  | EmptyString => false
  | String _ t => includes t sub
  end.

Fixpoint endsWith (s suf : string) : bool :=
  String.eqb s suf ||
  match s with
  | EmptyString => false
  | String _ t => endsWith t suf
  end.

(** White space of [String.prototype.trim] and of the regular expression
    class [\s], restricted to 8-bit characters. *)
Definition isSpace (c : ascii) : bool :=
  match nat_of_ascii c with
  | 9 | 10 | 11 | 12 | 13 | 32 => true
  | _ => false
  end.

Fixpoint trimStartL (l : list ascii) : list ascii :=
  match l with
  | c :: t => if isSpace c then trimStartL t else l
  | [] => []
  end.

Definition trim (s : string) : string :=
  string_of_list_ascii
    (rev (trimStartL (rev (trimStartL (list_ascii_of_string s))))).

(** [s.split(sep)] for a non-empty separator: [skip] counts the characters
    of a separator occurrence still to be dropped, [cur] is the piece being
    collected. *)
Fixpoint splitGo (sep s : string) (skip : nat) (cur : string) : list string :=
  match s with
  | EmptyString => [cur]
  | String c t =>
      match skip with
      | S k => splitGo sep t k cur
      | O =>
          if String.prefix sep s
          then cur :: splitGo sep t (String.length sep - 1) ""
          else splitGo sep t 0 (cur +:+ String c "")
      end
  end.

(** [s.split(sep)]; an empty separator splits into single characters. *)
Definition split (s sep : string) : list string :=
  if String.eqb sep ""
  then map (fun c => String c "") (list_ascii_of_string s)
  else splitGo sep s 0 "".

(** [arr.pop()], the value returned ([undefined] on an empty array). *)
Definition pop {A} (l : list A) : option A := last l.

(** [arr.pop()], the array left behind. *)
Definition popped {A} (l : list A) : list A := removelast l.

(** [arr.includes(x)] on an array of strings. *)
Definition arrIncludes (l : list string) (x : string) : bool :=
  existsb (String.eqb x) l.

(** [arr.join(sep)]. *)
Definition join (l : list string) (sep : string) : string := String.concat sep l.

(** [s.lastIndexOf(".")] followed by [s.substring(0, i)]: the text before the
    last dot, empty when there is none ([substring(0, -1)] is empty). *)
Fixpoint beforeLastDot (s : string) : string :=
  match s with
  | EmptyString => ""
  | String c t =>
      if includes t "." then String c (beforeLastDot t)
      else ""
  end.

End Js.

(** ** A backtracking matcher for the regular expressions of the sources *)

Module Re.

Inductive t : Type :=
| Cls (p : ascii -> bool)          (* one character of a class *)
| Lit (s : string)                 (* a literal text *)
| Seq (a b : t)
| Alt (a b : t)
| Star (a : t)                     (* greedy [*] *)
| Grp (a : t).                     (* a capturing group *)

Definition Plus (a : t) : t := Seq a (Star a).

(** Captures are collected in the order the groups close. *)
Definition Caps := list string.

Definition consumed (s rest : string) : string :=
  String.substring 0 (String.length s - String.length rest) s.

Definition dropPrefix (p s : string) : string :=
  String.substring (String.length p) (String.length s - String.length p) s.

(** [run r s k c]: match [r] at the head of [s], then continue with [k] on
    the rest; alternatives are tried in order and a failing continuation
    backtracks into the last choice, as in JavaScript. *)
Fixpoint run (r : t) : string -> (string -> Caps -> option Caps) -> Caps -> option Caps :=
  match r with
  | Cls p => fun s k c =>
      match s with
      | String x rest => if p x then k rest c else None
      | EmptyString => None
      end
  | Lit l => fun s k c =>
      if String.prefix l s then k (dropPrefix l s) c else None
  | Seq a b => fun s k c => run a s (fun s' c' => run b s' k c') c
  | Alt a b => fun s k c =>
      match run a s k c with
      | Some r => Some r
      | None => run b s k c
      end
  | Star a => fun s k c =>
      (fix star (n : nat) (s : string) (c : Caps) {struct n} : option Caps :=
         match n with
         | O => k s c
         | S n' =>
             match run a s (fun s' c' =>
                              if Nat.ltb (String.length s') (String.length s)
                              then star n' s' c' else None) c with
             | Some r => Some r
             | None => k s c
             end
         end) (String.length s) s c
  | Grp a => fun s k c =>
      run a s (fun s' c' => k s' (c' ++ [consumed s s'])) c
  end.

(** [s.match(r)] for an expression anchored with [^]. *)
Definition matchStart (r : t) (s : string) : option Caps :=
  run r s (fun _ c => Some c) [].

(** [s.match(r)] without anchor: the leftmost match. *)
Fixpoint search (r : t) (s : string) : option Caps :=
  match matchStart r s with
  | Some c => Some c
  | None =>
      match s with
      | String _ rest => search r rest
      | EmptyString => None
      end
  end.

Definition inRange (lo hi : nat) (c : ascii) : bool :=
  Nat.leb lo (nat_of_ascii c) && Nat.leb (nat_of_ascii c) hi.

Definition digit (c : ascii) : bool := inRange 48 57 c.

(** [\w] *)
Definition word (c : ascii) : bool :=
  inRange 97 122 c || inRange 65 90 c || digit c || Ascii.eqb c "_".

Definition oneOf (chars : string) (c : ascii) : bool :=
  existsb (Ascii.eqb c) (list_ascii_of_string chars).

Definition space : t := Cls Js.isSpace.

Fixpoint alts (l : list string) : t :=
  match l with
  | [] => Lit ""
  | [x] => Lit x
  | x :: rest => Alt (Lit x) (alts rest)
  end.

End Re.

(** ** Data model ([ClassInfo], [FieldInfo], [MethodInfo], [ParameterInfo]) *)

Module ParameterInfo.
Record t : Type := mk { name : string; type : string }.
End ParameterInfo.

Module FieldInfo.
Record t : Type := mk {
  name : string;
  type : string;
  modifiers : list string;
  annotations : list string
}.
Definition empty : t := mk "" "" [] [].
End FieldInfo.

Module MethodInfo.
Record t : Type := mk {
  name : string;
  returnType : string;
  parameters : list ParameterInfo.t;
  modifiers : list string;
  annotations : list string
}.
Definition empty : t := mk "" "" [] [] [].
End MethodInfo.

(** Optional members ([extends?], [implements?], ...) are [option]s, [None]
    standing for [undefined]. [parentClass] owns the next descriptor of the
    ancestor chain. *)
Module ClassInfo.
#[warnings="-register-all"]
Inductive t : Type := mk {
  name : string;
  fields : list FieldInfo.t;
  methods : list MethodInfo.t;
  modifiers : list string;
  annotations : list string;
  extends : option string;
  implements : option (list string);
  packageName : option string;
  filePath : option string;
  parentClass : option t
}.

(** Assignments to one member of a descriptor. *)
Definition setExtends (v : option string) (c : t) : t :=
  mk (name c) (fields c) (methods c) (modifiers c) (annotations c)
     v (implements c) (packageName c) (filePath c) (parentClass c).
Definition setParentClass (v : option t) (c : t) : t :=
  mk (name c) (fields c) (methods c) (modifiers c) (annotations c)
     (extends c) (implements c) (packageName c) (filePath c) v.
Definition setFilePath (v : option string) (c : t) : t :=
  mk (name c) (fields c) (methods c) (modifiers c) (annotations c)
     (extends c) (implements c) (packageName c) v (parentClass c).
Definition setModifiers (v : list string) (c : t) : t :=
  mk (name c) (fields c) (methods c) v (annotations c)
     (extends c) (implements c) (packageName c) (filePath c) (parentClass c).
Definition pushMethod (m : MethodInfo.t) (c : t) : t :=
  mk (name c) (fields c) (methods c ++ [m]) (modifiers c) (annotations c)
     (extends c) (implements c) (packageName c) (filePath c) (parentClass c).
Definition pushField (f : FieldInfo.t) (c : t) : t :=
  mk (name c) (fields c ++ [f]) (methods c) (modifiers c) (annotations c)
     (extends c) (implements c) (packageName c) (filePath c) (parentClass c).

(** Number of descriptors on the [parentClass] chain, the root included. *)
Fixpoint depth (c : t) : nat :=
  match parentClass c with
  | Some p => S (depth p)
  | None => 1
  end.
End ClassInfo.

(** ** Parsing the text printed by [javap] (JavaCodeParser.ts, 219-391) *)

(** [/(?:public |abstract |final )*class\s+([\w.$]+)\s+extends\s+([\w.$]+)/] *)
Definition classDeclRe : Re.t :=
  let ident := Re.Plus (Re.Cls (fun c => Re.word c || Re.oneOf ".$" c)) in
  Re.Seq (Re.Star (Re.alts ["public "; "abstract "; "final "]))
 (Re.Seq (Re.Lit "class")
 (Re.Seq (Re.Plus Re.space)
 (Re.Seq (Re.Grp ident)
 (Re.Seq (Re.Plus Re.space)
 (Re.Seq (Re.Lit "extends")
 (Re.Seq (Re.Plus Re.space)
         (Re.Grp ident))))))).

(** [/^\d+:/] *)
Definition offsetRe : Re.t := Re.Seq (Re.Plus (Re.Cls Re.digit)) (Re.Lit ":").

(** [/(?:public |protected |private |static |final |volatile |transient )*(?:[\w.<>]+)\s+([\w<>]+)\s+([\w]+)/] *)
Definition fieldRe : Re.t :=
  Re.Seq (Re.Star (Re.alts ["public "; "protected "; "private "; "static ";
                            "final "; "volatile "; "transient "]))
 (Re.Seq (Re.Plus (Re.Cls (fun c => Re.word c || Re.oneOf ".<>" c)))
 (Re.Seq (Re.Plus Re.space)
 (Re.Seq (Re.Grp (Re.Plus (Re.Cls (fun c => Re.word c || Re.oneOf "<>" c))))
 (Re.Seq (Re.Plus Re.space)
         (Re.Grp (Re.Plus (Re.Cls Re.word))))))).

(** [arr.filter(Boolean)] on an array of strings. *)
Definition filterBoolean (l : list string) : list string := List.filter Js.truthy l.

Definition parseParameters (paramString : string) : list ParameterInfo.t :=
  if negb (Js.truthy (Js.trim paramString)) then []
  else map (fun param => ParameterInfo.mk "" (Js.trim param))
           (Js.split paramString ",").

Fixpoint extractClassNameFrom (parts : list string) : string :=
  match parts with
  | [] => ""
  | part :: rest =>
      if Js.includes part "."
      then Js.optOrElse (Js.pop (Js.split part ".")) ""
      else extractClassNameFrom rest
  end.

Definition extractClassName (line : string) : string :=
  extractClassNameFrom (Js.split line " ").

(** The body of the [try] block of [parseJavapMethod]; [None] is the
    [TypeError] raised by calling a method on [undefined] (an array index out
    of range). *)
Definition parseJavapMethodTry (line : string) : option MethodInfo.t :=
  let isConstructor := Js.includes line (extractClassName line +:+ "(") in
  let modifiers0 :=
    Js.split (Js.trim (nth 0 (Js.split line "(") "")) " " in
  let modifiers1 := Js.popped modifiers0 in
  if isConstructor then
    let classNameWithPackage := Js.optOrElse (Js.pop modifiers1) "" in
    let modifiers := Js.popped modifiers1 in
    let className := Js.optOrElse (Js.pop (Js.split classNameWithPackage ".")) "" in
    match nth_error (Js.split line "(") 1 with
    | None => None
    | Some afterParen =>
        let paramString := nth 0 (Js.split afterParen ")") "" in
        Some (MethodInfo.mk className "" (parseParameters paramString) modifiers [])
    end
  else
    let returnType := Js.optOrElse (Js.pop modifiers1) "" in
    let modifiers := Js.popped modifiers1 in
    match nth_error (Js.split line returnType) 1 with
    | None => None
    | Some afterType =>
        let methodName := Js.trim (nth 0 (Js.split (Js.trim afterType) "(") "") in
        match nth_error (Js.split line "(") 1 with
        | None => None
        | Some afterParen =>
            let paramString := nth 0 (Js.split afterParen ")") "" in
            Some (MethodInfo.mk methodName returnType
                    (parseParameters paramString) modifiers [])
        end
    end.

Definition parseJavapMethod (line : string) : MethodInfo.t :=
  match parseJavapMethodTry line with
  | Some m => m
  | None => MethodInfo.empty
  end.

Definition parseJavapField (line : string) : FieldInfo.t :=
  match Re.search fieldRe line with
  | Some [type; name] =>
      FieldInfo.mk name type
        (filterBoolean (Js.split (Js.trim (nth 0 (Js.split line type) "")) " "))
        []
  | _ => FieldInfo.empty
  end.

(** One turn of [lines.forEach] in [parseJavapOutput]: the state is the
    descriptor under construction and the [inCodeBlock] flag. *)
Definition parseJavapLine (isSystemClass : bool)
    (st : ClassInfo.t * bool) (rawLine : string) : ClassInfo.t * bool :=
  let '(classInfo, inCodeBlock) := st in
  let line := Js.trim rawLine in
  if negb (Js.truthy line) || String.eqb line "Code:" then
    (classInfo, String.eqb line "Code:")
  else if inCodeBlock &&
          (bool_decide (is_Some (Re.matchStart offsetRe line)) || Js.startsWith line "/") then
    st
  else if Js.includes line "class" then
    match Re.search classDeclRe line with
    | Some [_; ext] =>
        (ClassInfo.setExtends (Some ext)
           (ClassInfo.setModifiers
              (filterBoolean
                 (Js.split (Js.trim (nth 0 (Js.split line "class") "")) " "))
              classInfo),
         inCodeBlock)
    | _ => st
    end
  else if isSystemClass then st
  else if Js.startsWith line "public" || Js.startsWith line "protected" ||
          Js.startsWith line "private" || Js.startsWith line "static" then
    if Js.includes line "(" then
      let method := parseJavapMethod line in
      if Js.truthy (MethodInfo.name method)
      then (ClassInfo.pushMethod method classInfo, inCodeBlock)
      else st
    else
      let field := parseJavapField line in
      if Js.truthy (FieldInfo.name field)
      then (ClassInfo.pushField field classInfo, inCodeBlock)
      else st
  else st.

Definition newline : string := String (ascii_of_nat 10) "".

Definition parseJavapOutput (output fullClassName : string) : ClassInfo.t :=
  let isSystemClass :=
    Js.startsWith fullClassName "java." || Js.startsWith fullClassName "javax." in
  let lines := Js.split output newline in
  let classInfo :=
    ClassInfo.mk (Js.optOrElse (Js.pop (Js.split fullClassName ".")) "")
      [] [] [] [] None None (Some (Js.beforeLastDot fullClassName)) None None in
  fst (fold_left (parseJavapLine isSystemClass) lines (classInfo, false)).

(** ** External collaborators and effects *)

(** What [JSON.parse(stdout)] yields in [parseClass]: the object printed by
    the embedded JavaParser program (JavaCodeParser.ts, 414-514), with the
    keys [name], [modifiers], [annotations], [extends] (only when the class
    extends one), [implements], [fields] and [methods]. It never carries
    [packageName], [filePath] or [parentClass]. *)
Module ParsedClass.
Record t : Type := mk {
  name : string;
  modifiers : list string;
  annotations : list string;
  extends : option string;
  implements : list string;
  fields : list FieldInfo.t;
  methods : list MethodInfo.t
}.

Definition toClassInfo (p : t) : ClassInfo.t :=
  ClassInfo.mk (name p) (fields p) (methods p) (modifiers p) (annotations p)
    (extends p) (Some (implements p)) None None None.
End ParsedClass.

Inductive Error : Type :=
| ParseFailure (sourceCode : string)       (* [parseClass] rethrows *)
| JavapFailure (className : string)        (* [execAsync(`javap -c ...`)] rejects *)
| CouldNotFindClass (fullClassName : string).

Record Env : Type := {
  (** [javac]/[java] on the temporary copy of the source text *)
  runParser : string -> option ParsedClass.t;
  (** [execAsync(`javap -c ${name}`)]: its [stdout], or a failure *)
  javap : string -> option string;
  (** [fs.existsSync] *)
  existsSync : string -> bool;
  (** [fs.readFileSync(p, 'utf-8')], [None] when it throws *)
  readFileSync : string -> option string;
  (** [path.dirname] *)
  dirname : string -> string;
  (** [path.join] of two segments *)
  pathJoin : string -> string -> string
}.

Inductive Event : Type :=
| EvParser (sourceCode : string)
| EvJavap (className : string)
| EvExists (path : string)
| EvRead (path : string).

Inductive Outcome (A : Type) : Type :=
| Returned (a : A)
| Thrown (e : Error)
| Timeout.
Arguments Returned {A} a.
Arguments Thrown {A} e.
Arguments Timeout {A}.

(** A computation: how it ends and the external calls it made, in order. *)
Definition M (A : Type) : Type := Outcome A * list Event.

Definition ret {A} (a : A) : M A := (Returned a, []).
Definition throw {A} (e : Error) : M A := (Thrown e, []).
Definition timeout {A} : M A := (Timeout, []).
Definition emit (ev : Event) : M unit := (Returned tt, [ev]).

Definition bind {A B} (m : M A) (f : A -> M B) : M B :=
  match m with
  | (Returned a, l) => let '(o, l') := f a in (o, l ++ l')
  | (Thrown e, l) => (Thrown e, l)
  | (Timeout, l) => (Timeout, l)
  end.

(** [try { m } catch (e) { h e }]; a computation that never ends is not
    caught. *)
Definition tryCatch {A} (m : M A) (h : Error -> M A) : M A :=
  match m with
  | (Thrown e, l) => let '(o, l') := h e in (o, l ++ l')
  | other => other
  end.

Notation "x <- m ;; k" := (bind m (fun x => k))
  (at level 62, m at next level, right associativity).

Definition outcome {A} (m : M A) : Outcome A := fst m.
Definition events {A} (m : M A) : list Event := snd m.

Definition isJavap (ev : Event) : bool :=
  match ev with EvJavap _ => true | _ => false end.
Definition isFs (ev : Event) : bool :=
  match ev with EvExists _ | EvRead _ => true | _ => false end.

(** The class names handed to [javap], in order. *)
Definition javapCalls {A} (m : M A) : list string :=
  flat_map (fun ev => match ev with EvJavap n => [n] | _ => [] end) (events m).

Section Parser.

Variable env : Env.

(** [parseClass] (JavaCodeParser.ts, 398-546). *)
Definition parseClass (sourceCode : string) : M ClassInfo.t :=
  _ <- emit (EvParser sourceCode) ;;
  match runParser env sourceCode with
  | Some p => ret (ParsedClass.toClassInfo p)
  | None => throw (ParseFailure sourceCode)
  end.

(** [await execAsync(`javap -c ${className}`)] *)
Definition execJavap (className : string) : M string :=
  _ <- emit (EvJavap className) ;;
  match javap env className with
  | Some stdout => ret stdout
  | None => throw (JavapFailure className)
  end.

(** [findProjectClass] (JavaCodeParser.ts, 198-217). *)
Definition findProjectClass (className : string) (packageName : option string)
    (currentFilePath : option string) : M (option string) :=
  match currentFilePath with
  | Some p =>
      if negb (Js.truthy p) then ret None
      else
        let currentDir := dirname env p in
        let parentFilePath := pathJoin env currentDir (className +:+ ".java") in
        _ <- emit (EvExists parentFilePath) ;;
        if existsSync env parentFilePath then
          _ <- emit (EvRead parentFilePath) ;;
          match readFileSync env parentFilePath with
          | Some text => ret (Some text)
          | None => ret None        (* caught, then [return undefined] *)
          end
        else ret None
  | None => ret None
  end.

Definition commonPackages : list string :=
  [ ""; "java.lang."; "java.util."; "java.io."; "java.applet."; "javax.swing.";
    "java.awt."; "java.net."; "java.sql."; "javax.servlet."; "java.math.";
    "java.security."; "java.text."; "java.time." ].

(** The variables of the fallback block (JavaCodeParser.ts, 92-156). *)
Record Fallback : Type := {
  classInfo : ClassInfo.t;
  found : bool;
  error : option Error
}.

(** [classInfo.packageName ? `${classInfo.packageName}.${classInfo.extends}` : classInfo.extends] *)
Definition fullClassNameOf (c : ClassInfo.t) : string :=
  let ext := Js.optOrElse (ClassInfo.extends c) "" in
  if Js.truthyOpt (ClassInfo.packageName c)
  then Js.optOrElse (ClassInfo.packageName c) "" +:+ "." +:+ ext
  else ext.

(** One [try { javap; parentClass = ...; <rewrite>; found = true } catch (e) { error = e }]. *)
Definition attempt (className : string) (rewrite : bool) (st : Fallback) : M Fallback :=
  tryCatch
    (stdout <- execJavap className ;;
     let c := ClassInfo.setParentClass
                (Some (parseJavapOutput stdout className)) (classInfo st) in
     let c := if rewrite then ClassInfo.setExtends (Some className) c else c in
     ret {| classInfo := c; found := true; error := error st |})
    (fun e => ret {| classInfo := classInfo st; found := found st; error := Some e |}).

(** Special case for Applet (lines 97-108). *)
Definition appletStep (st : Fallback) : M Fallback :=
  match ClassInfo.extends (classInfo st) with
  | Some ext =>
      if String.eqb ext "Applet" then attempt "java.applet.Applet" true st
      else ret st
  | None => ret st
  end.

(** The class name already includes a package (lines 110-119): no
    assignment to [classInfo.extends] here. *)
Definition directStep (fullClassName : string) (st : Fallback) : M Fallback :=
  if Js.includes fullClassName "." then attempt fullClassName false st
  else ret st.

(** [simpleClassName] (lines 124-126). *)
Definition simpleClassNameOf (ext : option string) : string :=
  match ext with
  | Some e =>
      if Js.truthy e && Js.includes e "."
      then Js.orElse (Js.optOrElse (Js.pop (Js.split e ".")) "") e
      else Js.orElse e ""
  | None => ""
  end.

(** [for (const pkg of commonPackages)] (lines 128-155); the loop is left
    at the first success. *)
Fixpoint packagesLoop (simpleClassName : string) (pkgs : list string)
    (st : Fallback) : M Fallback :=
  match pkgs with
  | [] => ret st
  | pkg :: rest =>
      let ext := ClassInfo.extends (classInfo st) in
      if Js.truthyOpt ext && Js.includes (Js.optOrElse ext "") "." && String.eqb pkg ""
      then packagesLoop simpleClassName rest st             (* continue *)
      else
        let classNameToTry :=
          if Js.truthy pkg then pkg +:+ simpleClassName
          else Js.optOrElse ext "" in
        st' <- attempt classNameToTry true st ;;
        if found st' then ret st'                           (* break *)
        else packagesLoop simpleClassName rest st'
  end.

(** Lines 92-156: the three kinds of attempts in sequence. *)
Definition systemFallback (c : ClassInfo.t) : M Fallback :=
  let fullClassName := fullClassNameOf c in
  st <- appletStep {| classInfo := c; found := false; error := None |} ;;
  st <- directStep fullClassName st ;;
  if negb (found st)
  then packagesLoop (simpleClassNameOf (ClassInfo.extends (classInfo st)))
         commonPackages st
  else ret st.

(** The [while] loop of lines 168-181. Every turn assigns the freshly parsed
    descriptor to [currentClass.parentClass] and moves on to it, so the
    loop builds the chain that hangs below [currentClass]: the result is
    that chain ([None] when the loop is left before the first assignment).
    [fuel] bounds the number of turns; the source has no such bound. *)
Fixpoint walkParents (fuel : nat) (parentClassName : string) : M (option ClassInfo.t) :=
  if Js.truthy parentClassName && negb (String.eqb parentClassName "java.lang.Object")
  then
    match fuel with
    | O => timeout
    | S fuel' =>
        step <- tryCatch
                  (stdout <- execJavap parentClassName ;;
                   ret (Some (parseJavapOutput stdout parentClassName)))
                  (fun _ => ret None) ;;
        match step with
        | None => ret None                                    (* break *)
        | Some parentClass =>
            chain <- walkParents fuel'
                       (Js.optOrElse (ClassInfo.extends parentClass) "") ;;
            ret (Some (ClassInfo.setParentClass chain parentClass))
        end
    end
  else ret None.

(** Lines 163-182. *)
Definition walkStep (fuel : nat) (c : ClassInfo.t) : M ClassInfo.t :=
  match ClassInfo.parentClass c with
  | Some parent =>
      if Js.truthyOpt (ClassInfo.extends parent) then
        chain <- walkParents fuel (Js.optOrElse (ClassInfo.extends parent) "") ;;
        ret (ClassInfo.setParentClass
               (Some (ClassInfo.setParentClass chain parent)) c)
      else ret c
  | None => ret c
  end.

(** Lines 92-182, the body of the inner [try]. *)
Definition resolveSystemParent (fuel : nat) (c : ClassInfo.t) : M ClassInfo.t :=
  st <- systemFallback c ;;
  if negb (found st) then
    throw (match error st with
           | Some e => e
           | None => CouldNotFindClass (fullClassNameOf c)
           end)
  else walkStep fuel (classInfo st).

(** [parse] (JavaCodeParser.ts, 50-193). [fuel] bounds the depth of the
    recursion through project files and the turns of each ancestor loop.
    Both [catch] blocks only log: the descriptor is returned as it stands,
    and nothing has been assigned to it when an exception is raised. *)
Fixpoint parse (fuel : nat) (javaCode : string) (filePath : option string)
    : M ClassInfo.t :=
  parsed <- parseClass javaCode ;;
  let classInfo :=
    if Js.truthyOpt filePath then ClassInfo.setFilePath filePath parsed
    else parsed in
  if Js.truthyOpt (ClassInfo.extends classInfo) then
    let ext := Js.optOrElse (ClassInfo.extends classInfo) "" in
    tryCatch
      (parentClassCode <- findProjectClass ext (ClassInfo.packageName classInfo) filePath ;;
       if Js.truthyOpt parentClassCode then
         match fuel with
         | O => timeout
         | S fuel' =>
             parentClassInfo <-
               parse fuel' (Js.optOrElse parentClassCode "")
                 (Some (pathJoin env (dirname env (Js.optOrElse filePath ""))
                          (ext +:+ ".java"))) ;;
             ret (ClassInfo.setParentClass (Some parentClassInfo) classInfo)
         end
       else
         tryCatch (resolveSystemParent fuel classInfo)
                  (fun _ => ret classInfo))
      (fun _ => ret classInfo)
  else ret classInfo.

End Parser.

(** [parseSystemClassWithParents] (JavaCodeParser.ts, 551-570), the private
    helper with the depth limit; nothing in the sources calls it. The
    descriptor returned is [classInfo] after the assignments of the call. *)
Equations? parseSystemClassWithParents (env : Env) (fullClassName : string)
    (classInfo : ClassInfo.t) (depth : nat) : M ClassInfo.t
    by wf (11 - depth) lt :=
  parseSystemClassWithParents env fullClassName classInfo depth
    with le_lt_dec depth 10 := {
    | right _ => ret classInfo                          (* depth > 10 *)
    | left _ =>
        tryCatch
          (stdout <- execJavap env fullClassName ;;
           let parsedClass := parseJavapOutput stdout fullClassName in
           let ext := Js.optOrElse (ClassInfo.extends parsedClass) "" in
           if Js.truthy ext && negb (String.eqb ext "java.lang.Object")
           then
             parsedClass' <-
               parseSystemClassWithParents env ext parsedClass (depth + 1) ;;
             ret (ClassInfo.setParentClass (Some parsedClass') classInfo)
           else ret (ClassInfo.setParentClass (Some parsedClass) classInfo))
          (fun _ => ret classInfo) }.
Proof. lia. Qed.

(** ** Rendering (PlantUMLGenerator.ts) *)

Module PlantUMLGenerator.

(** The static member [processedClasses : Set<string>]. *)
Abbreviation Processed := (gset string).

Definition has (s : Processed) (x : string) : bool := bool_decide (x ∈ s).
Definition add (x : string) (s : Processed) : Processed := {[x]} ∪ s.

Definition getSimpleClassName (className : string) : string :=
  if Js.includes className "."
  then default "" (Js.pop (Js.split className "."))
  else className.

Definition getVisibilitySymbol (modifiers : list string) : string :=
  if Js.arrIncludes modifiers "private" then "-"
  else if Js.arrIncludes modifiers "protected" then "#"
  else if Js.arrIncludes modifiers "public" then "+"
  else "~".

Definition generateField (field : FieldInfo.t) : string :=
  let visibility := getVisibilitySymbol (FieldInfo.modifiers field) in
  let isStatic :=
    if Js.arrIncludes (FieldInfo.modifiers field) "static" then "{static} " else "" in
  "    " +:+ visibility +:+ isStatic +:+ FieldInfo.type field +:+ " "
    +:+ FieldInfo.name field +:+ newline.

Definition generateMethod (method : MethodInfo.t) : string :=
  if negb (Js.truthy (MethodInfo.name method)) then ""
  else
    let visibility := getVisibilitySymbol (MethodInfo.modifiers method) in
    let isStatic :=
      if Js.arrIncludes (MethodInfo.modifiers method) "static" then "{static} " else "" in
    let params :=
      Js.join
        (map (fun p => Js.trim (ParameterInfo.type p +:+ " " +:+ ParameterInfo.name p))
           (List.filter (fun p => Js.truthy (ParameterInfo.type p))
              (MethodInfo.parameters method)))
        ", " in
    "    " +:+ visibility +:+ isStatic +:+ MethodInfo.returnType method +:+ " "
      +:+ MethodInfo.name method +:+ "(" +:+ params +:+ ")" +:+ newline.

(** [arr.forEach(x => { result += f x })] *)
Definition appendEach {A} (f : A -> string) (l : list A) (result : string) : string :=
  fold_left (fun acc x => acc +:+ f x) l result.

Definition generateClassDefinition (classInfo : ClassInfo.t) : string :=
  let isSystemClass :=
    match ClassInfo.packageName classInfo with
    | Some p => Js.startsWith p "java." || Js.startsWith p "javax."
    | None => false
    end in
  let result := "" in
  let result :=
    if negb isSystemClass
    then appendEach (fun a => a +:+ newline) (ClassInfo.annotations classInfo) result
    else result in
  let classType :=
    if Js.arrIncludes (ClassInfo.modifiers classInfo) "abstract"
    then "abstract class" else "class" in
  let result := result +:+ classType +:+ " " +:+ ClassInfo.name classInfo in
  let result :=
    match ClassInfo.implements classInfo with
    | Some (i :: rest) =>
        if negb isSystemClass
        then result +:+ " implements " +:+ Js.join (i :: rest) ", "
        else result
    | _ => result
    end in
  let result := result +:+ " {" +:+ newline in
  let result :=
    if isSystemClass then result +:+ "    ..System Class.." +:+ newline
    else appendEach generateMethod (ClassInfo.methods classInfo)
           (appendEach generateField (ClassInfo.fields classInfo) result) in
  result +:+ "}" +:+ newline +:+ newline.

(** The placeholder of an ancestor whose descriptor is not available
    (PlantUMLGenerator.ts, 55-67). *)
Definition placeholderDefinition (extends simpleClassName : string) : string :=
  if Js.includes extends "java.applet.Applet" || Js.endsWith extends ".Applet"
  then "class " +:+ simpleClassName +:+ " <<system>> {" +:+ newline +:+ "}"
         +:+ newline +:+ newline
  else "class " +:+ simpleClassName +:+ " {" +:+ newline +:+ "}"
         +:+ newline +:+ newline.

Definition interfaceDefinition (simpleName : string) : string :=
  "interface " +:+ simpleName +:+ " {" +:+ newline +:+ "}" +:+ newline +:+ newline.

(** One turn of [classInfo.implements.forEach] in the definitions pass. *)
Definition defineInterface (st : string * Processed) (interfaceName : string)
    : string * Processed :=
  let '(result, processed) := st in
  if negb (has processed (getSimpleClassName interfaceName))
  then (result +:+ interfaceDefinition (getSimpleClassName interfaceName),
        add (getSimpleClassName interfaceName) processed)
  else st.

(** [generateAllClassDefinitionsRecursive]: the text appended and the set
    [processedClasses] after the call. *)
Fixpoint generateAllClassDefinitionsRecursive (classInfo : ClassInfo.t)
    (processed : Processed) : string * Processed :=
  let result := "" in
  let '(result, processed) :=
    if negb (has processed (ClassInfo.name classInfo))
    then (result +:+ generateClassDefinition classInfo,
          add (ClassInfo.name classInfo) processed)
    else (result, processed) in
  let '(result, processed) :=
    match ClassInfo.parentClass classInfo with
    | Some parent =>
        let '(r, p) := generateAllClassDefinitionsRecursive parent processed in
        (result +:+ r, p)
    | None =>
        match ClassInfo.extends classInfo with
        | Some ext =>
            if Js.truthy ext && negb (has processed (getSimpleClassName ext))
            then (result +:+ placeholderDefinition ext (getSimpleClassName ext),
                  add (getSimpleClassName ext) processed)
            else (result, processed)
        | None => (result, processed)
        end
    end in
  match ClassInfo.implements classInfo with
  | Some interfaces => fold_left defineInterface interfaces (result, processed)
  | None => (result, processed)
  end.

Definition inheritanceArrow (ext : string) : string :=
  if Js.startsWith ext "java." || Js.startsWith ext "javax."
  then " <|.. " else " <|-- ".

Fixpoint generateAllRelationshipsRecursive (classInfo : ClassInfo.t) : string :=
  let result := "" in
  let result :=
    match ClassInfo.extends classInfo with
    | Some ext =>
        if Js.truthy ext
        then result +:+ getSimpleClassName ext +:+ inheritanceArrow ext
               +:+ ClassInfo.name classInfo +:+ newline
        else result
    | None => result
    end in
  let result :=
    match ClassInfo.implements classInfo with
    | Some interfaces =>
        appendEach (fun interfaceName =>
                      getSimpleClassName interfaceName +:+ " <|.. "
                        +:+ ClassInfo.name classInfo +:+ newline)
          interfaces result
    | None => result
    end in
  match ClassInfo.parentClass classInfo with
  | Some parent => result +:+ generateAllRelationshipsRecursive parent
  | None => result
  end.

(** [generateClassDiagram], with the static set passed in and out. *)
Definition generateClassDiagram (processedClasses : Processed)
    (classInfo : ClassInfo.t) : string * Processed :=
  let processedClasses : Processed := ∅ in         (* processedClasses.clear() *)
  let puml := "@startuml" +:+ newline +:+ newline in
  let '(defs, processedClasses) :=
    generateAllClassDefinitionsRecursive classInfo processedClasses in
  let puml := puml +:+ defs in
  let puml := puml +:+ generateAllRelationshipsRecursive classInfo in
  let puml := puml +:+ newline +:+ "@enduml" in
  (puml, processedClasses).

End PlantUMLGenerator.

(** * Definitions used to state the properties *)

(** ** Texts, symbols and relations *)

(** The text of all pieces, in order. *)
Definition concatAll (l : list string) : string := fold_right String.append "" l.

(** The mapping in the words of the specification. *)
Definition visibilityOf (modifiers : list string) : string :=
  if bool_decide ("private" ∈ modifiers) then "-"
  else if bool_decide ("protected" ∈ modifiers) then "#"
  else if bool_decide ("public" ∈ modifiers) then "+"
  else "~".

Definition staticMarker (modifiers : list string) : string :=
  if bool_decide ("static" ∈ modifiers) then "{static} " else "".

(** The static set after a series of calls of [generateClassDiagram]. *)
Definition processedAfter (calls : list ClassInfo.t)
    (processed : PlantUMLGenerator.Processed) : PlantUMLGenerator.Processed :=
  fold_left (fun s c => snd (PlantUMLGenerator.generateClassDiagram s c)) calls processed.

(** The descriptors of a chain, the root first. *)
Fixpoint chainOf (c : ClassInfo.t) : list ClassInfo.t :=
  c :: match ClassInfo.parentClass c with
       | Some p => chainOf p
       | None => []
       end.

Inductive Edge : Type :=
| Inherits (super sub : string)      (* sub extends super *)
| Implements (interface sub : string).

(** A supertype of library origin: its name carries the [java.] or [javax.]
    prefix. *)
Definition libraryOrigin (name : string) : bool :=
  Js.startsWith name "java." || Js.startsWith name "javax.".

(** The relations one descriptor declares: its [extends], when set, then
    its interfaces in order. *)
Definition edgesOf (c : ClassInfo.t) : list Edge :=
  (match ClassInfo.extends c with
   | Some ext => if Js.truthy ext then [Inherits ext (ClassInfo.name c)] else []
   | None => []
   end) ++
  map (fun i => Implements i (ClassInfo.name c))
      (default [] (ClassInfo.implements c)).

(** The line of one relation: a solid arrow for a supertype that is not of
    library origin, a dashed one for a supertype of library origin and for
    an interface. *)
Definition renderEdge (e : Edge) : string :=
  match e with
  | Inherits super sub =>
      PlantUMLGenerator.getSimpleClassName super
        +:+ (if libraryOrigin super then " <|.. " else " <|-- ")
        +:+ sub +:+ newline
  | Implements interface sub =>
      PlantUMLGenerator.getSimpleClassName interface +:+ " <|.. " +:+ sub +:+ newline
  end.

(** ** Definition blocks *)

(** A definition block of the diagram text. *)
Inductive Block : Type :=
| ClassBlock (c : ClassInfo.t)            (* the block of a descriptor *)
| PlaceholderBlock (extends : string)     (* the empty block of an unresolved ancestor *)
| InterfaceBlock (interfaceName : string).

(** The type name a block defines. *)
Definition blockName (b : Block) : string :=
  match b with
  | ClassBlock c => ClassInfo.name c
  | PlaceholderBlock ext => PlantUMLGenerator.getSimpleClassName ext
  | InterfaceBlock i => PlantUMLGenerator.getSimpleClassName i
  end.

Definition renderBlock (b : Block) : string :=
  match b with
  | ClassBlock c => PlantUMLGenerator.generateClassDefinition c
  | PlaceholderBlock ext =>
      PlantUMLGenerator.placeholderDefinition ext
        (PlantUMLGenerator.getSimpleClassName ext)
  | InterfaceBlock i =>
      PlantUMLGenerator.interfaceDefinition (PlantUMLGenerator.getSimpleClassName i)
  end.

Definition interfaceBlock (st : list Block * PlantUMLGenerator.Processed)
    (interfaceName : string) : list Block * PlantUMLGenerator.Processed :=
  let '(blocks, processed) := st in
  if negb (PlantUMLGenerator.has processed
             (PlantUMLGenerator.getSimpleClassName interfaceName))
  then (blocks ++ [InterfaceBlock interfaceName],
        PlantUMLGenerator.add (PlantUMLGenerator.getSimpleClassName interfaceName)
          processed)
  else st.

(** The blocks [generateAllClassDefinitionsRecursive] writes, in order: the
    same walk, recording each block instead of its text. *)
Fixpoint definitionBlocks (classInfo : ClassInfo.t)
    (processed : PlantUMLGenerator.Processed)
    : list Block * PlantUMLGenerator.Processed :=
  let '(blocks, processed) :=
    if negb (PlantUMLGenerator.has processed (ClassInfo.name classInfo))
    then ([ClassBlock classInfo],
          PlantUMLGenerator.add (ClassInfo.name classInfo) processed)
    else ([], processed) in
  let '(blocks, processed) :=
    match ClassInfo.parentClass classInfo with
    | Some parent =>
        let '(b, p) := definitionBlocks parent processed in
        (blocks ++ b, p)
    | None =>
        match ClassInfo.extends classInfo with
        | Some ext =>
            if Js.truthy ext &&
               negb (PlantUMLGenerator.has processed
                       (PlantUMLGenerator.getSimpleClassName ext))
            then (blocks ++ [PlaceholderBlock ext],
                  PlantUMLGenerator.add (PlantUMLGenerator.getSimpleClassName ext)
                    processed)
            else (blocks, processed)
        | None => (blocks, processed)
        end
    end in
  match ClassInfo.implements classInfo with
  | Some interfaces => fold_left interfaceBlock interfaces (blocks, processed)
  | None => (blocks, processed)
  end.

Definition renderBlocks (blocks : list Block) : string :=
  concatAll (map renderBlock blocks).

(** [Fresh s blocks s']: starting from the set [s] of emitted names, the
    blocks define pairwise different names, none of them in [s], and [s']
    is [s] with these names added. *)
Definition Fresh (s : PlantUMLGenerator.Processed) (blocks : list Block)
    (s' : PlantUMLGenerator.Processed) : Prop :=
  NoDup (map blockName blocks) /\
  (forall n, n ∈ map blockName blocks -> n ∉ s) /\
  (forall n, n ∈ s' <-> n ∈ s \/ n ∈ map blockName blocks).

(** ** External calls and fallback candidates *)

(** [Calls P m]: every external call made by [m] satisfies [P]. *)
Definition Calls {A} (P : Event -> Prop) (m : M A) : Prop := Forall P (events m).

Definition JavapOnly (ev : Event) : Prop := isJavap ev = true.
Definition NotFs (ev : Event) : Prop := isFs ev = false.

(** The runtime namespaces, in the order of the fallback list. *)
Definition runtimeNamespaces : list string :=
  [ "java.lang."; "java.util."; "java.io."; "java.applet."; "javax.swing.";
    "java.awt."; "java.net."; "java.sql."; "javax.servlet."; "java.math.";
    "java.security."; "java.text."; "java.time." ].

(** The text after the last dot of [s]; [s] itself when it has no dot. *)
Fixpoint afterLastDot (s : string) : string :=
  match s with
  | EmptyString => ""
  | String c t =>
      if Js.includes t "." then afterLastDot t
      else if Ascii.eqb c "." then t else String c t
  end.

(** The candidate names for an ancestor written [ext], in the words of the
    specification: [java.applet.Applet] first when [ext] is literally
    [Applet], then [ext] as given, then its simple name, the text after its
    last dot, under each runtime namespace. *)
Definition candidates (ext : string) : list string :=
  (if String.eqb ext "Applet" then ["java.applet.Applet"] else []) ++
  ext :: map (fun namespace => namespace +:+ afterLastDot ext) runtimeNamespaces.

(** The names the fallback block goes through for [ext], with the
    [simpleClassName] the code computes (lines 124-126). *)
Definition attemptNames (ext : string) : list string :=
  (if String.eqb ext "Applet" then ["java.applet.Applet"] else []) ++
  ext :: map (fun pkg => pkg +:+ simpleClassNameOf (Some ext)) runtimeNamespaces.

Section FallbackDefinitions.

Variable env : Env.

Definition resolves (className : string) : bool :=
  match javap env className with Some _ => true | None => false end.

(** The names tried when the candidates are tried in order and the first
    one that resolves ends the search. *)
Fixpoint tried (names : list string) : list string :=
  match names with
  | [] => []
  | n :: rest => n :: if resolves n then [] else tried rest
  end.

(** The first candidate that resolves. *)
Definition winner (names : list string) : option string := List.find resolves names.

(** The descriptor [c] once its ancestor is resolved as [w], whose [javap]
    text is [stdout]. *)
Definition resolvedAs (w stdout : string) (c : ClassInfo.t) : ClassInfo.t :=
  ClassInfo.setExtends (Some w)
    (ClassInfo.setParentClass (Some (parseJavapOutput stdout w)) c).

(** What the fallback leaves behind for a list of candidate names. *)
Definition FallbackResult (names : list string) (c : ClassInfo.t) (st : Fallback) : Prop :=
  match winner names with
  | Some w =>
      found st = true /\
      exists stdout, javap env w = Some stdout /\ classInfo st = resolvedAs w stdout c
  | None => found st = false /\ classInfo st = c
  end.

End FallbackDefinitions.

(** The names the loop over [commonPackages] tries for [pkgs]. *)
Definition loopNames (ext simpleClassName : string) (pkgs : list string) : list string :=
  flat_map (fun pkg =>
              if Js.includes ext "." && String.eqb pkg "" then []
              else [if Js.truthy pkg then pkg +:+ simpleClassName else ext])
           pkgs.

(** The descriptor [parse] works on (lines 51-54): the object [parseClass]
    returned, with [filePath] assigned when one was given. *)
Definition rootDescriptor (p : ParsedClass.t) (filePath : option string) : ClassInfo.t :=
  if Js.truthyOpt filePath
  then ClassInfo.setFilePath filePath (ParsedClass.toClassInfo p)
  else ParsedClass.toClassInfo p.

(** ** Example projects *)

Module Examples.

(** [path.dirname] and [path.join] on the paths of the examples
    (POSIX, nothing to normalise). *)
Fixpoint posixDirname (p : string) : string :=
  match p with
  | EmptyString => ""
  | String c rest =>
      if Js.includes rest "/" then String c (posixDirname rest) else ""
  end.

Definition posixJoin (a b : string) : string := a +:+ "/" +:+ b.

Definition emptyClass (name : string) (extends : option string) : ParsedClass.t :=
  ParsedClass.mk name [] [] extends [] [] [].


(** [class A extends Missing {}], no file [Missing.java], no class that
    [javap] can find. *)
Definition unresolved : Env := {|
  runParser := fun code =>
    if String.eqb code "class A extends Missing {}"
    then Some (emptyClass "A" (Some "Missing")) else None;
  javap := fun _ => None;
  existsSync := fun _ => false;
  readFileSync := fun _ => None;
  dirname := posixDirname;
  pathJoin := posixJoin
|}.

(** [/proj/A.java] holds [class A extends B {}] and [/proj/B.java] holds
    [class B {}]. *)
Definition localParent : Env := {|
  runParser := fun code =>
    if String.eqb code "class A extends B {}" then Some (emptyClass "A" (Some "B"))
    else if String.eqb code "class B {}" then Some (emptyClass "B" None)
    else None;
  javap := fun _ => None;
  existsSync := fun p => String.eqb p "/proj/B.java";
  readFileSync := fun p =>
    if String.eqb p "/proj/B.java" then Some "class B {}" else None;
  dirname := posixDirname;
  pathJoin := posixJoin
|}.

(** [class A extends Exception {}], resolved against the runtime library. *)
Definition exceptionChild : Env := {|
  runParser := fun code =>
    if String.eqb code "class A extends Exception {}"
    then Some (emptyClass "A" (Some "Exception")) else None;
  javap := fun className =>
    if String.eqb className "java.lang.Exception"
    then Some "public class java.lang.Exception extends java.lang.Throwable {"
    else if String.eqb className "java.lang.Throwable"
    then Some "public class java.lang.Throwable implements java.io.Serializable {"
    else None;
  existsSync := fun _ => false;
  readFileSync := fun _ => None;
  dirname := posixDirname;
  pathJoin := posixJoin
|}.

(** What [javap] prints for a class of the default package. *)
Definition javapText (name : string) (superclass : option string) : string :=
  "Compiled from " +:+ name +:+ ".java" +:+ newline +:+
  "class " +:+ name +:+
  match superclass with
  | Some s => " extends " +:+ s
  | None => ""
  end +:+ " {" +:+ newline +:+
  "  " +:+ name +:+ "();" +:+ newline +:+
  "}".

(** Compiled classes [names], each extending the next one; the last one
    extends [java.lang.Object], which [javap] does not print. *)
Fixpoint javapOfChain (names : list string) (className : string) : option string :=
  match names with
  | [] => None
  | name :: rest =>
      if String.eqb className name then Some (javapText name (head rest))
      else javapOfChain rest className
  end.

(** [class A extends C12 {}] with thirteen compiled ancestors [C12], ...,
    [C0] on the class path and no source file for them. *)
Definition deepChain : Env := {|
  runParser := fun code =>
    if String.eqb code "class A extends C12 {}"
    then Some (emptyClass "A" (Some "C12")) else None;
  javap := javapOfChain ["C12"; "C11"; "C10"; "C9"; "C8"; "C7"; "C6"; "C5";
                         "C4"; "C3"; "C2"; "C1"; "C0"];
  existsSync := fun _ => false;
  readFileSync := fun _ => None;
  dirname := posixDirname;
  pathJoin := posixJoin
|}.

(** [class A extends Loop {}] with a class file [Loop] whose superclass
    entry names [Loop] itself. *)
Definition selfReferential : Env := {|
  runParser := fun code =>
    if String.eqb code "class A extends Loop {}"
    then Some (emptyClass "A" (Some "Loop")) else None;
  javap := fun className =>
    if String.eqb className "Loop" then Some (javapText "Loop" (Some "Loop"))
    else None;
  existsSync := fun _ => false;
  readFileSync := fun _ => None;
  dirname := posixDirname;
  pathJoin := posixJoin
|}.

End Examples.

(** * Further definitions *)

(** ** Names *)

(** Every character of [s] satisfies [p]. *)
Definition allChars (p : ascii -> bool) (s : string) : bool :=
  forallb p (list_ascii_of_string s).

(** The characters of [[\w.$]]. *)
Definition identChar (c : ascii) : bool := Re.word c || Re.oneOf ".$" c.

(** ** Descriptors built from [javap] text *)

(** What the lines of [javap] text never change in a descriptor. *)
Definition SameIdentity (c c' : ClassInfo.t) : Prop :=
  ClassInfo.name c' = ClassInfo.name c /\
  ClassInfo.packageName c' = ClassInfo.packageName c /\
  ClassInfo.annotations c' = ClassInfo.annotations c /\
  ClassInfo.implements c' = ClassInfo.implements c /\
  ClassInfo.filePath c' = ClassInfo.filePath c /\
  ClassInfo.parentClass c' = ClassInfo.parentClass c.

(** The test [isSystemClass] of [parseJavapOutput]. *)
Definition isSystemClassName (fullClassName : string) : bool :=
  Js.startsWith fullClassName "java." || Js.startsWith fullClassName "javax.".

(** ** Names used and defined by a diagram *)

(** Every resolved ancestor of the chain carries the simple name of the
    [extends] value that led to it. *)
#[warnings="-register-all"]
Inductive WellNamed : ClassInfo.t -> Prop :=
| WellNamed_intro (c : ClassInfo.t) :
    (forall p, ClassInfo.parentClass c = Some p ->
       (forall ext, ClassInfo.extends c = Some ext -> Js.truthy ext = true ->
          ClassInfo.name p = PlantUMLGenerator.getSimpleClassName ext) /\
       WellNamed p) ->
    WellNamed c.

(** The type names the definitions pass defines. *)
Definition definedNames (c : ClassInfo.t) : list string :=
  map blockName (fst (definitionBlocks c ∅)).

(** The two type names a relationship line mentions. *)
Definition edgeNames (e : Edge) : list string :=
  match e with
  | Inherits super sub => [PlantUMLGenerator.getSimpleClassName super; sub]
  | Implements interface sub => [PlantUMLGenerator.getSimpleClassName interface; sub]
  end.

(** The type names the relationships pass mentions. *)
Definition usedNames (c : ClassInfo.t) : list string :=
  flat_map edgeNames (flat_map edgesOf (chainOf c)).

(** One turn of the interface loop of the definitions pass, on the set
    alone. *)
Definition markInterface (s : PlantUMLGenerator.Processed) (interfaceName : string)
    : PlantUMLGenerator.Processed :=
  if PlantUMLGenerator.has s (PlantUMLGenerator.getSimpleClassName interfaceName)
  then s
  else PlantUMLGenerator.add (PlantUMLGenerator.getSimpleClassName interfaceName) s.

(** ** The chain built by the ancestor loop *)

(** The loop goes on from the class name [n]. *)
Definition loopGoesOn (n : string) : bool :=
  Js.truthy n && negb (String.eqb n "java.lang.Object").

(** [AncestorChain env n chain]: [chain] is the chain of descriptors got by
    asking [javap] for [n], then for the [extends] of what it printed, and
    so on, up to a class without [extends], [java.lang.Object] or a failure
    of [javap]. *)
Inductive AncestorChain (env : Env) : string -> option ClassInfo.t -> Prop :=
| chain_stops (n : string) :
    loopGoesOn n = false \/ javap env n = None ->
    AncestorChain env n None
| chain_link (n stdout : string) (c : ClassInfo.t) :
    loopGoesOn n = true ->
    javap env n = Some stdout ->
    c = ClassInfo.setParentClass (ClassInfo.parentClass c) (parseJavapOutput stdout n) ->
    AncestorChain env
      (Js.optOrElse (ClassInfo.extends (parseJavapOutput stdout n)) "")
      (ClassInfo.parentClass c) ->
    AncestorChain env n (Some c).

(** ** The fallback *)

(** The last name the fallback tries: the simple name of the ancestor under
    the last namespace of [commonPackages]. *)
Definition lastResort (c : ClassInfo.t) : string :=
  "java.time." +:+ simpleClassNameOf (ClassInfo.extends c).

(** A descriptor that carries a package name and extends [Applet]. *)
Definition packagedApplet : ClassInfo.t :=
  ClassInfo.mk "A" [] [] [] [] (Some "Applet") None (Some "p") None None.

(** ** Project-local ancestors *)

(** The file [findProjectClass] looks for: [<ext>.java] next to [filePath]. *)
Definition siblingPath (env : Env) (filePath ext : string) : string :=
  pathJoin env (dirname env filePath) (ext +:+ ".java").

(** What [findProjectClass] returns for it: the text of the file when it
    exists and can be read. *)
Definition siblingText (env : Env) (filePath ext : string) : option string :=
  if existsSync env (siblingPath env filePath ext)
  then readFileSync env (siblingPath env filePath ext)
  else None.


(** The filesystem calls of [findProjectClass]. *)
Definition siblingLookup (env : Env) (filePath ext : string) : list Event :=
  EvExists (siblingPath env filePath ext) ::
  if existsSync env (siblingPath env filePath ext)
  then [EvRead (siblingPath env filePath ext)] else [].

(** [m] with [f] applied to what it returns. *)
Definition mapM {A B} (f : A -> B) (m : M A) : M B := x <- m ;; ret (f x).

(** The variables of the fallback block for a descriptor that carries the
    file path [filePath]. *)
Definition withFilePath (filePath : option string) (st : Fallback) : Fallback :=
  {| classInfo := ClassInfo.setFilePath filePath (classInfo st);
     found := found st;
     error := error st |}.

(** [/proj/A.java] holds [class A extends Exception {}] and
    [/proj/Exception.java] holds a text that is not Java, while [javap]
    knows [java.lang.Exception]. *)
Definition brokenSibling : Env := {|
  runParser := fun code =>
    if String.eqb code "class A extends Exception {}"
    then Some (Examples.emptyClass "A" (Some "Exception")) else None;
  javap := javap Examples.exceptionChild;
  existsSync := fun p => String.eqb p "/proj/Exception.java";
  readFileSync := fun p =>
    if String.eqb p "/proj/Exception.java" then Some "not Java" else None;
  dirname := Examples.posixDirname;
  pathJoin := Examples.posixJoin
|}.

(** [class A extends util.ArrayList {}]: the name as given is not a class,
    its simple name is found under [java.util.]. *)
Definition partlyQualified : Env := {|
  runParser := fun code =>
    if String.eqb code "class A extends util.ArrayList {}"
    then Some (Examples.emptyClass "A" (Some "util.ArrayList")) else None;
  javap := fun className =>
    if String.eqb className "java.util.ArrayList"
    then Some "public class java.util.ArrayList extends java.util.AbstractList {"
    else None;
  existsSync := fun _ => false;
  readFileSync := fun _ => None;
  dirname := Examples.posixDirname;
  pathJoin := Examples.posixJoin
|}.


(** The same project with an empty [/proj/Exception.java]. *)
Definition emptySibling : Env := {|
  runParser := runParser brokenSibling;
  javap := javap Examples.exceptionChild;
  existsSync := fun p => String.eqb p "/proj/Exception.java";
  readFileSync := fun p =>
    if String.eqb p "/proj/Exception.java" then Some "" else None;
  dirname := Examples.posixDirname;
  pathJoin := Examples.posixJoin
|}.

(** ** What the regular expressions match *)

(** [Matches r w caps]: the expression [r] matches the text [w], its groups
    capturing [caps] in the order they close. *)
Inductive Matches : Re.t -> string -> Re.Caps -> Prop :=
| Matches_Cls (p : ascii -> bool) (x : ascii) :
    p x = true -> Matches (Re.Cls p) (String x "") []
| Matches_Lit (l : string) : Matches (Re.Lit l) l []
| Matches_Seq (a b : Re.t) (wa wb : string) (ca cb : Re.Caps) :
    Matches a wa ca -> Matches b wb cb ->
    Matches (Re.Seq a b) (wa +:+ wb) (ca ++ cb)
| Matches_AltL (a b : Re.t) (w : string) (c : Re.Caps) :
    Matches a w c -> Matches (Re.Alt a b) w c
| Matches_AltR (a b : Re.t) (w : string) (c : Re.Caps) :
    Matches b w c -> Matches (Re.Alt a b) w c
| Matches_StarNil (a : Re.t) : Matches (Re.Star a) "" []
| Matches_StarCons (a : Re.t) (w1 w2 : string) (c1 c2 : Re.Caps) :
    Matches a w1 c1 -> Matches (Re.Star a) w2 c2 ->
    Matches (Re.Star a) (w1 +:+ w2) (c1 ++ c2)
| Matches_Grp (a : Re.t) (w : string) (c : Re.Caps) :
    Matches a w c -> Matches (Re.Grp a) w (c ++ [w]).

(** An expression without capturing group. *)
Fixpoint groupFree (r : Re.t) : bool :=
  match r with
  | Re.Cls _ | Re.Lit _ => true
  | Re.Seq a b | Re.Alt a b => groupFree a && groupFree b
  | Re.Star a => groupFree a
  | Re.Grp _ => false
  end.

(** A non-empty text made of characters of the class [p]. *)
Definition textOf (p : ascii -> bool) (s : string) : Prop :=
  s <> "" /\ allChars p s = true.

(** The characters of [[\w<>]]. *)
Definition typeChar (c : ascii) : bool := Re.word c || Re.oneOf "<>" c.

(** ** Names the definitions pass looks up *)

(** The names the definitions pass tests against [processedClasses] for
    one descriptor: its own, that of the placeholder of an unresolved
    ancestor, and those of its interfaces. *)
Definition namesTested (c : ClassInfo.t) : list string :=
  ClassInfo.name c ::
  match ClassInfo.parentClass c, ClassInfo.extends c with
  | None, Some ext =>
      if Js.truthy ext then [PlantUMLGenerator.getSimpleClassName ext] else []
  | _, _ => []
  end ++
  map PlantUMLGenerator.getSimpleClassName (default [] (ClassInfo.implements c)).

(** ** White space *)

(** A list with no white space at its head. *)
Definition noLeadingSpace (l : list ascii) : Prop :=
  match l with
  | [] => True
  | c :: _ => Js.isSpace c = false
  end.

(** The characters [trim] keeps. *)
Definition trimL (l : list ascii) : list ascii :=
  rev (Js.trimStartL (rev (Js.trimStartL l))).

(** * Scanning a directory for Java files (FileScanner.ts) *)

Module FileScanner.

(** What the scan meets below a directory: [readdirSync] lists the entries
    of a directory, [statSync] tells whether an entry is a directory.
    Either call may throw. The tree is finite: links that lead back to a
    directory above are not modelled. *)
#[warnings="-register-all"]
Inductive Node : Type :=
| File                                    (* [isDirectory()] is false *)
| Dir (entries : list (string * Node))    (* a directory and its entries *)
| Unreadable                              (* a directory [readdirSync] throws on *)
| Dangling.                               (* an entry [statSync] throws on *)

(** [path.extname] on the name of a directory entry (no path separator, not
    empty): the text from the last dot on, and nothing when there is no dot,
    when the only dot is the first character, or for [..]. *)
Definition extname (file : string) : string :=
  if negb (Js.includes file ".") then ""
  else if String.eqb (Js.beforeLastDot file) "" then ""
  else if String.eqb file ".." then ""
  else "." +:+ afterLastDot file.

Section Scan.

(** [path.join] of a directory and an entry name. *)
Variable join : string -> string -> string.

(** [scanJavaFiles] (FileScanner.ts, 10-27) on the directory [dir] whose
    content is [node]; [None] when a call of [fs] throws, which nothing
    catches. The inner loop is [list.forEach], with [results] as state
    ([files] is the array [list]). *)
Fixpoint scanJavaFiles (dir : string) (node : Node) {struct node}
    : option (list string) :=
  match node with
  | Dir entries =>
      (fix forEach (files : list (string * Node)) (results : list string)
           {struct files} : option (list string) :=
         match files with
         | [] => Some results
         | (file, child) :: rest =>
             let filePath := join dir file in
             match child with
             | Dangling => None                         (* [statSync] throws *)
             | File =>
                 if String.eqb (extname file) ".java"
                 then forEach rest (results ++ [filePath])
                 else forEach rest results
             | _ =>
                 match scanJavaFiles filePath child with
                 | Some found => forEach rest (results ++ found)
                 | None => None
                 end
             end
         end) entries []
  | _ => None                                           (* [readdirSync] throws *)
  end.

(** The Java files below a directory, each directory's entries in the order
    [readdirSync] lists them. *)
Fixpoint javaFiles (dir : string) (node : Node) {struct node} : list string :=
  match node with
  | Dir entries =>
      (fix each (files : list (string * Node)) {struct files} : list string :=
         match files with
         | [] => []
         | (file, child) :: rest =>
             match child with
             | File => if String.eqb (extname file) ".java" then [join dir file] else []
             | _ => javaFiles (join dir file) child
             end ++ each rest
         end) entries
  | _ => []
  end.

(** [Entry dir node d file child]: below the directory [dir] with content
    [node], the directory of path [d] has the entry [file], which is
    [child]. *)
Inductive Entry : string -> Node -> string -> string -> Node -> Prop :=
| Entry_here (dir : string) (entries : list (string * Node))
    (file : string) (child : Node) :
    In (file, child) entries ->
    Entry dir (Dir entries) dir file child
| Entry_below (dir : string) (entries : list (string * Node))
    (sub : string) (below : Node) (d file : string) (child : Node) :
    In (sub, below) entries ->
    Entry (join dir sub) below d file child ->
    Entry dir (Dir entries) d file child.

End Scan.

(** Every directory of the tree can be listed and every entry examined. *)
Fixpoint readable (node : Node) : bool :=
  match node with
  | Dir entries =>
      (fix all (files : list (string * Node)) {struct files} : bool :=
         match files with
         | [] => true
         | (_, child) :: rest =>
             match child with
             | File => true
             | _ => readable child
             end && all rest
         end) entries
  | _ => false
  end.

(** A name with a non-empty stem and the extension [.java]. *)
Definition javaName (file : string) : Prop :=
  exists stem, stem <> "" /\ file = stem +:+ ".java".

(** A small project: two Java files, one of them in a subdirectory, a text
    file, and a directory whose name ends in [.java]. *)
Definition project : Node :=
  Dir [ ("A.java", File);
        ("notes.txt", File);
        ("sub", Dir [("B.java", File); (".java", File)]);
        ("old.java", Dir []) ].

End FileScanner.

(** * Properties *)

(** ** Strings and arrays *)

Lemma append_cons (x : ascii) (a b : string) :
  String x a +:+ b = String x (a +:+ b).
Proof. reflexivity. Qed.

Lemma append_assoc (a b c : string) : (a +:+ b) +:+ c = a +:+ (b +:+ c).
Proof.
  induction a as [|x a IH]; [reflexivity|].
  now rewrite !append_cons, IH.
Qed.

Lemma append_empty_r (a : string) : a +:+ "" = a.
Proof.
  induction a as [|x a IH]; [reflexivity|].
  now rewrite append_cons, IH.
Qed.

Lemma arrIncludes_elem_of (l : list string) (x : string) :
  Js.arrIncludes l x = bool_decide (x ∈ l).
Proof.
  unfold Js.arrIncludes.
  induction l as [|y l IH].
  - symmetry. apply bool_decide_eq_false_2, not_elem_of_nil.
  - cbn [existsb]. rewrite IH.
    destruct (String.eqb_spec x y) as [->|Hne]; cbn [orb].
    + symmetry. apply bool_decide_eq_true_2, list_elem_of_here.
    + apply bool_decide_ext. rewrite elem_of_cons. tauto.
Qed.

Lemma concatAll_app (l1 l2 : list string) :
  concatAll (l1 ++ l2) = concatAll l1 +:+ concatAll l2.
Proof.
  induction l1 as [|x l1 IH]; [reflexivity|].
  change (x +:+ concatAll (l1 ++ l2) = (x +:+ concatAll l1) +:+ concatAll l2).
  now rewrite IH, append_assoc.
Qed.

Lemma appendEach_concat {A} (f : A -> string) (l : list A) (result : string) :
  PlantUMLGenerator.appendEach f l result = result +:+ concatAll (map f l).
Proof.
  unfold PlantUMLGenerator.appendEach.
  revert result. induction l as [|x l IH]; intros result.
  - apply eq_sym, append_empty_r.
  - change (fold_left (fun acc y => acc +:+ f y) l (result +:+ f x) =
            result +:+ (f x +:+ concatAll (map f l))).
    now rewrite IH, append_assoc.
Qed.

(** Induction along the [parentClass] chain. *)
Lemma chain_ind (P : ClassInfo.t -> Prop) :
  (forall c, (forall p, ClassInfo.parentClass c = Some p -> P p) -> P c) ->
  forall c, P c.
Proof.
  intros step c.
  remember (ClassInfo.depth c) as n eqn:Hn.
  revert c Hn. induction n as [n IH] using lt_wf_ind. intros c Hn.
  apply step. intros p Hp.
  apply (IH (ClassInfo.depth p)); [|reflexivity].
  subst n. destruct c; simpl in *. rewrite Hp. lia.
Qed.

(** ** Visibility symbols *)

(** C9. The visibility symbol is [-] when the modifier list contains
    [private], else [#] when it contains [protected], else [+] when it
    contains [public], else [~]; the line rendered for a field starts with
    four blanks and this symbol, and so does the line rendered for every
    method that is rendered at all (a method with an empty name renders as
    nothing). *)
Theorem visibility_symbol_mapping :
  (forall modifiers,
      PlantUMLGenerator.getVisibilitySymbol modifiers = visibilityOf modifiers) /\
  (forall field,
      PlantUMLGenerator.generateField field =
        "    " +:+ visibilityOf (FieldInfo.modifiers field)
          +:+ staticMarker (FieldInfo.modifiers field)
          +:+ FieldInfo.type field +:+ " " +:+ FieldInfo.name field +:+ newline) /\
  (forall method,
      PlantUMLGenerator.generateMethod method =
        if String.eqb (MethodInfo.name method) "" then ""
        else
          "    " +:+ visibilityOf (MethodInfo.modifiers method)
            +:+ staticMarker (MethodInfo.modifiers method)
            +:+ MethodInfo.returnType method +:+ " " +:+ MethodInfo.name method
            +:+ "("
            +:+ Js.join
                  (map (fun p => Js.trim (ParameterInfo.type p +:+ " " +:+ ParameterInfo.name p))
                     (List.filter (fun p => Js.truthy (ParameterInfo.type p))
                        (MethodInfo.parameters method)))
                  ", "
            +:+ ")" +:+ newline).
Proof.
  assert (Hsym : forall modifiers,
             PlantUMLGenerator.getVisibilitySymbol modifiers = visibilityOf modifiers).
  { intros modifiers. unfold PlantUMLGenerator.getVisibilitySymbol, visibilityOf.
    now rewrite !arrIncludes_elem_of. }
  split; [exact Hsym|]. split.
  - intros field. unfold PlantUMLGenerator.generateField, staticMarker.
    now rewrite Hsym, arrIncludes_elem_of.
  - intros method. unfold PlantUMLGenerator.generateMethod, staticMarker, Js.truthy.
    destruct (String.eqb (MethodInfo.name method) ""); simpl; [reflexivity|].
    now rewrite Hsym, arrIncludes_elem_of.
Qed.

(** ** The emitted-name set between calls *)

(** C8. [generateClassDiagram] empties the set of emitted names before it
    reads it: the text returned for a descriptor is the same whatever the
    set holds on entry, in particular after any series of earlier calls on
    any descriptors, and two calls on the same descriptor return the same
    text. Nothing of the earlier calls is left in the set after the call
    either. *)
Theorem diagram_independent_of_earlier_calls :
  forall (classInfo : ClassInfo.t)
         (before1 before2 : list ClassInfo.t)
         (initial1 initial2 : PlantUMLGenerator.Processed),
    fst (PlantUMLGenerator.generateClassDiagram
           (processedAfter before1 initial1) classInfo) =
    fst (PlantUMLGenerator.generateClassDiagram
           (processedAfter before2 initial2) classInfo) /\
    fst (PlantUMLGenerator.generateClassDiagram
           (processedAfter (before1 ++ [classInfo]) initial1) classInfo) =
    fst (PlantUMLGenerator.generateClassDiagram ∅ classInfo) /\
    processedAfter (before1 ++ [classInfo]) initial1 =
    snd (PlantUMLGenerator.generateAllClassDefinitionsRecursive classInfo ∅).
Proof.
  intros c before1 before2 initial1 initial2.
  split; [reflexivity|]. split; [reflexivity|].
  unfold processedAfter. rewrite fold_left_app. cbn [fold_left].
  unfold PlantUMLGenerator.generateClassDiagram.
  now destruct (PlantUMLGenerator.generateAllClassDefinitionsRecursive c ∅).
Qed.

(** ** The relationships pass *)

Lemma relationships_unfold (c : ClassInfo.t) :
  PlantUMLGenerator.generateAllRelationshipsRecursive c =
    concatAll (map renderEdge (edgesOf c)) +:+
    match ClassInfo.parentClass c with
    | Some p => PlantUMLGenerator.generateAllRelationshipsRecursive p
    | None => ""
    end.
Proof.
  destruct c as [name fields methods modifiers annotations ext impl pkg file parent].
  cbn [PlantUMLGenerator.generateAllRelationshipsRecursive ClassInfo.extends
       ClassInfo.implements ClassInfo.parentClass ClassInfo.name].
  unfold edgesOf.
  cbn [ClassInfo.extends ClassInfo.implements ClassInfo.name].
  rewrite map_app, concatAll_app, map_map.
  assert (Hext :
    match ext with
    | Some e =>
        if Js.truthy e
        then "" +:+ PlantUMLGenerator.getSimpleClassName e
               +:+ PlantUMLGenerator.inheritanceArrow e +:+ name +:+ newline
        else ""
    | None => ""
    end =
    concatAll (map renderEdge
                 match ext with
                 | Some e => if Js.truthy e then [Inherits e name] else []
                 | None => []
                 end)).
  { destruct ext as [e|]; [|reflexivity].
    destruct (Js.truthy e); [|reflexivity].
    cbn [map concatAll fold_right renderEdge].
    unfold PlantUMLGenerator.inheritanceArrow, libraryOrigin.
    rewrite !append_assoc, append_empty_r. reflexivity. }
  rewrite Hext.
  destruct impl as [interfaces|]; cbn [default].
  - rewrite appendEach_concat.
    destruct parent as [p|]; [reflexivity|].
    now rewrite append_empty_r.
  - cbn [map concatAll fold_right]. rewrite append_empty_r.
    destruct parent as [p|]; [reflexivity|].
    now rewrite append_empty_r.
Qed.

Lemma relationships_edges (c : ClassInfo.t) :
  PlantUMLGenerator.generateAllRelationshipsRecursive c =
    concatAll (map renderEdge (flat_map edgesOf (chainOf c))).
Proof.
  induction c as [c IH] using chain_ind.
  rewrite relationships_unfold.
  destruct c as [name fields methods modifiers annotations ext impl pkg file parent].
  cbn [chainOf ClassInfo.parentClass flat_map] in *.
  rewrite map_app, concatAll_app.
  destruct parent as [p|].
  - now rewrite (IH p eq_refl).
  - reflexivity.
Qed.

(** C7. The text of the relationships pass is, descriptor after descriptor
    along the chain, one line per relation the descriptor declares: one
    inheritance line when [extends] is set, written with [<|..] when the
    supertype name carries the [java.]/[javax.] prefix and with [<|--]
    otherwise, then one [<|..] line per entry of [implements]. For [A extends
    B] with [B] resolved to a descriptor without relations of its own the
    text is the single line [B <|-- A]; this is what [parse] and the pass
    give for [/proj/A.java] with [B] found in [/proj/B.java]. *)
Theorem relationships_one_edge_per_relation :
  (forall c,
      PlantUMLGenerator.generateAllRelationshipsRecursive c =
        concatAll (map renderEdge (flat_map edgesOf (chainOf c)))) /\
  (forall fieldsA methodsA modifiersA annotationsA packageA fileA
          fieldsB methodsB modifiersB annotationsB packageB fileB,
      PlantUMLGenerator.generateAllRelationshipsRecursive
        (ClassInfo.mk "A" fieldsA methodsA modifiersA annotationsA
           (Some "B") (Some []) packageA fileA
           (Some (ClassInfo.mk "B" fieldsB methodsB modifiersB annotationsB
                    None (Some []) packageB fileB None))) =
        "B <|-- A" +:+ newline) /\
  match outcome (parse Examples.localParent 1 "class A extends B {}"
                   (Some "/proj/A.java")) with
  | Returned d =>
      PlantUMLGenerator.generateAllRelationshipsRecursive d = "B <|-- A" +:+ newline
  | _ => False
  end.
Proof.
  split; [exact relationships_edges|]. split.
  - intros. rewrite relationships_edges. reflexivity.
  - vm_compute. reflexivity.
Qed.

(** ** The definitions pass *)

Lemma renderBlocks_app (b1 b2 : list Block) :
  renderBlocks (b1 ++ b2) = renderBlocks b1 +:+ renderBlocks b2.
Proof. unfold renderBlocks. now rewrite map_app, concatAll_app. Qed.

Lemma renderBlocks_one (b : Block) : renderBlocks [b] = renderBlock b.
Proof. unfold renderBlocks. cbn [map concatAll fold_right]. apply append_empty_r. Qed.

(** The text written by the interface loop is the text of the blocks it
    records. *)
Lemma defineInterface_blocks (interfaces : list string) (blocks : list Block)
    (processed : PlantUMLGenerator.Processed) :
  fold_left PlantUMLGenerator.defineInterface interfaces
    (renderBlocks blocks, processed) =
  (renderBlocks (fst (fold_left interfaceBlock interfaces (blocks, processed))),
   snd (fold_left interfaceBlock interfaces (blocks, processed))).
Proof.
  revert blocks processed.
  induction interfaces as [|i interfaces IH]; intros blocks processed; [reflexivity|].
  cbn [fold_left].
  unfold PlantUMLGenerator.defineInterface at 2, interfaceBlock at 2 4.
  destruct (negb (PlantUMLGenerator.has processed
                    (PlantUMLGenerator.getSimpleClassName i))).
  - rewrite <- IH. rewrite renderBlocks_app, renderBlocks_one. reflexivity.
  - apply IH.
Qed.

Lemma interfaces_blocks (impl : option (list string)) (text : string)
    (blocks : list Block) (processed : PlantUMLGenerator.Processed) :
  text = renderBlocks blocks ->
  match impl with
  | Some interfaces =>
      fold_left PlantUMLGenerator.defineInterface interfaces (text, processed)
  | None => (text, processed)
  end =
  (renderBlocks
     (fst match impl with
          | Some interfaces => fold_left interfaceBlock interfaces (blocks, processed)
          | None => (blocks, processed)
          end),
   snd match impl with
       | Some interfaces => fold_left interfaceBlock interfaces (blocks, processed)
       | None => (blocks, processed)
       end).
Proof.
  intros ->. destruct impl as [interfaces|]; [apply defineInterface_blocks | reflexivity].
Qed.

(** The text of the definitions pass is the text of the recorded blocks. *)
Lemma definitions_blocks (c : ClassInfo.t) (processed : PlantUMLGenerator.Processed) :
  PlantUMLGenerator.generateAllClassDefinitionsRecursive c processed =
    (renderBlocks (fst (definitionBlocks c processed)),
     snd (definitionBlocks c processed)).
Proof.
  revert processed. induction c as [c IH] using chain_ind. intros processed.
  destruct c as [name fields methods modifiers annotations ext impl pkg file parent].
  cbn [PlantUMLGenerator.generateAllClassDefinitionsRecursive definitionBlocks
       ClassInfo.name ClassInfo.parentClass ClassInfo.extends ClassInfo.implements].
  set (me := ClassInfo.mk name fields methods modifiers annotations ext impl pkg file parent).
  assert (IHp : forall p s, parent = Some p ->
            PlantUMLGenerator.generateAllClassDefinitionsRecursive p s =
              (renderBlocks (fst (definitionBlocks p s)), snd (definitionBlocks p s))).
  { intros p s ->. now apply IH. }
  clear IH.
  destruct (negb (PlantUMLGenerator.has processed name));
    (destruct parent as [p|];
     [ rewrite (IHp p _ eq_refl);
       destruct (definitionBlocks p _) as [b s]; cbn [fst snd]
     | destruct ext as [e|];
       [ destruct (Js.truthy e && negb (PlantUMLGenerator.has _ _)) | ] ]);
    apply interfaces_blocks;
    rewrite ?renderBlocks_app, ?renderBlocks_one; reflexivity.
Qed.

Lemma Fresh_nil (s : PlantUMLGenerator.Processed) : Fresh s [] s.
Proof.
  repeat split.
  - constructor.
  - intros n Hn. cbn in Hn. now apply elem_of_nil in Hn.
  - now left.
  - intros [H|H]; [exact H|]. cbn in H. now apply elem_of_nil in H.
Qed.

Lemma Fresh_one (s : PlantUMLGenerator.Processed) (b : Block) :
  PlantUMLGenerator.has s (blockName b) = false ->
  Fresh s [b] (PlantUMLGenerator.add (blockName b) s).
Proof.
  unfold PlantUMLGenerator.has, PlantUMLGenerator.add.
  intros Hnot%bool_decide_eq_false.
  repeat split; cbn [map].
  - apply NoDup_singleton.
  - intros n Hn%list_elem_of_singleton. now subst.
  - intros Hn. apply elem_of_union in Hn as [Hn%elem_of_singleton|Hn].
    + right. subst. apply list_elem_of_here.
    + now left.
  - intros [Hn|Hn%list_elem_of_singleton]; set_solver.
Qed.

Lemma Fresh_app (s s1 s2 : PlantUMLGenerator.Processed) (b1 b2 : list Block) :
  Fresh s b1 s1 -> Fresh s1 b2 s2 -> Fresh s (b1 ++ b2) s2.
Proof.
  intros (Hnd1 & Hnew1 & Hs1) (Hnd2 & Hnew2 & Hs2).
  repeat split.
  - rewrite map_app. apply NoDup_app. repeat split; [exact Hnd1| |exact Hnd2].
    intros n Hn1 Hn2. apply (Hnew2 n Hn2). apply Hs1. now right.
  - intros n Hn. rewrite map_app in Hn. apply elem_of_app in Hn as [Hn|Hn].
    + now apply Hnew1.
    + intros Hs. apply (Hnew2 n Hn). apply Hs1. now left.
  - intros Hn. apply Hs2 in Hn as [Hn|Hn].
    + apply Hs1 in Hn as [Hn|Hn]; [now left|].
      right. rewrite map_app. apply elem_of_app. now left.
    + right. rewrite map_app. apply elem_of_app. now right.
  - intros Hn. apply Hs2. rewrite map_app in Hn.
    destruct Hn as [Hn|Hn%elem_of_app].
    + left. apply Hs1. now left.
    + destruct Hn as [Hn|Hn]; [left; apply Hs1; now right | now right].
Qed.

Lemma Fresh_interfaces (interfaces : list string)
    (s s1 : PlantUMLGenerator.Processed) (blocks : list Block) :
  Fresh s blocks s1 ->
  Fresh s (fst (fold_left interfaceBlock interfaces (blocks, s1)))
          (snd (fold_left interfaceBlock interfaces (blocks, s1))).
Proof.
  revert blocks s1.
  induction interfaces as [|i interfaces IH]; intros blocks s1 HF; [exact HF|].
  cbn [fold_left]. unfold interfaceBlock at 2 4.
  destruct (PlantUMLGenerator.has s1 (PlantUMLGenerator.getSimpleClassName i)) eqn:Hhas;
    cbn [negb].
  - now apply IH.
  - apply IH. eapply Fresh_app; [exact HF|].
    apply (Fresh_one s1 (InterfaceBlock i)). exact Hhas.
Qed.

Lemma Fresh_implements (impl : option (list string))
    (s s1 : PlantUMLGenerator.Processed) (blocks : list Block) :
  Fresh s blocks s1 ->
  Fresh s
    (fst match impl with
         | Some interfaces => fold_left interfaceBlock interfaces (blocks, s1)
         | None => (blocks, s1)
         end)
    (snd match impl with
         | Some interfaces => fold_left interfaceBlock interfaces (blocks, s1)
         | None => (blocks, s1)
         end).
Proof.
  intros HF. destruct impl as [interfaces|]; [now apply Fresh_interfaces | exact HF].
Qed.

Lemma definitionBlocks_Fresh (c : ClassInfo.t) (s : PlantUMLGenerator.Processed) :
  Fresh s (fst (definitionBlocks c s)) (snd (definitionBlocks c s)).
Proof.
  revert s. induction c as [c IH] using chain_ind. intros s.
  destruct c as [name fields methods modifiers annotations ext impl pkg file parent].
  cbn [definitionBlocks ClassInfo.name ClassInfo.parentClass ClassInfo.extends
       ClassInfo.implements].
  set (me := ClassInfo.mk name fields methods modifiers annotations ext impl pkg file parent).
  assert (IHp : forall p s0, parent = Some p ->
            Fresh s0 (fst (definitionBlocks p s0)) (snd (definitionBlocks p s0))).
  { intros p s0 ->. now apply IH. }
  clear IH.
  assert (Hme : exists blocks s1,
            (if negb (PlantUMLGenerator.has s name)
             then ([ClassBlock me], PlantUMLGenerator.add name s)
             else ([], s)) = (blocks, s1) /\ Fresh s blocks s1).
  { destruct (PlantUMLGenerator.has s name) eqn:Hhas; cbn [negb].
    - exists [], s. split; [reflexivity | apply Fresh_nil].
    - exists [ClassBlock me], (PlantUMLGenerator.add name s).
      split; [reflexivity | apply (Fresh_one s (ClassBlock me)); exact Hhas]. }
  destruct Hme as (blocks & s1 & -> & HF).
  destruct parent as [p|].
  - specialize (IHp p s1 eq_refl).
    destruct (definitionBlocks p s1) as [b s2]. cbn [fst snd] in IHp.
    apply Fresh_implements. eapply Fresh_app; eassumption.
  - destruct ext as [e|]; [|now apply Fresh_implements].
    destruct (Js.truthy e); cbn [andb]; [|now apply Fresh_implements].
    destruct (PlantUMLGenerator.has s1 (PlantUMLGenerator.getSimpleClassName e)) eqn:Hhas;
      cbn [negb]; [now apply Fresh_implements|].
    apply Fresh_implements. eapply Fresh_app; [exact HF|].
    apply (Fresh_one s1 (PlaceholderBlock e)). exact Hhas.
Qed.

(** C4. The text of the definitions pass of [generateClassDiagram] is the
    text of a sequence of definition blocks (descriptor blocks, placeholder
    blocks of unresolved ancestors, interface blocks) whose type names are
    pairwise different: no name is defined twice, whatever the chain and
    the interface lists are. The diagram is the opening line, these blocks,
    the relationship lines and the closing line. *)
Theorem definitions_pass_defines_each_name_once :
  forall (classInfo : ClassInfo.t) (processedClasses : PlantUMLGenerator.Processed),
    fst (PlantUMLGenerator.generateAllClassDefinitionsRecursive classInfo ∅) =
      renderBlocks (fst (definitionBlocks classInfo ∅)) /\
    NoDup (map blockName (fst (definitionBlocks classInfo ∅))) /\
    fst (PlantUMLGenerator.generateClassDiagram processedClasses classInfo) =
      "@startuml" +:+ newline +:+ newline
        +:+ renderBlocks (fst (definitionBlocks classInfo ∅))
        +:+ PlantUMLGenerator.generateAllRelationshipsRecursive classInfo
        +:+ newline +:+ "@enduml".
Proof.
  intros classInfo processedClasses. split; [|split].
  - now rewrite definitions_blocks.
  - apply (definitionBlocks_Fresh classInfo ∅).
  - unfold PlantUMLGenerator.generateClassDiagram.
    rewrite definitions_blocks. cbn [fst].
    now rewrite !append_assoc.
Qed.

(** ** Computations and their external calls *)

Lemma bind_ret_l {A B} (a : A) (f : A -> M B) : bind (ret a) f = f a.
Proof. unfold bind, ret. now destruct (f a). Qed.

Lemma bind_ext {A B} (m : M A) (f g : A -> M B) :
  (forall a, f a = g a) -> bind m f = bind m g.
Proof. intros H. destruct m as [[a|e|] l]; cbn; [now rewrite H | reflexivity..]. Qed.

Lemma outcome_bind {A B} (m : M A) (f : A -> M B) :
  outcome (bind m f) =
    match outcome m with
    | Returned a => outcome (f a)
    | Thrown e => Thrown e
    | Timeout => Timeout
    end.
Proof. destruct m as [[a|e|] l]; cbn; [now destruct (f a) | reflexivity..]. Qed.

Lemma events_bind {A B} (m : M A) (f : A -> M B) :
  events (bind m f) =
    events m ++ match outcome m with
                | Returned a => events (f a)
                | _ => []
                end.
Proof.
  destruct m as [[a|e|] l]; cbn; [now destruct (f a) | now rewrite app_nil_r..].
Qed.

Lemma outcome_tryCatch {A} (m : M A) (h : Error -> M A) :
  outcome (tryCatch m h) =
    match outcome m with
    | Thrown e => outcome (h e)
    | other => other
    end.
Proof. destruct m as [[a|e|] l]; cbn; [reflexivity | now destruct (h e) | reflexivity]. Qed.

Lemma events_tryCatch {A} (m : M A) (h : Error -> M A) :
  events (tryCatch m h) =
    events m ++ match outcome m with
                | Thrown e => events (h e)
                | _ => []
                end.
Proof.
  destruct m as [[a|e|] l]; cbn;
    [now rewrite app_nil_r | now destruct (h e) | now rewrite app_nil_r].
Qed.

(** A [catch] block that only logs and goes on never lets an exception
    through. *)
Lemma tryCatch_absorbs {A} (m : M A) (a : A) (e : Error) :
  outcome (tryCatch m (fun _ => ret a)) <> Thrown e.
Proof. rewrite outcome_tryCatch. now destruct (outcome m). Qed.

Lemma Calls_ret {A} P (a : A) : Calls P (ret a).
Proof. constructor. Qed.

Lemma Calls_throw {A} P (e : Error) : Calls P (@throw A e).
Proof. constructor. Qed.

Lemma Calls_timeout {A} P : Calls P (@timeout A).
Proof. constructor. Qed.

Lemma Calls_bind {A B} P (m : M A) (f : A -> M B) :
  Calls P m -> (forall a, Calls P (f a)) -> Calls P (bind m f).
Proof.
  unfold Calls. intros Hm Hf. rewrite events_bind. apply Forall_app. split; [exact Hm|].
  destruct (outcome m); [apply Hf | constructor..].
Qed.

Lemma Calls_tryCatch {A} P (m : M A) (h : Error -> M A) :
  Calls P m -> (forall e, Calls P (h e)) -> Calls P (tryCatch m h).
Proof.
  unfold Calls. intros Hm Hh. rewrite events_tryCatch. apply Forall_app. split; [exact Hm|].
  destruct (outcome m); [constructor | apply Hh | constructor].
Qed.

Lemma JavapOnly_NotFs {A} (m : M A) : Calls JavapOnly m -> Calls NotFs m.
Proof.
  unfold Calls. intros H. eapply Forall_impl; [exact H|].
  intros [ | | | ]; unfold JavapOnly, NotFs; cbn; congruence.
Qed.

Section ParserFacts.

Variable env : Env.

Lemma Calls_execJavap (className : string) : Calls JavapOnly (execJavap env className).
Proof.
  unfold execJavap. apply Calls_bind.
  - repeat constructor.
  - intros _. destruct (javap env className); [apply Calls_ret | apply Calls_throw].
Qed.

Lemma Calls_attempt className rewrite st :
  Calls JavapOnly (attempt env className rewrite st).
Proof.
  unfold attempt. apply Calls_tryCatch.
  - apply Calls_bind; [apply Calls_execJavap | intros; apply Calls_ret].
  - intros; apply Calls_ret.
Qed.

Lemma Calls_packagesLoop simpleClassName pkgs st :
  Calls JavapOnly (packagesLoop env simpleClassName pkgs st).
Proof.
  revert st. induction pkgs as [|pkg pkgs IH]; intros st; cbn [packagesLoop].
  - apply Calls_ret.
  - destruct (_ && _ && _); [apply IH|].
    apply Calls_bind; [apply Calls_attempt|].
    intros st'. destruct (found st'); [apply Calls_ret | apply IH].
Qed.

Lemma Calls_systemFallback c : Calls JavapOnly (systemFallback env c).
Proof.
  unfold systemFallback. apply Calls_bind.
  - unfold appletStep. cbn [classInfo].
    destruct (ClassInfo.extends c) as [ext|]; [|apply Calls_ret].
    destruct (String.eqb ext "Applet"); [apply Calls_attempt | apply Calls_ret].
  - intros st. apply Calls_bind.
    + unfold directStep. destruct (Js.includes _ _); [apply Calls_attempt | apply Calls_ret].
    + intros st'. destruct (negb (found st')); [apply Calls_packagesLoop | apply Calls_ret].
Qed.

Lemma Calls_walkParents fuel parentClassName :
  Calls JavapOnly (walkParents env fuel parentClassName).
Proof.
  revert parentClassName. induction fuel as [|fuel IH]; intros parentClassName;
    cbn [walkParents]; destruct (_ && _); try apply Calls_ret; try apply Calls_timeout.
  apply Calls_bind.
  - apply Calls_tryCatch.
    + apply Calls_bind; [apply Calls_execJavap | intros; apply Calls_ret].
    + intros; apply Calls_ret.
  - intros [parentClass|]; [|apply Calls_ret].
    apply Calls_bind; [apply IH | intros; apply Calls_ret].
Qed.

Lemma Calls_resolveSystemParent fuel c :
  Calls JavapOnly (resolveSystemParent env fuel c).
Proof.
  unfold resolveSystemParent. apply Calls_bind; [apply Calls_systemFallback|].
  intros st. destruct (negb (found st)); [apply Calls_throw|].
  unfold walkStep. destruct (ClassInfo.parentClass (classInfo st)) as [parent|];
    [|apply Calls_ret].
  destruct (Js.truthyOpt _); [|apply Calls_ret].
  apply Calls_bind; [apply Calls_walkParents | intros; apply Calls_ret].
Qed.

(** Without a current file path [parse] is [parseClass] followed by the
    system-resolver block. *)
Lemma parse_without_path fuel javaCode :
  parse env fuel javaCode None =
    (parsed <- parseClass env javaCode ;;
     if Js.truthyOpt (ClassInfo.extends parsed)
     then tryCatch (tryCatch (resolveSystemParent env fuel parsed)
                             (fun _ => ret parsed))
                   (fun _ => ret parsed)
     else ret parsed).
Proof.
  destruct fuel; cbn [parse Js.truthyOpt findProjectClass];
    apply bind_ext; intros parsed;
    destruct (match ClassInfo.extends parsed with Some s => Js.truthy s | None => false end);
    try reflexivity; now rewrite bind_ret_l.
Qed.

End ParserFacts.

(** C10. Called without a file path (or with an empty one),
    [findProjectClass] returns [undefined] without touching the file
    system; [parse] without a file path makes no file-system call at all and
    is [parseClass] followed, when [extends] is set, by the system-resolver
    block. *)
Theorem parse_without_path_skips_project_lookup :
  forall (env : Env) (fuel : nat) (javaCode : string),
    (forall className packageName,
        findProjectClass env className packageName None = ret None /\
        findProjectClass env className packageName (Some "") = ret None) /\
    Calls NotFs (parse env fuel javaCode None) /\
    parse env fuel javaCode None =
      (parsed <- parseClass env javaCode ;;
       if Js.truthyOpt (ClassInfo.extends parsed)
       then tryCatch (tryCatch (resolveSystemParent env fuel parsed)
                               (fun _ => ret parsed))
                     (fun _ => ret parsed)
       else ret parsed).
Proof.
  intros env fuel javaCode. split; [now split|].
  split; [|apply parse_without_path].
  rewrite parse_without_path. apply Calls_bind.
  - unfold parseClass. apply Calls_bind; [repeat constructor|].
    intros _. destruct (runParser env javaCode); [apply Calls_ret | apply Calls_throw].
  - intros parsed. destruct (Js.truthyOpt _); [|apply Calls_ret].
    apply Calls_tryCatch; [|intros; apply Calls_ret].
    apply Calls_tryCatch; [|intros; apply Calls_ret].
    apply JavapOnly_NotFs, Calls_resolveSystemParent.
Qed.

(** ** The system-resolver fallback *)

Section Fallback.

Variable env : Env.

Lemma attempt_eq (className : string) (rewrite : bool) (st : Fallback) :
  attempt env className rewrite st =
    (Returned
       match javap env className with
       | Some stdout =>
           {| classInfo :=
                (if rewrite then ClassInfo.setExtends (Some className) else id)
                  (ClassInfo.setParentClass
                     (Some (parseJavapOutput stdout className)) (classInfo st));
              found := true;
              error := error st |}
       | None =>
           {| classInfo := classInfo st; found := found st;
              error := Some (JavapFailure className) |}
       end,
     [EvJavap className]).
Proof.
  unfold attempt, execJavap.
  destruct (javap env className) as [stdout|]; destruct rewrite; reflexivity.
Qed.

Lemma packagesLoop_spec (ext simpleClassName : string) (pkgs : list string) :
  Js.truthy ext = true ->
  forall st,
    ClassInfo.extends (classInfo st) = Some ext ->
    found st = false ->
    exists st',
      packagesLoop env simpleClassName pkgs st =
        (Returned st', map EvJavap (tried env (loopNames ext simpleClassName pkgs))) /\
      FallbackResult env (loopNames ext simpleClassName pkgs) (classInfo st) st'.
Proof.
  intros Htruthy. unfold FallbackResult, winner.
  induction pkgs as [|pkg pkgs IH]; intros st Hext Hfound.
  - exists st. split; [reflexivity|]. cbn. now split.
  - cbn [packagesLoop loopNames flat_map].
    rewrite Hext. cbn [Js.truthyOpt Js.optOrElse]. unfold Js.orElse.
    rewrite Htruthy. cbn [andb].
    destruct (Js.includes ext "." && String.eqb pkg "").
    + cbn [app]. destruct (IH st Hext Hfound) as (st' & Heq & Hres).
      exists st'. split; assumption.
    + cbn [app tried List.find].
      set (n := if Js.truthy pkg then pkg +:+ simpleClassName else ext).
      rewrite attempt_eq.
      assert (Hr : resolves env n =
                   match javap env n with Some _ => true | None => false end)
        by reflexivity.
      destruct (javap env n) as [stdout|] eqn:Hjavap; rewrite Hr.
      * eexists. split; [reflexivity|]. cbn [found classInfo].
        split; [reflexivity|]. exists stdout. split; [exact Hjavap | reflexivity].
      * cbn [bind found]. rewrite Hfound.
        edestruct (IH {| classInfo := classInfo st; found := false;
                         error := Some (JavapFailure n) |})
          as (st' & Heq & Hres); [exact Hext | reflexivity |].
        rewrite Heq. exists st'. split; [reflexivity | exact Hres].
Qed.

Lemma loopNames_commonPackages (ext : string) :
  loopNames ext (simpleClassNameOf (Some ext)) commonPackages =
    (if Js.includes ext "." then [] else [ext]) ++
    map (fun pkg => pkg +:+ simpleClassNameOf (Some ext)) runtimeNamespaces.
Proof.
  unfold loopNames, commonPackages, runtimeNamespaces.
  cbn [flat_map map String.eqb Ascii.eqb]. 
  destruct (Js.includes ext "."); reflexivity.
Qed.

End Fallback.

Section FallbackSpec.

Variable env : Env.

Lemma tried_cons_fail (n : string) (rest : list string) :
  javap env n = None -> tried env (n :: rest) = n :: tried env rest.
Proof. intros H. cbn [tried]. unfold resolves. now rewrite H. Qed.

Lemma tried_cons_ok (n stdout : string) (rest : list string) :
  javap env n = Some stdout -> tried env (n :: rest) = [n].
Proof. intros H. cbn [tried]. unfold resolves. now rewrite H. Qed.

Lemma winner_cons_fail (n : string) (rest : list string) :
  javap env n = None -> winner env (n :: rest) = winner env rest.
Proof. intros H. unfold winner. cbn [List.find]. unfold resolves at 1. now rewrite H. Qed.

Lemma winner_cons_ok (n stdout : string) (rest : list string) :
  javap env n = Some stdout -> winner env (n :: rest) = Some n.
Proof. intros H. unfold winner. cbn [List.find]. unfold resolves at 1. now rewrite H. Qed.

Lemma FallbackResult_cons_fail (n : string) (rest : list string) c st :
  javap env n = None ->
  FallbackResult env rest c st -> FallbackResult env (n :: rest) c st.
Proof. intros H. unfold FallbackResult. now rewrite (winner_cons_fail _ _ H). Qed.

Lemma FallbackResult_cons_ok (n stdout : string) (rest : list string) c st :
  javap env n = Some stdout ->
  found st = true -> classInfo st = resolvedAs n stdout c ->
  FallbackResult env (n :: rest) c st.
Proof.
  intros H Hf Hc. unfold FallbackResult. rewrite (winner_cons_ok _ _ _ H).
  split; [exact Hf|]. now exists stdout.
Qed.

Lemma fullClassNameOf_no_package (c : ClassInfo.t) (ext : string) :
  ClassInfo.packageName c = None ->
  ClassInfo.extends c = Some ext ->
  Js.truthy ext = true ->
  fullClassNameOf c = ext.
Proof.
  intros Hpkg Hext Htruthy. unfold fullClassNameOf.
  rewrite Hpkg, Hext. cbn [Js.truthyOpt Js.optOrElse]. unfold Js.orElse.
  now rewrite Htruthy.
Qed.

Lemma bind_returned {A B} (a : A) (l : list Event) (f : A -> M B) :
  bind (Returned a, l) f = (outcome (f a), l ++ events (f a)).
Proof. unfold bind, outcome, events. now destruct (f a). Qed.

Lemma directStep_simple (name : string) (st : Fallback) :
  Js.includes name "." = false -> directStep env name st = ret st.
Proof. intros H. unfold directStep. now rewrite H. Qed.

(** The fallback on a descriptor without package name, as [parseClass]
    produces them: the names are tried in order up to the first that
    resolves. *)
Lemma systemFallback_spec (c : ClassInfo.t) (ext : string) :
  ClassInfo.packageName c = None ->
  ClassInfo.extends c = Some ext ->
  Js.truthy ext = true ->
  exists st,
    systemFallback env c =
      (Returned st, map EvJavap (tried env (attemptNames ext))) /\
    FallbackResult env (attemptNames ext) c st.
Proof.
  intros Hpkg Hext Htruthy.
  unfold systemFallback, attemptNames.
  rewrite (fullClassNameOf_no_package c ext Hpkg Hext Htruthy).
  unfold appletStep. cbn [classInfo]. rewrite Hext.
  destruct (String.eqb_spec ext "Applet") as [->|Hne].
  - (* the Applet special case *)
    rewrite attempt_eq, bind_returned. cbn [app].
    rewrite directStep_simple by reflexivity. rewrite bind_ret_l.
    destruct (javap env "java.applet.Applet") as [stdout|] eqn:Happlet;
      cbn [found negb classInfo].
    + eexists. split.
      * rewrite (tried_cons_ok _ _ _ Happlet). reflexivity.
      * eapply FallbackResult_cons_ok; [exact Happlet | reflexivity | reflexivity].
    + edestruct (packagesLoop_spec env "Applet" (simpleClassNameOf (Some "Applet"))
                   commonPackages Htruthy
                   {| classInfo := c; found := false;
                      error := Some (JavapFailure "java.applet.Applet") |})
        as (st & Heq & Hres); [exact Hext | reflexivity |].
      rewrite loopNames_commonPackages in Heq, Hres.
      change (Js.includes "Applet" ".") with false in Heq, Hres.
      cbn [app] in Heq, Hres. rewrite Hext, Heq.
      exists st. split.
      * rewrite (tried_cons_fail _ _ Happlet). reflexivity.
      * apply FallbackResult_cons_fail; [exact Happlet | exact Hres].
  - rewrite bind_ret_l. cbn [app]. unfold directStep.
    destruct (Js.includes ext ".") eqn:Hdot.
    + (* the name as given carries a package: the direct attempt *)
      rewrite attempt_eq, bind_returned.
      destruct (javap env ext) as [stdout|] eqn:Hjavap;
        cbn [found negb classInfo].
      * eexists. split.
        -- rewrite (tried_cons_ok _ _ _ Hjavap). reflexivity.
        -- eapply FallbackResult_cons_ok; [exact Hjavap | reflexivity |].
           cbn [classInfo id]. unfold resolvedAs.
           destruct c; cbn in Hext |- *. now rewrite Hext.
      * edestruct (packagesLoop_spec env ext (simpleClassNameOf (Some ext))
                     commonPackages Htruthy
                     {| classInfo := c; found := false;
                        error := Some (JavapFailure ext) |})
          as (st & Heq & Hres); [exact Hext | reflexivity |].
        rewrite loopNames_commonPackages, Hdot in Heq, Hres.
        cbn [app] in Heq, Hres. rewrite Hext, Heq.
        exists st. split.
        -- rewrite (tried_cons_fail _ _ Hjavap). reflexivity.
        -- apply FallbackResult_cons_fail; [exact Hjavap | exact Hres].
    + (* a simple name: the loop tries it as given first *)
      rewrite bind_ret_l. cbn [negb found classInfo].
      edestruct (packagesLoop_spec env ext (simpleClassNameOf (Some ext))
                   commonPackages Htruthy
                   {| classInfo := c; found := false; error := None |})
        as (st & Heq & Hres); [exact Hext | reflexivity |].
      rewrite loopNames_commonPackages, Hdot in Heq, Hres.
      cbn [app] in Heq, Hres. rewrite Hext, Heq.
      exists st. split; [reflexivity | exact Hres].
Qed.

End FallbackSpec.

Lemma rootDescriptor_packageName p filePath :
  ClassInfo.packageName (rootDescriptor p filePath) = None.
Proof. unfold rootDescriptor. now destruct (Js.truthyOpt filePath). Qed.

Lemma rootDescriptor_extends p filePath :
  ClassInfo.extends (rootDescriptor p filePath) = ParsedClass.extends p.
Proof. unfold rootDescriptor. now destruct (Js.truthyOpt filePath). Qed.

Lemma rootDescriptor_parentClass p filePath :
  ClassInfo.parentClass (rootDescriptor p filePath) = None.
Proof. unfold rootDescriptor. now destruct (Js.truthyOpt filePath). Qed.

Lemma javapCalls_map {A} (o : Outcome A) (names : list string) :
  javapCalls (o, map EvJavap names) = names.
Proof.
  unfold javapCalls, events. cbn [snd].
  induction names as [|n names IH]; [reflexivity|].
  cbn [map flat_map app]. now rewrite IH.
Qed.

Lemma walkStep_extends (env : Env) (fuel : nat) (c c' : ClassInfo.t) :
  outcome (walkStep env fuel c) = Returned c' ->
  ClassInfo.extends c' = ClassInfo.extends c.
Proof.
  unfold walkStep.
  destruct (ClassInfo.parentClass c) as [parent|]; [|now intros [= <-]].
  destruct (Js.truthyOpt (ClassInfo.extends parent)); [|now intros [= <-]].
  rewrite outcome_bind.
  destruct (outcome (walkParents env fuel _)) as [chain| |]; [|discriminate..].
  now intros [= <-].
Qed.

(** ** Failures while resolving ancestors *)

Section Absorption.

Variable env : Env.

Lemma parse_eq (fuel : nat) (javaCode : string) (filePath : option string) :
  parse env fuel javaCode filePath =
    (parsed <- parseClass env javaCode ;;
     let classInfo :=
       if Js.truthyOpt filePath then ClassInfo.setFilePath filePath parsed
       else parsed in
     if Js.truthyOpt (ClassInfo.extends classInfo) then
       let ext := Js.optOrElse (ClassInfo.extends classInfo) "" in
       tryCatch
         (parentClassCode <-
            findProjectClass env ext (ClassInfo.packageName classInfo) filePath ;;
          if Js.truthyOpt parentClassCode then
            match fuel with
            | O => timeout
            | S fuel' =>
                parentClassInfo <-
                  parse env fuel' (Js.optOrElse parentClassCode "")
                    (Some (pathJoin env (dirname env (Js.optOrElse filePath ""))
                             (ext +:+ ".java"))) ;;
                ret (ClassInfo.setParentClass (Some parentClassInfo) classInfo)
            end
          else
            tryCatch (resolveSystemParent env fuel classInfo)
                     (fun _ => ret classInfo))
         (fun _ => ret classInfo)
     else ret classInfo).
Proof. destruct fuel; reflexivity. Qed.

Lemma outcome_parseClass (javaCode : string) :
  outcome (parseClass env javaCode) =
    match runParser env javaCode with
    | Some p => Returned (ParsedClass.toClassInfo p)
    | None => Thrown (ParseFailure javaCode)
    end.
Proof. unfold parseClass. now destruct (runParser env javaCode). Qed.

Lemma findProjectClass_returns className packageName currentFilePath :
  exists text, outcome (findProjectClass env className packageName currentFilePath)
               = Returned text.
Proof.
  unfold findProjectClass.
  destruct currentFilePath as [p|]; [|now exists None].
  destruct (negb (Js.truthy p)); [now exists None|].
  rewrite outcome_bind. cbn [outcome emit fst].
  destruct (existsSync env _); [|now exists None].
  rewrite outcome_bind. cbn [outcome emit fst].
  destruct (readFileSync env _) as [text|]; [now exists (Some text) | now exists None].
Qed.







(** The ancestor loop is left at the first [javap] failure. *)
Lemma walkParents_stops_at_failure (fuel : nat) (parentClassName : string) :
  javap env parentClassName = None ->
  outcome (walkParents env (S fuel) parentClassName) = Returned None.
Proof.
  intros Hjavap. cbn [walkParents].
  destruct (_ && _); [|reflexivity].
  unfold execJavap. rewrite Hjavap. reflexivity.
Qed.

End Absorption.



(** ** The ancestor loop and the depth limit *)

(** The helper ends by itself, after at most eleven [javap] calls (depths 0
    to 10). *)
Lemma parseSystemClassWithParents_bounded (env : Env) (fullClassName : string)
    (classInfo : ClassInfo.t) (depth : nat) :
  (exists c, outcome (parseSystemClassWithParents env fullClassName classInfo depth)
             = Returned c) /\
  length (events (parseSystemClassWithParents env fullClassName classInfo depth))
    <= 11 - depth.
Proof.
  funelim (parseSystemClassWithParents env fullClassName classInfo depth).
  - rewrite outcome_tryCatch, events_tryCatch, outcome_bind, events_bind.
    unfold execJavap at 1 2 3 4.
    destruct (javap env fullClassName) as [stdout|]; cbn [outcome events bind emit ret throw fst snd app].
    + cbv zeta.
      destruct (Js.truthy _ && negb _).
      * match goal with
        | IH : forall stdout : string, _ |- _ =>
            destruct (IH stdout) as ((c & Hc) & Hlen)
        end.
        rewrite outcome_bind, events_bind, Hc.
        cbn [outcome events ret fst snd app]. rewrite ?app_nil_r.
        cbn [length]. split; [eauto | lia].
      * cbn [outcome events ret fst snd length app]. split; [eauto | lia].
    + cbn [length]. split; [eauto | lia].
  - cbn. split; [eauto | lia].
Qed.

(** The loop of [parse] goes round for ever when a class names itself as
    its superclass. *)
Lemma walkParents_never_settles_on_cycle (env : Env) (name stdout : string) :
  javap env name = Some stdout ->
  ClassInfo.extends (parseJavapOutput stdout name) = Some name ->
  Js.truthy name = true ->
  String.eqb name "java.lang.Object" = false ->
  forall fuel, outcome (walkParents env fuel name) = Timeout.
Proof.
  intros Hjavap Hext Htruthy Hobject fuel.
  induction fuel as [|fuel IH]; cbn [walkParents];
    rewrite Htruthy, Hobject; cbn [negb andb]; [reflexivity|].
  rewrite outcome_bind, outcome_tryCatch, outcome_bind.
  unfold execJavap. rewrite Hjavap. cbn [outcome bind emit ret fst].
  rewrite outcome_bind, Hext. cbn [Js.optOrElse]. unfold Js.orElse.
  now rewrite Htruthy, IH.
Qed.

(** [parse] does not end when the ancestor loop it starts does not. *)
Lemma parse_never_settles_on_system_cycle (env : Env) (javaCode : string)
    (p : ParsedClass.t) (ext w stdout next : string) :
  runParser env javaCode = Some p ->
  ParsedClass.extends p = Some ext ->
  Js.truthy ext = true ->
  winner env (attemptNames ext) = Some w ->
  javap env w = Some stdout ->
  ClassInfo.extends (parseJavapOutput stdout w) = Some next ->
  Js.truthy next = true ->
  forall fuel,
    outcome (walkParents env fuel next) = Timeout ->
    outcome (parse env fuel javaCode None) = Timeout.
Proof.
  intros Hp Hext Htruthy Hwin Hjavap Hnext Hnt fuel Hwalk.
  rewrite parse_without_path, outcome_bind, outcome_parseClass, Hp.
  change (ClassInfo.extends (ParsedClass.toClassInfo p)) with (ParsedClass.extends p).
  rewrite Hext. cbn [Js.truthyOpt]. rewrite Htruthy.
  rewrite !outcome_tryCatch.
  destruct (systemFallback_spec env (ParsedClass.toClassInfo p) ext eq_refl Hext Htruthy)
    as (st & Heq & Hres).
  unfold FallbackResult in Hres. rewrite Hwin in Hres.
  destruct Hres as (Hfound & stdout' & Hjavap' & Hc).
  rewrite Hjavap in Hjavap'. injection Hjavap' as <-.
  unfold resolveSystemParent. rewrite Heq, bind_returned. cbn [outcome fst].
  rewrite Hfound, Hc. cbn [negb]. unfold walkStep, resolvedAs.
  cbn [ClassInfo.parentClass ClassInfo.setExtends ClassInfo.setParentClass].
  rewrite Hnext. cbn [Js.truthyOpt Js.optOrElse]. unfold Js.orElse. rewrite Hnt.
  now rewrite outcome_bind, Hwalk.
Qed.

(** C1 on the code. With thirteen compiled ancestors the loop of [parse]
    resolves twelve of them after the first, one [javap] call each, and is
    not finished after ten turns; with a class that names itself as its
    superclass neither the loop nor [parse] comes to an end, whatever number
    of turns is allowed. *)
Theorem ancestor_loop_has_no_depth_bound :
  (javapCalls (walkParents Examples.deepChain 12 "C11") =
     ["C11"; "C10"; "C9"; "C8"; "C7"; "C6"; "C5"; "C4"; "C3"; "C2"; "C1"; "C0"] /\
   option_map ClassInfo.depth
     match outcome (walkParents Examples.deepChain 12 "C11") with
     | Returned chain => chain
     | _ => None
     end = Some 12 /\
   outcome (walkParents Examples.deepChain 10 "C11") = Timeout) /\
  (javapCalls (parse Examples.deepChain 12 "class A extends C12 {}" None) =
     ["C12"; "C11"; "C10"; "C9"; "C8"; "C7"; "C6"; "C5"; "C4"; "C3"; "C2"; "C1"; "C0"] /\
   match outcome (parse Examples.deepChain 12 "class A extends C12 {}" None) with
   | Returned d => ClassInfo.depth d = 14
   | _ => False
   end) /\
  (forall fuel, outcome (walkParents Examples.selfReferential fuel "Loop") = Timeout) /\
  (forall fuel,
      outcome (parse Examples.selfReferential fuel "class A extends Loop {}" None)
        = Timeout).
Proof.
  assert (Hloop : forall fuel,
             outcome (walkParents Examples.selfReferential fuel "Loop") = Timeout).
  { apply (walkParents_never_settles_on_cycle Examples.selfReferential "Loop"
             (Examples.javapText "Loop" (Some "Loop"))); reflexivity. }
  split; [|split; [|split]].
  - repeat split; vm_compute; reflexivity.
  - split; vm_compute; reflexivity.
  - exact Hloop.
  - intros fuel.
    apply (parse_never_settles_on_system_cycle Examples.selfReferential
             "class A extends Loop {}" (Examples.emptyClass "A" (Some "Loop"))
             "Loop" "Loop" (Examples.javapText "Loop" (Some "Loop")) "Loop");
      try reflexivity.
    apply Hloop.
Qed.

(** ** Constructor lines of [javap] *)

Lemma parseParameters_names (paramString : string) :
  Forall (fun param => ParameterInfo.name param = "") (parseParameters paramString).
Proof.
  unfold parseParameters. destruct (negb _); [constructor|].
  apply Forall_map. apply Forall_true. reflexivity.
Qed.

Lemma parseParameters_types (paramString : string) :
  map ParameterInfo.type (parseParameters paramString) =
    if Js.truthy (Js.trim paramString)
    then map Js.trim (Js.split paramString ",")
    else [].
Proof.
  unfold parseParameters. destruct (Js.truthy (Js.trim paramString)); [|reflexivity].
  cbn [negb]. rewrite map_map. reflexivity.
Qed.

(** C6 on the code. [javap] prints a constructor as the qualified class name
    followed by the parameter types. On such lines, the example of the
    source comment among them, [parseJavapMethod] does not take the
    constructor branch: the last modifier is returned as the return type and
    the qualified class name as the method name. The parameters are as the
    claim says: the names are empty and the types are those between the
    parentheses, in order. A method whose return type ends in a name that
    also ends the method name ([toString] returning [String]) is taken for a
    constructor instead. *)
Theorem constructor_lines_get_a_return_type :
  parseJavapMethod "public com.example.Shape(java.lang.String, int);" =
    MethodInfo.mk "com.example.Shape" "public"
      [ParameterInfo.mk "" "java.lang.String"; ParameterInfo.mk "" "int"] [] [] /\
  parseJavapMethod "protected com.example.Shape();" =
    MethodInfo.mk "com.example.Shape" "protected" [] [] [] /\
  parseJavapMethod "public java.lang.Exception(java.lang.String);" =
    MethodInfo.mk "java.lang.Exception" "public"
      [ParameterInfo.mk "" "java.lang.String"] [] [] /\
  parseJavapMethod "public Shape(java.lang.String, int);" =
    MethodInfo.mk "Shape" "public"
      [ParameterInfo.mk "" "java.lang.String"; ParameterInfo.mk "" "int"] [] [] /\
  parseJavapMethod "public java.lang.String toString();" =
    MethodInfo.mk "String" "" [] ["public"] [] /\
  (forall paramString,
      Forall (fun param => ParameterInfo.name param = "") (parseParameters paramString) /\
      map ParameterInfo.type (parseParameters paramString) =
        if Js.truthy (Js.trim paramString)
        then map Js.trim (Js.split paramString ",")
        else []).
Proof.
  repeat split; try (vm_compute; reflexivity).
  - apply parseParameters_names.
  - apply parseParameters_types.
Qed.

(** * Further properties *)

(** ** Dots in names *)

Lemma prefix_dot (c : ascii) (t : string) :
  String.prefix "." (String c t) = Ascii.eqb c ".".
Proof.
  cbn [String.prefix]. destruct (ascii_dec "." c) as [<-|Hne].
  - now destruct t.
  - symmetry. apply Ascii.eqb_neq. congruence.
Qed.

Lemma includes_dot_cons (c : ascii) (t : string) :
  Js.includes (String c t) "." = Ascii.eqb c "." || Js.includes t ".".
Proof. cbn [Js.includes]. now rewrite prefix_dot. Qed.

Lemma before_after_last_dot (s : string) :
  Js.includes s "." = true ->
  Js.beforeLastDot s +:+ "." +:+ afterLastDot s = s.
Proof.
  induction s as [|c t IH]; [discriminate|].
  rewrite includes_dot_cons. cbn [Js.beforeLastDot afterLastDot].
  destruct (Js.includes t ".").
  - intros _. rewrite append_cons, IH; reflexivity.
  - rewrite orb_false_r. intros Hc. rewrite Hc.
    apply Ascii.eqb_eq in Hc. subst c. reflexivity.
Qed.

Lemma afterLastDot_no_dot (s : string) :
  Js.includes (afterLastDot s) "." = false.
Proof.
  induction s as [|c t IH]; [reflexivity|].
  cbn [afterLastDot]. destruct (Js.includes t ".") eqn:Ht; [exact IH|].
  destruct (Ascii.eqb c ".") eqn:Hc; [exact Ht|].
  now rewrite includes_dot_cons, Hc, Ht.
Qed.

Lemma afterLastDot_id (s : string) :
  Js.includes s "." = false -> afterLastDot s = s.
Proof.
  destruct s as [|c t]; [reflexivity|].
  rewrite includes_dot_cons. intros H. apply orb_false_iff in H as [Hc Ht].
  cbn [afterLastDot]. now rewrite Ht, Hc.
Qed.

(** The last piece of [s.split(".")]. *)
Lemma last_split_dot (s cur : string) :
  last (Js.splitGo "." s 0 cur) =
    Some (if Js.includes s "." then afterLastDot s else cur +:+ s).
Proof.
  revert cur. induction s as [|c t IH]; intros cur.
  - cbn. now rewrite append_empty_r.
  - cbn [Js.splitGo]. rewrite prefix_dot, includes_dot_cons.
    cbn [afterLastDot String.length Nat.sub].
    destruct (Ascii.eqb c ".") eqn:Hc; cbn [orb].
    + apply Ascii.eqb_eq in Hc. subst c.
      rewrite last_cons, IH. cbn [Ascii.eqb].
      destruct (Js.includes t "."); reflexivity.
    + rewrite IH. destruct (Js.includes t "."); [reflexivity|].
      now rewrite append_assoc.
Qed.

Lemma pop_split_dot (s : string) :
  Js.pop (Js.split s ".") = Some (afterLastDot s).
Proof.
  unfold Js.pop, Js.split. cbn [String.eqb]. rewrite last_split_dot.
  destruct (Js.includes s ".") eqn:H; [reflexivity|].
  now rewrite afterLastDot_id.
Qed.

Lemma orElse_empty (s : string) : Js.orElse s "" = s.
Proof.
  unfold Js.orElse, Js.truthy. destruct (String.eqb_spec s "") as [->|]; reflexivity.
Qed.

Lemma getSimpleClassName_afterLastDot (className : string) :
  PlantUMLGenerator.getSimpleClassName className = afterLastDot className.
Proof.
  unfold PlantUMLGenerator.getSimpleClassName.
  destruct (Js.includes className ".") eqn:H.
  - now rewrite pop_split_dot.
  - now rewrite afterLastDot_id.
Qed.

(** ** The descriptor built from [javap] text *)

Lemma SameIdentity_refl (c : ClassInfo.t) : SameIdentity c c.
Proof. repeat split. Qed.

Lemma SameIdentity_trans (a b c : ClassInfo.t) :
  SameIdentity a b -> SameIdentity b c -> SameIdentity a c.
Proof. unfold SameIdentity. intuition congruence. Qed.

(** One line of [javap] text leaves the identity of the descriptor alone,
    and the members too when the class is a runtime class. *)
Lemma parseJavapLine_keeps (isSystemClass : bool) (st : ClassInfo.t * bool)
    (rawLine : string) :
  SameIdentity (fst st) (fst (parseJavapLine isSystemClass st rawLine)) /\
  (isSystemClass = true ->
   ClassInfo.fields (fst (parseJavapLine isSystemClass st rawLine))
     = ClassInfo.fields (fst st) /\
   ClassInfo.methods (fst (parseJavapLine isSystemClass st rawLine))
     = ClassInfo.methods (fst st)).
Proof.
  destruct st as [c inCodeBlock]. unfold parseJavapLine.
  destruct (negb (Js.truthy (Js.trim rawLine)) || _);
    [split; [apply SameIdentity_refl | now split]|].
  destruct (inCodeBlock && _); [split; [apply SameIdentity_refl | now split]|].
  destruct (Js.includes (Js.trim rawLine) "class").
  { destruct (Re.search classDeclRe (Js.trim rawLine)) as [[|g1 [|g2 [|g3 rest]]]|];
      try (split; [apply SameIdentity_refl | now split]).
    destruct c; split; [repeat split | now split]. }
  destruct isSystemClass; [split; [apply SameIdentity_refl | now split]|].
  destruct (_ || _ || _ || _); [|split; [apply SameIdentity_refl | discriminate]].
  destruct (Js.includes (Js.trim rawLine) "(").
  - destruct (Js.truthy _); [|split; [apply SameIdentity_refl | discriminate]].
    destruct c; split; [repeat split | discriminate].
  - destruct (Js.truthy _); [|split; [apply SameIdentity_refl | discriminate]].
    destruct c; split; [repeat split | discriminate].
Qed.

Lemma parseJavapLines_keep (isSystemClass : bool) (lines : list string)
    (st : ClassInfo.t * bool) :
  SameIdentity (fst st) (fst (fold_left (parseJavapLine isSystemClass) lines st)) /\
  (isSystemClass = true ->
   ClassInfo.fields (fst (fold_left (parseJavapLine isSystemClass) lines st))
     = ClassInfo.fields (fst st) /\
   ClassInfo.methods (fst (fold_left (parseJavapLine isSystemClass) lines st))
     = ClassInfo.methods (fst st)).
Proof.
  revert st. induction lines as [|line lines IH]; intros st; cbn [fold_left].
  - split; [apply SameIdentity_refl | now split].
  - destruct (IH (parseJavapLine isSystemClass st line)) as [Hid Hmem].
    destruct (parseJavapLine_keeps isSystemClass st line) as [Hid1 Hmem1].
    split; [eapply SameIdentity_trans; eassumption|].
    intros Hsys. destruct (Hmem Hsys) as [-> ->]. now apply Hmem1.
Qed.

Lemma javap_descriptor_SameIdentity (output fullClassName : string) :
  SameIdentity
    (ClassInfo.mk (Js.optOrElse (Js.pop (Js.split fullClassName ".")) "")
       [] [] [] [] None None (Some (Js.beforeLastDot fullClassName)) None None)
    (parseJavapOutput output fullClassName).
Proof.
  unfold parseJavapOutput. cbv zeta.
  match goal with
  | |- SameIdentity ?c (fst (fold_left (parseJavapLine ?sys) ?lines ?st)) =>
      exact (proj1 (parseJavapLines_keep sys lines st))
  end.
Qed.

Lemma javap_descriptor_name (output fullClassName : string) :
  ClassInfo.name (parseJavapOutput output fullClassName) = afterLastDot fullClassName.
Proof.
  destruct (javap_descriptor_SameIdentity output fullClassName) as (Hname & _).
  cbn [ClassInfo.name] in Hname.
  rewrite pop_split_dot in Hname. cbn [Js.optOrElse] in Hname.
  now rewrite orElse_empty in Hname.
Qed.

Lemma javap_descriptor_parentClass (output fullClassName : string) :
  ClassInfo.parentClass (parseJavapOutput output fullClassName) = None.
Proof. apply (javap_descriptor_SameIdentity output fullClassName). Qed.

(** X1. The name and the package of the descriptor built from [javap] text come
    from the class name asked for, not from the text: the name is what
    follows its last dot (so it has no dot), the package what precedes it,
    and the two put together give the class name back. The text never sets
    annotations, interfaces, file path or parent. *)
Theorem javap_descriptor_identity :
  forall (output fullClassName : string),
    let d := parseJavapOutput output fullClassName in
    ClassInfo.name d = afterLastDot fullClassName /\
    ClassInfo.packageName d = Some (Js.beforeLastDot fullClassName) /\
    (if Js.includes fullClassName "."
     then Js.beforeLastDot fullClassName +:+ "." +:+ ClassInfo.name d
     else ClassInfo.name d) = fullClassName /\
    Js.includes (ClassInfo.name d) "." = false /\
    ClassInfo.annotations d = [] /\
    ClassInfo.implements d = None /\
    ClassInfo.filePath d = None /\
    ClassInfo.parentClass d = None.
Proof.
  intros output fullClassName d.
  pose proof (javap_descriptor_name output fullClassName) as Hname.
  destruct (javap_descriptor_SameIdentity output fullClassName)
    as (_ & Hpkg & Hann & Himpl & Hfile & Hparent).
  cbn [ClassInfo.packageName ClassInfo.annotations
       ClassInfo.implements ClassInfo.filePath ClassInfo.parentClass] in *.
  fold d in Hname, Hpkg, Hann, Himpl, Hfile, Hparent.
  repeat split; try assumption.
  - rewrite Hname. destruct (Js.includes fullClassName ".") eqn:Hdot.
    + now apply before_after_last_dot.
    + now apply afterLastDot_id.
  - rewrite Hname. apply afterLastDot_no_dot.
Qed.

(** X2. For a class of the runtime library ([java.] or [javax.]
    prefix) the descriptor built from [javap] text has no field and no
    method, whatever the text holds. *)
Theorem javap_descriptor_of_runtime_class_has_no_members :
  forall (output fullClassName : string),
    isSystemClassName fullClassName = true ->
    ClassInfo.fields (parseJavapOutput output fullClassName) = [] /\
    ClassInfo.methods (parseJavapOutput output fullClassName) = [].
Proof.
  intros output fullClassName Hsys.
  unfold isSystemClassName in Hsys. unfold parseJavapOutput. cbv zeta.
  rewrite Hsys.
  match goal with
  | |- context [fold_left (parseJavapLine true) ?lines ?st] =>
      destruct (parseJavapLines_keep true lines st) as [_ Hmem]
  end.
  now apply Hmem.
Qed.

(** The runtime-library case at the text printed for [java.lang.Thread]. *)
Lemma javap_descriptor_of_runtime_class_has_no_members_witness :
  isSystemClassName "java.lang.Thread" = true /\
  ClassInfo.fields
    (parseJavapOutput
       ("public class java.lang.Thread implements java.lang.Runnable {" +:+ newline
        +:+ "  public static final int MIN_PRIORITY;" +:+ newline
        +:+ "  public void run();" +:+ newline +:+ "}")
       "java.lang.Thread") = [] /\
  ClassInfo.methods
    (parseJavapOutput
       ("public class java.lang.Thread implements java.lang.Runnable {" +:+ newline
        +:+ "  public static final int MIN_PRIORITY;" +:+ newline
        +:+ "  public void run();" +:+ newline +:+ "}")
       "java.lang.Thread") = [].
Proof.
  split; [reflexivity|].
  exact (javap_descriptor_of_runtime_class_has_no_members _ "java.lang.Thread" eq_refl).
Defined.

(** X3. The name written at the supertype end of an inheritance
    line for an ancestor resolved as [w] is the name of the descriptor built
    from the [javap] text of [w], whatever [w] and the text are. *)
Theorem edge_supertype_is_javap_descriptor_name :
  forall (output w : string),
    PlantUMLGenerator.getSimpleClassName w =
      ClassInfo.name (parseJavapOutput output w).
Proof.
  intros output w. now rewrite getSimpleClassName_afterLastDot, javap_descriptor_name.
Qed.

(** ** Names used by the relationship lines *)

Lemma snd_interfaceBlocks (interfaces : list string) (blocks : list Block)
    (s : PlantUMLGenerator.Processed) :
  snd (fold_left interfaceBlock interfaces (blocks, s)) =
    fold_left markInterface interfaces s.
Proof.
  revert blocks s. induction interfaces as [|i interfaces IH]; intros blocks s;
    [reflexivity|].
  cbn [fold_left]. unfold interfaceBlock at 2, markInterface at 2.
  destruct (PlantUMLGenerator.has s _); cbn [negb]; apply IH.
Qed.

Lemma elem_of_add (x y : string) (s : PlantUMLGenerator.Processed) :
  y ∈ PlantUMLGenerator.add x s <-> y = x \/ y ∈ s.
Proof.
  unfold PlantUMLGenerator.add. rewrite elem_of_union, elem_of_singleton. tauto.
Qed.

(** Marking a name as emitted: the set only grows and holds the name. *)
Lemma mark_grows (x : string) (s : PlantUMLGenerator.Processed) :
  (forall y, y ∈ s ->
             y ∈ (if PlantUMLGenerator.has s x then s else PlantUMLGenerator.add x s)) /\
  x ∈ (if PlantUMLGenerator.has s x then s else PlantUMLGenerator.add x s).
Proof.
  unfold PlantUMLGenerator.has.
  destruct (bool_decide (x ∈ s)) eqn:Hx.
  - apply bool_decide_eq_true in Hx. now split.
  - split; [intros y Hy|]; apply elem_of_add; auto.
Qed.

Lemma markInterfaces_grows (interfaces : list string) (s : PlantUMLGenerator.Processed) :
  (forall y, y ∈ s -> y ∈ fold_left markInterface interfaces s) /\
  forall i, i ∈ interfaces ->
    PlantUMLGenerator.getSimpleClassName i ∈ fold_left markInterface interfaces s.
Proof.
  revert s. induction interfaces as [|i interfaces IH]; intros s; cbn [fold_left].
  - split; [auto|]. intros i Hi. now apply elem_of_nil in Hi.
  - destruct (IH (markInterface s i)) as [Hsub Hin].
    destruct (mark_grows (PlantUMLGenerator.getSimpleClassName i) s) as [Hs Hi].
    fold (markInterface s i) in Hs, Hi.
    split; [auto|].
    intros j Hj. apply elem_of_cons in Hj as [->|Hj]; [now apply Hsub | now apply Hin].
Qed.

(** The set of emitted names after the definitions pass on [c]. *)
Lemma snd_definitionBlocks (c : ClassInfo.t) (s : PlantUMLGenerator.Processed) :
  snd (definitionBlocks c s) =
    let s1 := if PlantUMLGenerator.has s (ClassInfo.name c) then s
              else PlantUMLGenerator.add (ClassInfo.name c) s in
    let s2 :=
      match ClassInfo.parentClass c with
      | Some p => snd (definitionBlocks p s1)
      | None =>
          match ClassInfo.extends c with
          | Some ext =>
              if Js.truthy ext &&
                 negb (PlantUMLGenerator.has s1 (PlantUMLGenerator.getSimpleClassName ext))
              then PlantUMLGenerator.add (PlantUMLGenerator.getSimpleClassName ext) s1
              else s1
          | None => s1
          end
      end in
    match ClassInfo.implements c with
    | Some interfaces => fold_left markInterface interfaces s2
    | None => s2
    end.
Proof.
  destruct c as [name fields methods modifiers annotations ext impl pkg file parent].
  cbn [definitionBlocks ClassInfo.name ClassInfo.parentClass ClassInfo.extends
       ClassInfo.implements].
  cbv zeta.
  destruct (PlantUMLGenerator.has s name); cbn [negb];
    (destruct parent as [p|];
     [ destruct (definitionBlocks p _) as [b s2]; cbn [snd]
     | destruct ext as [e|];
       [ destruct (Js.truthy e && negb (PlantUMLGenerator.has _ _)) | ] ]);
    destruct impl as [interfaces|]; try reflexivity; apply snd_interfaceBlocks.
Qed.

Lemma definitionBlocks_grows (c : ClassInfo.t) :
  forall s, (forall y, y ∈ s -> y ∈ snd (definitionBlocks c s)) /\
            ClassInfo.name c ∈ snd (definitionBlocks c s).
Proof.
  induction c as [c IH] using chain_ind. intros s.
  rewrite snd_definitionBlocks. cbv zeta.
  destruct (mark_grows (ClassInfo.name c) s) as [Hs1 Hname].
  revert Hs1 Hname.
  generalize (if PlantUMLGenerator.has s (ClassInfo.name c) then s
              else PlantUMLGenerator.add (ClassInfo.name c) s).
  intros s1 Hs1 Hname.
  assert (H2 : forall y, y ∈ s1 ->
             y ∈ match ClassInfo.parentClass c with
                 | Some p => snd (definitionBlocks p s1)
                 | None =>
                     match ClassInfo.extends c with
                     | Some ext =>
                         if Js.truthy ext &&
                            negb (PlantUMLGenerator.has s1
                                    (PlantUMLGenerator.getSimpleClassName ext))
                         then PlantUMLGenerator.add
                                (PlantUMLGenerator.getSimpleClassName ext) s1
                         else s1
                     | None => s1
                     end
                 end).
  { intros y Hy. destruct (ClassInfo.parentClass c) as [p|] eqn:Hp.
    - now apply (IH p eq_refl).
    - destruct (ClassInfo.extends c) as [e|]; [|exact Hy].
      destruct (_ && _); [|exact Hy]. apply elem_of_add. now right. }
  revert H2.
  match goal with
  | |- (forall y, _ -> y ∈ ?x) -> _ => generalize x
  end.
  intros s2 H2.
  destruct (ClassInfo.implements c) as [interfaces|].
  - destruct (markInterfaces_grows interfaces s2) as [H3 _]. split; auto.
  - split; auto.
Qed.

Lemma WellNamed_no_parent (c : ClassInfo.t) :
  ClassInfo.parentClass c = None -> WellNamed c.
Proof. intros H. constructor. intros p Hp. congruence. Qed.

(** Every name of a relationship line is in the set of emitted names when
    the definitions pass is over. *)
Lemma usedNames_processed (c : ClassInfo.t) :
  WellNamed c ->
  forall s n, n ∈ usedNames c -> n ∈ snd (definitionBlocks c s).
Proof.
  induction c as [c IH] using chain_ind. intros Hwn s n Hn.
  inversion Hwn as [c0 Hparent Hc0]. subst c0.
  rewrite snd_definitionBlocks. cbv zeta.
  destruct (mark_grows (ClassInfo.name c) s) as [_ H1].
  revert H1.
  generalize (if PlantUMLGenerator.has s (ClassInfo.name c) then s
              else PlantUMLGenerator.add (ClassInfo.name c) s).
  intros s1 H1.
  (* the set after the ancestors: it holds the name of [c], the names of the
     lines of the ancestors, and the supertype of [c] *)
  assert (Hs2 :
    let s2 := match ClassInfo.parentClass c with
              | Some p => snd (definitionBlocks p s1)
              | None =>
                  match ClassInfo.extends c with
                  | Some ext =>
                      if Js.truthy ext &&
                         negb (PlantUMLGenerator.has s1
                                 (PlantUMLGenerator.getSimpleClassName ext))
                      then PlantUMLGenerator.add
                             (PlantUMLGenerator.getSimpleClassName ext) s1
                      else s1
                  | None => s1
                  end
              end in
    ClassInfo.name c ∈ s2 /\
    (forall m, (exists p, ClassInfo.parentClass c = Some p /\ m ∈ usedNames p)
               -> m ∈ s2) /\
    (forall ext, ClassInfo.extends c = Some ext -> Js.truthy ext = true ->
                 PlantUMLGenerator.getSimpleClassName ext ∈ s2)).
  { cbv zeta. destruct (ClassInfo.parentClass c) as [p|] eqn:Hp.
    - destruct (Hparent p eq_refl) as [Hname Hwnp]. split; [|split].
      + now apply (definitionBlocks_grows p).
      + intros m (p' & [= <-] & Hm). now apply (IH p eq_refl Hwnp).
      + intros ext Hext Htruthy. rewrite <- (Hname ext Hext Htruthy).
        apply (definitionBlocks_grows p).
    - split; [|split].
      + destruct (ClassInfo.extends c) as [e|]; [|exact H1].
        destruct (_ && _); [|exact H1]. apply elem_of_add. now right.
      + intros m (p' & [=] & _).
      + intros ext Hext Htruthy. rewrite Hext, Htruthy. cbn [andb].
        destruct (mark_grows (PlantUMLGenerator.getSimpleClassName ext) s1) as [_ Hin].
        destruct (PlantUMLGenerator.has s1 _); exact Hin. }
  cbv zeta in Hs2. revert Hs2.
  match goal with
  | |- (_ ∈ ?x /\ _) -> _ => generalize x
  end.
  intros s2 (Hself & Hanc & Hsuper).
  assert (Hfinal : forall m,
             m ∈ s2 \/ (exists i, i ∈ default [] (ClassInfo.implements c) /\
                                  m = PlantUMLGenerator.getSimpleClassName i) ->
             m ∈ match ClassInfo.implements c with
                 | Some interfaces => fold_left markInterface interfaces s2
                 | None => s2
                 end).
  { intros m [Hm|(i & Hi & ->)].
    - destruct (ClassInfo.implements c) as [interfaces|]; [|exact Hm].
      now apply (markInterfaces_grows interfaces s2).
    - destruct (ClassInfo.implements c) as [interfaces|]; cbn [default] in Hi.
      + now apply (markInterfaces_grows interfaces s2).
      + now apply elem_of_nil in Hi. }
  apply Hfinal. clear Hfinal.
  unfold usedNames in Hn. destruct c as [name fields methods modifiers annotations
                                           ext impl pkg file parent].
  cbn [chainOf flat_map ClassInfo.parentClass ClassInfo.name ClassInfo.extends
       ClassInfo.implements] in *.
  rewrite flat_map_app in Hn. apply elem_of_app in Hn as [Hn|Hn].
  - (* a line of [c] itself *)
    unfold edgesOf in Hn.
    cbn [ClassInfo.extends ClassInfo.implements ClassInfo.name] in Hn.
    rewrite flat_map_app in Hn. apply elem_of_app in Hn as [Hn|Hn].
    + destruct ext as [e|]; [|now apply elem_of_nil in Hn].
      destruct (Js.truthy e) eqn:Htruthy; [|now apply elem_of_nil in Hn].
      cbn [flat_map edgeNames app] in Hn.
      apply elem_of_cons in Hn as [->|Hn]; [left; now apply Hsuper|].
      apply list_elem_of_singleton in Hn as ->. now left.
    + apply list_elem_of_In, in_flat_map in Hn as (e & He & Hn).
      apply in_map_iff in He as (i & <- & Hi).
      cbn [edgeNames] in Hn. destruct Hn as [<-|[<-|[]]].
      * right. exists i. split; [now apply list_elem_of_In | reflexivity].
      * now left.
  - (* a line of an ancestor *)
    left. destruct parent as [p|].
    + apply Hanc. exists p. split; [reflexivity | exact Hn].
    + cbn [flat_map] in Hn. now apply elem_of_nil in Hn.
Qed.

(** A name left in the set by the definitions pass started on the empty set
    has a definition block. *)
Lemma processed_defined (c : ClassInfo.t) (n : string) :
  n ∈ snd (definitionBlocks c ∅) -> n ∈ definedNames c.
Proof.
  intros Hin. destruct (definitionBlocks_Fresh c ∅) as (_ & _ & Hset).
  apply Hset in Hin as [Hin|Hin]; [now apply not_elem_of_empty in Hin | exact Hin].
Qed.

(** X4. When every resolved ancestor carries the simple name of the
    [extends] value that led to it, every type name a relationship line
    mentions is defined by a block of the definitions pass. *)
Theorem relationship_names_are_defined :
  forall c : ClassInfo.t,
    WellNamed c ->
    forall n, n ∈ usedNames c -> n ∈ definedNames c.
Proof.
  intros c Hwn n Hn. apply processed_defined. now apply usedNames_processed.
Qed.

(** A class that extends [java.lang.Exception], resolved through [javap]. *)
Lemma relationship_names_are_defined_witness :
  "Exception" ∈ definedNames
    (ClassInfo.setParentClass
       (Some (parseJavapOutput "public class java.lang.Exception {" "java.lang.Exception"))
       (ParsedClass.toClassInfo (Examples.emptyClass "A" (Some "java.lang.Exception")))).
Proof.
  apply relationship_names_are_defined.
  - constructor. intros p [= <-]. split.
    + intros ext [= <-] _. vm_compute. reflexivity.
    + apply WellNamed_no_parent. vm_compute. reflexivity.
  - vm_compute. left.
Defined.

(** ** The ancestor loop *)

Lemma javapCalls_bind {A B} (m : M A) (f : A -> M B) :
  javapCalls (bind m f) =
    javapCalls m ++ match outcome m with
                    | Returned a => javapCalls (f a)
                    | _ => []
                    end.
Proof.
  unfold javapCalls. rewrite events_bind, flat_map_app.
  now destruct (outcome m).
Qed.

Lemma javapCalls_tryCatch {A} (m : M A) (h : Error -> M A) :
  javapCalls (tryCatch m h) =
    javapCalls m ++ match outcome m with
                    | Thrown e => javapCalls (h e)
                    | _ => []
                    end.
Proof.
  unfold javapCalls. rewrite events_tryCatch, flat_map_app.
  now destruct (outcome m).
Qed.

Lemma javapCalls_ret {A} (a : A) : javapCalls (ret a) = [].
Proof. reflexivity. Qed.

(** One turn of the loop: the [try] block around [javap]. *)
Lemma walk_turn (env : Env) (n : string) :
  tryCatch
    (stdout <- execJavap env n ;; ret (Some (parseJavapOutput stdout n)))
    (fun _ => ret None) =
  (Returned (option_map (fun stdout => parseJavapOutput stdout n) (javap env n)),
   [EvJavap n]).
Proof. unfold execJavap. now destruct (javap env n). Qed.

Lemma walkParents_eq (env : Env) (fuel : nat) (n : string) :
  walkParents env fuel n =
    if loopGoesOn n then
      match fuel with
      | O => timeout
      | S fuel' =>
          match javap env n with
          | None => (Returned None, [EvJavap n])
          | Some stdout =>
              let parentClass := parseJavapOutput stdout n in
              bind (Returned tt, [EvJavap n])
                (fun _ =>
                   chain <- walkParents env fuel'
                              (Js.optOrElse (ClassInfo.extends parentClass) "") ;;
                   ret (Some (ClassInfo.setParentClass chain parentClass)))
          end
      end
    else ret None.
Proof.
  unfold loopGoesOn. destruct fuel as [|fuel']; cbn [walkParents];
    destruct (_ && _); try reflexivity.
  rewrite walk_turn, bind_returned.
  destruct (javap env n) as [stdout|]; cbn [option_map]; [|reflexivity].
  cbv zeta. rewrite bind_returned. reflexivity.
Qed.


Lemma setParentClass_parentClass (chain : option ClassInfo.t) (c : ClassInfo.t) :
  ClassInfo.parentClass (ClassInfo.setParentClass chain c) = chain.
Proof. reflexivity. Qed.

Lemma javapCalls_emitted {B} (n : string) (k : unit -> M B) :
  javapCalls (bind (Returned tt, [EvJavap n]) k) = n :: javapCalls (k tt).
Proof. unfold javapCalls. rewrite events_bind. reflexivity. Qed.

Lemma outcome_emitted {B} (ev : Event) (k : unit -> M B) :
  outcome (bind (Returned tt, [ev]) k) = outcome (k tt).
Proof. now rewrite outcome_bind. Qed.

Lemma depth_setParentClass (p : ClassInfo.t) (c : ClassInfo.t) :
  ClassInfo.depth (ClassInfo.setParentClass (Some p) c) = S (ClassInfo.depth p).
Proof. reflexivity. Qed.

Lemma walkParents_depth (env : Env) (fuel : nat) :
  forall (n : string) (chain : option ClassInfo.t),
    outcome (walkParents env fuel n) = Returned chain ->
    match chain with
    | Some c => ClassInfo.depth c
    | None => 0
    end <= length (javapCalls (walkParents env fuel n)).
Proof.
  induction fuel as [|fuel IH]; intros n chain; rewrite walkParents_eq;
    destruct (loopGoesOn n); try discriminate; try (intros [= <-]; cbn; lia).
  destruct (javap env n) as [stdout|]; [|intros [= <-]; cbn; lia].
  cbv zeta. rewrite outcome_emitted, javapCalls_emitted, outcome_bind, javapCalls_bind.
  destruct (outcome (walkParents env fuel _)) as [rest| |] eqn:Hrest; [|discriminate..].
  intros [= <-]. apply IH in Hrest.
  rewrite javapCalls_ret, app_nil_r. cbn [length].
  destruct rest as [c|]; [rewrite depth_setParentClass; lia|].
  pose proof (javap_descriptor_parentClass stdout n) as Hnone.
  destruct (parseJavapOutput stdout n); cbn in Hnone |- *; subst. cbn. lia.
Qed.

Lemma walkParents_AncestorChain :
  forall (env : Env) (fuel : nat) (n : string) (chain : option ClassInfo.t),
    outcome (walkParents env fuel n) = Returned chain ->
    AncestorChain env n chain.
Proof.
  intros env fuel. induction fuel as [|fuel IH]; intros n chain;
    rewrite walkParents_eq; destruct (loopGoesOn n) eqn:Hgo.
  - discriminate.
  - intros [= <-]. constructor. now left.
  - destruct (javap env n) as [stdout|] eqn:Hjavap.
    + cbv zeta. rewrite bind_returned. cbn [outcome fst]. rewrite outcome_bind.
      destruct (outcome (walkParents env fuel _)) as [rest| |] eqn:Hrest;
        [|discriminate..].
      intros [= <-]. apply (chain_link env n stdout); try assumption.
      * reflexivity.
      * apply IH. exact Hrest.
    + intros [= <-]. constructor. now right.
  - intros [= <-]. constructor. now left.
Qed.

(** X6. When the ancestor loop ends, what it has built is the chain of the
    [javap] descriptors along the [extends] links, cut at the first class
    without [extends], at [java.lang.Object] or at the first failure of
    [javap]; the chain is no longer than the number of [javap] calls. *)
Theorem walk_builds_the_ancestor_chain :
  forall (env : Env) (fuel : nat) (n : string) (chain : option ClassInfo.t),
    outcome (walkParents env fuel n) = Returned chain ->
    AncestorChain env n chain /\
    match chain with
    | Some c => ClassInfo.depth c
    | None => 0
    end <= length (javapCalls (walkParents env fuel n)).
Proof.
  intros env fuel n chain Hchain. split.
  - now apply (walkParents_AncestorChain env fuel).
  - now apply walkParents_depth.
Qed.

(** The ancestor chain at [class A extends Exception {}]: the loop started
    at [java.lang.Throwable] builds the one-element chain. *)
Lemma walk_builds_the_ancestor_chain_witness :
  AncestorChain Examples.exceptionChild "java.lang.Throwable"
    (Some (parseJavapOutput
             "public class java.lang.Throwable implements java.io.Serializable {"
             "java.lang.Throwable")) /\
  ClassInfo.depth
    (parseJavapOutput
       "public class java.lang.Throwable implements java.io.Serializable {"
       "java.lang.Throwable")
    <= length (javapCalls (walkParents Examples.exceptionChild 3 "java.lang.Throwable")).
Proof.
  exact (walk_builds_the_ancestor_chain Examples.exceptionChild 3
           "java.lang.Throwable" _ eq_refl).
Defined.

(** ** Names along the chains built through [javap] *)

Lemma AncestorChain_WellNamed (env : Env) (n : string) (chain : option ClassInfo.t) :
  AncestorChain env n chain ->
  forall c, chain = Some c ->
    ClassInfo.name c = afterLastDot n /\ WellNamed c.
Proof.
  induction 1 as [n Hstop | n stdout c Hgo Hjavap Hc Hrest IH]; intros c' Hc';
    [discriminate|].
  injection Hc' as <-. split.
  - rewrite Hc. apply javap_descriptor_name.
  - constructor. intros p Hp. destruct (IH p Hp) as [Hname Hwn].
    split; [|exact Hwn].
    intros ext Hext Htruthy. rewrite Hname, getSimpleClassName_afterLastDot.
    rewrite Hc in Hext. cbn [ClassInfo.extends ClassInfo.setParentClass] in Hext.
    rewrite Hext. cbn [Js.optOrElse]. unfold Js.orElse. now rewrite Htruthy.
Qed.

(** What the system-resolver block returns for the descriptor of a parsed
    class: the descriptor resolved as the winning name, with the chain of
    the ancestor loop below the parent. *)
Lemma resolveSystemParent_chain (env : Env) (fuel : nat) (c d : ClassInfo.t)
    (ext : string) :
  ClassInfo.packageName c = None ->
  ClassInfo.extends c = Some ext ->
  Js.truthy ext = true ->
  outcome (resolveSystemParent env fuel c) = Returned d ->
  exists w stdout chain,
    winner env (attemptNames ext) = Some w /\
    javap env w = Some stdout /\
    AncestorChain env
      (Js.optOrElse (ClassInfo.extends (parseJavapOutput stdout w)) "") chain /\
    d = ClassInfo.setExtends (Some w)
          (ClassInfo.setParentClass
             (Some (ClassInfo.setParentClass chain (parseJavapOutput stdout w))) c).
Proof.
  intros Hpkg Hext Htruthy.
  destruct (systemFallback_spec env c ext Hpkg Hext Htruthy) as (st & Heq & Hres).
  unfold resolveSystemParent. rewrite Heq, bind_returned. cbn [outcome fst].
  unfold FallbackResult in Hres.
  destruct (winner env (attemptNames ext)) as [w|].
  - destruct Hres as (Hfound & stdout & Hjavap & Hc).
    rewrite Hfound, Hc. cbn [negb]. unfold walkStep, resolvedAs.
    cbn [ClassInfo.parentClass ClassInfo.setExtends ClassInfo.setParentClass].
    destruct (Js.truthyOpt (ClassInfo.extends (parseJavapOutput stdout w))) eqn:Hte.
    + rewrite outcome_bind.
      destruct (outcome (walkParents env fuel _)) as [chain| |] eqn:Hwalk;
        [|discriminate..].
      cbn [outcome ret fst]. intros [= <-].
      exists w, stdout, chain.
      split; [reflexivity|]. split; [exact Hjavap|]. split.
      * now apply (walkParents_AncestorChain env fuel).
      * now destruct c.
    + cbn [outcome ret fst]. intros [= <-].
      exists w, stdout, None.
      split; [reflexivity|]. split; [exact Hjavap|]. split.
      * constructor. left. unfold loopGoesOn.
        destruct (ClassInfo.extends (parseJavapOutput stdout w)) as [e|];
          cbn [Js.truthyOpt Js.optOrElse] in *; [|reflexivity].
        unfold Js.orElse. now rewrite Hte.
      * pose proof (javap_descriptor_parentClass stdout w) as Hnone.
        destruct (parseJavapOutput stdout w); cbn in Hnone; subst.
        now destruct c.
  - destruct Hres as (Hnot & _). rewrite Hnot. discriminate.
Qed.

(** Every ancestor that [parse] resolves through [javap] carries the simple
    name of the [extends] value that led to it. *)
Lemma parse_system_WellNamed (env : Env) (fuel : nat) (javaCode : string)
    (d : ClassInfo.t) :
  outcome (parse env fuel javaCode None) = Returned d ->
  WellNamed d.
Proof.
  rewrite parse_without_path, outcome_bind, outcome_parseClass.
  destruct (runParser env javaCode) as [p|]; [|discriminate].
  set (root := ParsedClass.toClassInfo p).
  destruct (Js.truthyOpt (ClassInfo.extends root)) eqn:Hset.
  - destruct (ClassInfo.extends root) as [ext|] eqn:Hext; [|discriminate].
    cbn [Js.truthyOpt] in Hset.
    rewrite !outcome_tryCatch.
    destruct (outcome (resolveSystemParent env fuel root)) as [c'|e|] eqn:Hres.
    + intros [= <-].
      destruct (resolveSystemParent_chain env fuel root c' ext eq_refl Hext Hset Hres)
        as (w & stdout & chain & _ & _ & Hchain & ->).
      constructor. intros parent [= <-]. split.
      * intros ext' [= <-] _.
        cbn [ClassInfo.name ClassInfo.setParentClass].
        now rewrite javap_descriptor_name, getSimpleClassName_afterLastDot.
      * constructor. intros q Hq. rewrite setParentClass_parentClass in Hq.
        destruct (AncestorChain_WellNamed env _ _ Hchain q Hq) as [Hname Hwn].
        split; [|exact Hwn].
        intros ext' Hext' Htruthy'.
        cbn [ClassInfo.extends ClassInfo.setParentClass] in Hext'.
        rewrite Hname, getSimpleClassName_afterLastDot, Hext'.
        cbn [Js.optOrElse]. unfold Js.orElse. now rewrite Htruthy'.
    + cbn [outcome ret fst]. intros [= <-]. now apply WellNamed_no_parent.
    + discriminate.
  - cbn [outcome ret fst]. intros [= <-]. now apply WellNamed_no_parent.
Qed.

(** X7. In the diagram of a class parsed without file path,
    whose ancestors are resolved through [javap] only, every type name of a
    relationship line has a definition block. *)
Theorem system_diagram_names_are_defined :
  forall (env : Env) (fuel : nat) (javaCode : string) (d : ClassInfo.t),
    outcome (parse env fuel javaCode None) = Returned d ->
    forall n, n ∈ usedNames d -> n ∈ definedNames d.
Proof.
  intros env fuel javaCode d Hd n Hn.
  apply processed_defined, usedNames_processed; [|exact Hn].
  now apply (parse_system_WellNamed env fuel javaCode).
Qed.

(** [class A extends Exception {}]: [Throwable] is defined. *)
Lemma system_diagram_names_are_defined_witness :
  exists d,
    outcome (parse Examples.exceptionChild 2 "class A extends Exception {}" None)
      = Returned d /\
    "Throwable" ∈ definedNames d.
Proof.
  eexists. split; [reflexivity|].
  apply (system_diagram_names_are_defined Examples.exceptionChild 2
           "class A extends Exception {}"); [reflexivity|].
  vm_compute. right. right. left.
Defined.

(** ** The helper with the depth limit *)

Lemma bind_emit_ret {A B} (ev : Event) (a : A) (k : A -> M B) :
  bind (bind (emit ev) (fun _ => ret a)) k = bind (Returned tt, [ev]) (fun _ => k a).
Proof. cbn. now destruct (k a). Qed.

Lemma parseSystemClassWithParents_eq (env : Env) (n : string) (c : ClassInfo.t)
    (depth : nat) :
  parseSystemClassWithParents env n c depth =
    if Nat.leb depth 10 then
      match javap env n with
      | None => (Returned c, [EvJavap n])
      | Some stdout =>
          let parsedClass := parseJavapOutput stdout n in
          let ext := Js.optOrElse (ClassInfo.extends parsedClass) "" in
          bind (Returned tt, [EvJavap n])
            (fun _ =>
               if loopGoesOn ext then
                 parsedClass' <-
                   parseSystemClassWithParents env ext parsedClass (depth + 1) ;;
                 ret (ClassInfo.setParentClass (Some parsedClass') c)
               else ret (ClassInfo.setParentClass (Some parsedClass) c))
      end
    else ret c.
Proof.
  rewrite parseSystemClassWithParents_equation_1.
  unfold parseSystemClassWithParents_unfold_clause_1.
  destruct (le_lt_dec depth 10) as [Hle|Hgt].
  - rewrite (proj2 (Nat.leb_le depth 10) Hle).
    unfold execJavap. destruct (javap env n) as [stdout|]; [|reflexivity].
    rewrite bind_emit_ret. cbv zeta. unfold loopGoesOn.
    destruct (Js.truthy _ && negb _); [|reflexivity].
    destruct (parseSystemClassWithParents_bounded env
                (Js.optOrElse (ClassInfo.extends (parseJavapOutput stdout n)) "")
                (parseJavapOutput stdout n) (depth + 1)) as ((p' & Hp') & _).
    destruct (parseSystemClassWithParents env _ _ _) as [o l].
    cbn [outcome fst] in Hp'. subst o. reflexivity.
  - rewrite (proj2 (Nat.leb_gt depth 10) Hgt). reflexivity.
Qed.

Lemma Calls_parseSystemClassWithParents (env : Env) (n : string) (c : ClassInfo.t)
    (depth : nat) :
  Calls JavapOnly (parseSystemClassWithParents env n c depth).
Proof.
  funelim (parseSystemClassWithParents env n c depth); [|apply Calls_ret].
  apply Calls_tryCatch; [|intros; apply Calls_ret].
  apply Calls_bind; [apply Calls_execJavap|]. intros stdout. cbv zeta.
  destruct (_ && _); [|apply Calls_ret].
  apply Calls_bind; [auto | intros; apply Calls_ret].
Qed.

Lemma parseSystemClassWithParents_result (env : Env) (k : nat) :
  forall (depth : nat) (n : string) (c : ClassInfo.t),
    11 - depth = k ->
    exists d,
      outcome (parseSystemClassWithParents env n c depth) = Returned d /\
      d = ClassInfo.setParentClass (ClassInfo.parentClass d) c /\
      length (javapCalls (parseSystemClassWithParents env n c depth)) <= k /\
      (10 < depth \/ javap env n = None -> d = c).
Proof.
  induction k as [|k IH]; intros depth n c Hk; rewrite parseSystemClassWithParents_eq.
  - rewrite (proj2 (Nat.leb_gt depth 10)) by lia.
    exists c. split; [reflexivity|]. split; [now destruct c|]. split; [cbn; lia | auto].
  - rewrite (proj2 (Nat.leb_le depth 10)) by lia.
    destruct (javap env n) as [stdout|].
    + cbv zeta. rewrite outcome_emitted, javapCalls_emitted.
      destruct (loopGoesOn _).
      * destruct (IH (depth + 1) (Js.optOrElse (ClassInfo.extends (parseJavapOutput stdout n)) "")
                    (parseJavapOutput stdout n)) as (p' & Hp' & _ & Hlen & _); [lia|].
        rewrite outcome_bind, javapCalls_bind, Hp'. cbn [outcome ret fst].
        eexists. split; [reflexivity|]. split; [now destruct c|].
        split; [|intros [?|?]; [lia|discriminate]].
        rewrite javapCalls_ret, app_nil_r. cbn [length]. lia.
      * eexists. split; [reflexivity|]. split; [now destruct c|].
        split; [cbn; lia|intros [?|?]; [lia|discriminate]].
    + exists c. split; [reflexivity|]. split; [now destruct c|].
      split; [cbn; lia | auto].
Qed.

(** X8. The helper with the depth limit always returns, whatever [javap]
    answers: it makes at most [11 - depth] calls, all of them to [javap],
    and what it returns is the descriptor it was given except for
    [parentClass]. Beyond depth 10, or when [javap] fails for the class, the
    descriptor comes back as it was. *)
Theorem depth_limited_helper_returns_within_eleven_calls :
  forall (env : Env) (fullClassName : string) (classInfo : ClassInfo.t) (depth : nat),
    exists d,
      outcome (parseSystemClassWithParents env fullClassName classInfo depth)
        = Returned d /\
      d = ClassInfo.setParentClass (ClassInfo.parentClass d) classInfo /\
      length (javapCalls (parseSystemClassWithParents env fullClassName classInfo depth))
        <= 11 - depth /\
      Calls JavapOnly (parseSystemClassWithParents env fullClassName classInfo depth) /\
      (10 < depth \/ javap env fullClassName = None -> d = classInfo).
Proof.
  intros env n c depth.
  destruct (parseSystemClassWithParents_result env (11 - depth) depth n c eq_refl)
    as (d & Hd & Hsame & Hlen & Hstop).
  exists d. repeat (split; [assumption|]).
  split; [apply Calls_parseSystemClassWithParents | exact Hstop].
Qed.

Lemma parseSystemClassWithParents_cycle (env : Env) (n stdout : string) (k : nat) :
  javap env n = Some stdout ->
  ClassInfo.extends (parseJavapOutput stdout n) = Some n ->
  loopGoesOn n = true ->
  forall (depth : nat) (c : ClassInfo.t),
    11 - depth = k ->
    javapCalls (parseSystemClassWithParents env n c depth) = repeat n k /\
    exists d,
      outcome (parseSystemClassWithParents env n c depth) = Returned d /\
      (k = 0 -> d = c) /\
      (0 < k -> option_map ClassInfo.depth (ClassInfo.parentClass d) = Some k).
Proof.
  intros Hjavap Hext Hgo.
  induction k as [|k IH]; intros depth c Hk; rewrite parseSystemClassWithParents_eq.
  - rewrite (proj2 (Nat.leb_gt depth 10)) by lia.
    split; [reflexivity|]. exists c. split; [reflexivity|]. split; [auto | lia].
  - rewrite (proj2 (Nat.leb_le depth 10)) by lia.
    rewrite Hjavap. cbv zeta. rewrite outcome_emitted, javapCalls_emitted.
    rewrite Hext. cbn [Js.optOrElse]. rewrite orElse_empty, Hgo.
    destruct (IH (depth + 1) (parseJavapOutput stdout n)) as (Hcalls & p' & Hp' & H0 & Hpos);
      [lia|].
    rewrite outcome_bind, javapCalls_bind, Hp', Hcalls, javapCalls_ret, app_nil_r.
    split; [reflexivity|].
    eexists. split; [reflexivity|]. split; [discriminate|]. intros _.
    cbn [ClassInfo.parentClass ClassInfo.setParentClass option_map]. f_equal.
    destruct k as [|k'].
    + rewrite (H0 eq_refl).
      pose proof (javap_descriptor_parentClass stdout n) as Hnone.
      destruct (parseJavapOutput stdout n); cbn in Hnone; subst. reflexivity.
    + specialize (Hpos ltac:(lia)).
      destruct p' as [? ? ? ? ? ? ? ? ? [q|]]; cbn in Hpos |- *; [|discriminate].
      now injection Hpos as ->.
Qed.

(** X9. On a class file that names itself as its superclass the depth limit is
    what ends the helper: started at [depth] it asks [javap] for the same
    name [11 - depth] times and hangs as many descriptors below the one it
    was given. *)
Theorem depth_limit_cuts_a_cycle_after_eleven_calls :
  forall (env : Env) (n stdout : string) (classInfo : ClassInfo.t) (depth : nat),
    javap env n = Some stdout ->
    ClassInfo.extends (parseJavapOutput stdout n) = Some n ->
    Js.truthy n = true ->
    n <> "java.lang.Object" ->
    depth <= 10 ->
    javapCalls (parseSystemClassWithParents env n classInfo depth)
      = repeat n (11 - depth) /\
    exists d,
      outcome (parseSystemClassWithParents env n classInfo depth) = Returned d /\
      option_map ClassInfo.depth (ClassInfo.parentClass d) = Some (11 - depth).
Proof.
  intros env n stdout c depth Hjavap Hext Htruthy Hobj Hdepth.
  assert (Hgo : loopGoesOn n = true).
  { unfold loopGoesOn. rewrite Htruthy. cbn [andb].
    now destruct (String.eqb_spec n "java.lang.Object"). }
  destruct (parseSystemClassWithParents_cycle env n stdout (11 - depth)
              Hjavap Hext Hgo depth c eq_refl) as (Hcalls & d & Hd & _ & Hpos).
  split; [exact Hcalls|]. exists d. split; [exact Hd|]. apply Hpos. lia.
Qed.

(** The cycle of one class, from depth 0: eleven calls. *)
Lemma depth_limit_cuts_a_cycle_after_eleven_calls_witness :
  javapCalls (parseSystemClassWithParents Examples.selfReferential "Loop"
                (ParsedClass.toClassInfo (Examples.emptyClass "A" (Some "Loop"))) 0)
    = repeat "Loop" 11 /\
  exists d,
    outcome (parseSystemClassWithParents Examples.selfReferential "Loop"
               (ParsedClass.toClassInfo (Examples.emptyClass "A" (Some "Loop"))) 0)
      = Returned d /\
    option_map ClassInfo.depth (ClassInfo.parentClass d) = Some 11.
Proof.
  apply (depth_limit_cuts_a_cycle_after_eleven_calls Examples.selfReferential "Loop"
           (Examples.javapText "Loop" (Some "Loop")) _ 0).
  - reflexivity.
  - vm_compute. reflexivity.
  - reflexivity.
  - discriminate.
  - lia.
Defined.

(** ** The fallback on any descriptor *)

Lemma outcome_walkParents (env : Env) (fuel : nat) (n : string) (e : Error) :
  outcome (walkParents env fuel n) <> Thrown e.
Proof.
  revert n. induction fuel as [|fuel IH]; intros n; rewrite walkParents_eq;
    destruct (loopGoesOn n); try discriminate.
  destruct (javap env n) as [stdout|]; [|discriminate].
  cbv zeta. rewrite outcome_emitted, outcome_bind.
  specialize (IH (Js.optOrElse (ClassInfo.extends (parseJavapOutput stdout n)) "")).
  destruct (outcome (walkParents env fuel _)); [discriminate | exact IH | discriminate].
Qed.

Lemma outcome_walkStep (env : Env) (fuel : nat) (c : ClassInfo.t) (e : Error) :
  outcome (walkStep env fuel c) <> Thrown e.
Proof.
  unfold walkStep. destruct (ClassInfo.parentClass c) as [parent|]; [|discriminate].
  destruct (Js.truthyOpt _); [|discriminate].
  rewrite outcome_bind.
  pose proof (outcome_walkParents env fuel
                (Js.optOrElse (ClassInfo.extends parent) "") e) as H.
  destruct (outcome (walkParents env fuel _));
    [discriminate | intros [= ->]; now apply H | discriminate].
Qed.

(** A failed attempt leaves the descriptor alone and records the failure. *)
Lemma attempt_not_found (env : Env) (className : string) (rewrite : bool)
    (st : Fallback) :
  exists st',
    attempt env className rewrite st = (Returned st', [EvJavap className]) /\
    (found st' = false ->
       found st = false /\ classInfo st' = classInfo st /\
       error st' = Some (JavapFailure className) /\ javap env className = None).
Proof.
  rewrite attempt_eq. eexists. split; [reflexivity|].
  destruct (javap env className); cbn [found classInfo error]; [discriminate|].
  auto.
Qed.

(** The loop over [commonPackages] when nothing resolves: the descriptor is
    untouched and [error] is the failure of the last name tried. *)
Lemma packagesLoop_not_found (env : Env) (simpleClassName : string)
    (pkgs : list string) :
  forall st,
    exists st' evs,
      packagesLoop env simpleClassName pkgs st = (Returned st', evs) /\
      length evs <= length pkgs /\
      Forall JavapOnly evs /\
      (found st = false -> found st' = false ->
         classInfo st' = classInfo st /\
         forall pkg, last pkgs = Some pkg -> Js.truthy pkg = true ->
           error st' = Some (JavapFailure (pkg +:+ simpleClassName)) /\
           javap env (pkg +:+ simpleClassName) = None).
Proof.
  induction pkgs as [|pkg rest IH]; intros st.
  - exists st, []. split; [reflexivity|]. split; [cbn; lia|]. split; [constructor|].
    intros _ _. split; [reflexivity|]. intros pkg [=].
  - cbn [packagesLoop].
    destruct (Js.truthyOpt _ && Js.includes _ "." && String.eqb pkg "") eqn:Hskip.
    + destruct (IH st) as (st' & evs & Heq & Hlen & Hev & Hnot).
      exists st', evs. split; [exact Heq|]. split; [cbn; lia|]. split; [exact Hev|].
      intros Hf Hf'. destruct (Hnot Hf Hf') as [Hc Hlast]. split; [exact Hc|].
      intros p Hp Htruthy. apply Hlast; [|exact Htruthy].
      destruct rest as [|pkg' rest'].
      * cbn in Hp. injection Hp as <-.
        apply andb_true_iff in Hskip as [_ Hempty].
        apply String.eqb_eq in Hempty. now subst pkg.
      * exact Hp.
    + cbv zeta.
      destruct (attempt_not_found env
                  (if Js.truthy pkg then pkg +:+ simpleClassName
                   else Js.optOrElse (ClassInfo.extends (classInfo st)) "")
                  true st) as (st1 & Heq1 & Hnot1).
      rewrite Heq1, bind_returned.
      destruct (found st1) eqn:Hf1.
      * exists st1, [EvJavap (if Js.truthy pkg then pkg +:+ simpleClassName
                              else Js.optOrElse (ClassInfo.extends (classInfo st)) "")].
        split; [reflexivity|]. split; [cbn; lia|].
        split; [repeat constructor|]. intros _ Hf'. congruence.
      * destruct (Hnot1 eq_refl) as (Hf & Hc1 & He1 & Hj1).
        destruct (IH st1) as (st' & evs & Heq & Hlen & Hev & Hnot).
        rewrite Heq. cbn [outcome events fst snd].
        eexists st', _. split; [reflexivity|].
        split; [cbn [length app]; lia|].
        split; [constructor; [reflexivity | exact Hev]|].
        intros _ Hf'. destruct (Hnot Hf1 Hf') as [Hc Hlast].
        split; [congruence|].
        intros p Hp Htruthy.
        destruct rest as [|pkg' rest'].
        -- cbn in Hp. injection Hp as <-. rewrite Htruthy in He1, Hj1.
           cbn [packagesLoop] in Heq. injection Heq as <- <-. now split.
        -- now apply Hlast.
Qed.

Lemma appletStep_result (env : Env) (st : Fallback) :
  exists st' evs,
    appletStep env st = (Returned st', evs) /\
    length evs <= 1 /\ Forall JavapOnly evs /\
    (ClassInfo.extends (classInfo st) <> Some "Applet" -> evs = []) /\
    (found st' = false -> found st = false /\ classInfo st' = classInfo st).
Proof.
  unfold appletStep.
  destruct (ClassInfo.extends (classInfo st)) as [ext|] eqn:Hext.
  - destruct (String.eqb_spec ext "Applet") as [->|Hne].
    + destruct (attempt_not_found env "java.applet.Applet" true st)
        as (st' & Heq & Hnot).
      exists st', [EvJavap "java.applet.Applet"]. split; [exact Heq|].
      split; [cbn; lia|]. split; [repeat constructor|]. split; [congruence|].
      intros Hf. destruct (Hnot Hf) as (? & ? & _). now split.
    + exists st, []. split; [reflexivity|]. split; [cbn; lia|].
      split; [constructor|]. now split.
  - exists st, []. split; [reflexivity|]. split; [cbn; lia|].
    split; [constructor|]. now split.
Qed.

Lemma directStep_result (env : Env) (fullClassName : string) (st : Fallback) :
  exists st' evs,
    directStep env fullClassName st = (Returned st', evs) /\
    length evs <= 1 /\ Forall JavapOnly evs /\
    (Js.includes fullClassName "." = false -> evs = []) /\
    (found st' = false -> found st = false /\ classInfo st' = classInfo st).
Proof.
  unfold directStep. destruct (Js.includes fullClassName ".").
  - destruct (attempt_not_found env fullClassName false st) as (st' & Heq & Hnot).
    exists st', [EvJavap fullClassName]. split; [exact Heq|].
    split; [cbn; lia|]. split; [repeat constructor|]. split; [discriminate|].
    intros Hf. destruct (Hnot Hf) as (? & ? & _). now split.
  - exists st, []. split; [reflexivity|]. split; [cbn; lia|].
    split; [constructor|]. now split.
Qed.

Lemma javapCalls_length {A} (m : M A) :
  length (javapCalls m) <= length (events m).
Proof.
  unfold javapCalls. induction (events m) as [|ev l IH]; [reflexivity|].
  cbn [flat_map]. rewrite length_app. destruct ev; cbn [length]; lia.
Qed.

Lemma systemFallback_result (env : Env) (c : ClassInfo.t) :
  exists st,
    outcome (systemFallback env c) = Returned st /\
    length (events (systemFallback env c)) <= 16 /\
    (ClassInfo.packageName c = None ->
     length (events (systemFallback env c)) <= 15) /\
    (found st = false ->
       classInfo st = c /\
       error st = Some (JavapFailure (lastResort c)) /\
       javap env (lastResort c) = None).
Proof.
  unfold systemFallback. cbv zeta.
  destruct (appletStep_result env {| classInfo := c; found := false; error := None |})
    as (st1 & evs1 & Heq1 & Hlen1 & _ & Hnone1 & Hnot1).
  cbn [classInfo found] in Hnone1, Hnot1.
  destruct (directStep_result env (fullClassNameOf c) st1)
    as (st2 & evs2 & Heq2 & Hlen2 & _ & Hnone2 & Hnot2).
  rewrite Heq1, bind_returned, Heq2, bind_returned.
  cbn [outcome events fst snd].
  assert (Hshort : ClassInfo.packageName c = None -> length evs1 + length evs2 <= 1).
  { intros Hpkg.
    destruct (decide (ClassInfo.extends c = Some "Applet")) as [Happlet|Hother].
    - rewrite Hnone2; [cbn; lia|]. unfold fullClassNameOf.
      now rewrite Hpkg, Happlet.
    - rewrite (Hnone1 Hother). cbn. lia. }
  destruct (found st2) eqn:Hf2; cbn [negb].
  - exists st2. split; [reflexivity|]. cbn [ret events snd].
    rewrite !length_app. cbn [length].
    split; [lia|]. split; [intros Hpkg; specialize (Hshort Hpkg); lia|].
    intros Hf. congruence.
  - destruct (Hnot2 eq_refl) as [Hf1 Hc2]. destruct (Hnot1 Hf1) as [_ Hc1].
    destruct (packagesLoop_not_found env
                (simpleClassNameOf (ClassInfo.extends (classInfo st2)))
                commonPackages st2) as (st' & evs & Heq & Hlen & _ & Hnot).
    rewrite Heq. cbn [outcome events fst snd].
    exists st'. split; [reflexivity|].
    rewrite !length_app. cbn [commonPackages length] in Hlen.
    split; [lia|]. split; [intros Hpkg; specialize (Hshort Hpkg); lia|].
    intros Hf'. destruct (Hnot Hf2 Hf') as [Hc Hlast].
    split; [congruence|].
    destruct (Hlast "java.time." eq_refl eq_refl) as [He Hj].
    rewrite Hc2, Hc1 in He, Hj. now split.
Qed.

(** X10. When the fallback finds no class, the error raised inside [parse] is the
    failure of the last [javap] call, the one for the simple name under
    [java.time.]: the loop over [commonPackages] always runs to that name
    and records its failure, so the error [Could not find class ...] of line
    159 is never created. *)
Theorem fallback_error_is_the_last_attempt :
  forall (env : Env) (fuel : nat) (c : ClassInfo.t) (e : Error),
    outcome (resolveSystemParent env fuel c) = Thrown e ->
    e = JavapFailure (lastResort c) /\ javap env (lastResort c) = None.
Proof.
  intros env fuel c e. unfold resolveSystemParent. rewrite outcome_bind.
  destruct (systemFallback_result env c) as (st & Hst & _ & _ & Hnot).
  rewrite Hst. destruct (found st) eqn:Hf; cbn [negb].
  - intros H. now apply outcome_walkStep in H.
  - destruct (Hnot eq_refl) as (_ & He & Hj). rewrite He.
    cbn [outcome throw fst]. intros [= <-]. now split.
Qed.

(** [class A extends Missing {}] where [javap] finds nothing: the error is
    the failure for [java.time.Missing]. *)
Lemma fallback_error_is_the_last_attempt_witness :
  JavapFailure "java.time.Missing" =
    JavapFailure
      (lastResort (ParsedClass.toClassInfo (Examples.emptyClass "A" (Some "Missing")))) /\
  javap Examples.unresolved
    (lastResort (ParsedClass.toClassInfo (Examples.emptyClass "A" (Some "Missing"))))
    = None.
Proof.
  exact (fallback_error_is_the_last_attempt Examples.unresolved 0
           (ParsedClass.toClassInfo (Examples.emptyClass "A" (Some "Missing")))
           (JavapFailure "java.time.Missing") eq_refl).
Defined.

(** X11. The fallback always comes to an end with at most sixteen [javap] calls
    and no other external call, fifteen for a descriptor without package
    name; both numbers are reached for a class that extends [Applet] when
    [javap] finds nothing. *)
Theorem fallback_makes_at_most_sixteen_calls :
  (forall (env : Env) (c : ClassInfo.t),
      (exists st, outcome (systemFallback env c) = Returned st) /\
      Calls JavapOnly (systemFallback env c) /\
      length (javapCalls (systemFallback env c)) <= 16 /\
      (ClassInfo.packageName c = None ->
       length (javapCalls (systemFallback env c)) <= 15)) /\
  length (javapCalls (systemFallback Examples.unresolved packagedApplet)) = 16 /\
  length (javapCalls
            (systemFallback Examples.unresolved
               (ParsedClass.toClassInfo (Examples.emptyClass "A" (Some "Applet")))))
    = 15.
Proof.
  split; [|split; vm_compute; reflexivity].
  intros env c.
  destruct (systemFallback_result env c) as (st & Hst & Hlen & Hshort & _).
  pose proof (javapCalls_length (systemFallback env c)) as Hcalls.
  split; [now exists st|]. split; [apply Calls_systemFallback|].
  split; [lia|]. intros Hpkg. specialize (Hshort Hpkg). lia.
Qed.

(** ** Ancestors found in the project *)

Lemma parseClass_eq (env : Env) (sourceCode : string) :
  parseClass env sourceCode =
    (match runParser env sourceCode with
     | Some p => Returned (ParsedClass.toClassInfo p)
     | None => Thrown (ParseFailure sourceCode)
     end, [EvParser sourceCode]).
Proof. unfold parseClass. now destruct (runParser env sourceCode). Qed.

Lemma findProjectClass_eq (env : Env) (className : string)
    (packageName : option string) (filePath : string) :
  Js.truthy filePath = true ->
  findProjectClass env className packageName (Some filePath) =
    (Returned (siblingText env filePath className),
     siblingLookup env filePath className).
Proof.
  intros Htruthy. unfold findProjectClass, siblingText, siblingLookup.
  rewrite Htruthy. cbn [negb]. fold (siblingPath env filePath className).
  destruct (existsSync env _); [|reflexivity].
  now destruct (readFileSync env _).
Qed.

Lemma tryCatch_bind_returned {A B} (a : A) (l : list Event) (f : A -> M B)
    (h : Error -> M B) :
  tryCatch (bind (Returned a, l) f) h = bind (Returned a, l) (fun x => tryCatch (f x) h).
Proof.
  cbn [bind]. destruct (f a) as [[b|e|] l']; cbn [tryCatch]; try reflexivity.
  destruct (h e) as [o l'']. now rewrite app_assoc.
Qed.

(** [parse] on a file whose ancestor has a source file next to it. *)
Lemma parse_with_sibling (env : Env) (fuel : nat) (javaCode filePath : string)
    (p : ParsedClass.t) (ext : string) :
  Js.truthy filePath = true ->
  runParser env javaCode = Some p ->
  ParsedClass.extends p = Some ext ->
  Js.truthy ext = true ->
  let root := rootDescriptor p (Some filePath) in
  parse env fuel javaCode (Some filePath) =
    bind (Returned tt, EvParser javaCode :: siblingLookup env filePath ext)
      (fun _ =>
         tryCatch
           (if Js.truthyOpt (siblingText env filePath ext) then
              match fuel with
              | O => timeout
              | S fuel' =>
                  parentClassInfo <-
                    parse env fuel' (Js.optOrElse (siblingText env filePath ext) "")
                      (Some (siblingPath env filePath ext)) ;;
                  ret (ClassInfo.setParentClass (Some parentClassInfo) root)
              end
            else tryCatch (resolveSystemParent env fuel root) (fun _ => ret root))
           (fun _ => ret root)).
Proof.
  intros Hpath Hp Hext Htruthy root.
  assert (Hrext : ClassInfo.extends root = Some ext).
  { subst root. now rewrite rootDescriptor_extends. }
  rewrite parse_eq, parseClass_eq, Hp, !bind_returned.
  change (if Js.truthyOpt (Some filePath)
          then ClassInfo.setFilePath (Some filePath) (ParsedClass.toClassInfo p)
          else ParsedClass.toClassInfo p) with root.
  cbv zeta. rewrite Hrext. cbn [Js.truthyOpt Js.optOrElse]. unfold Js.orElse.
  rewrite Htruthy, Hpath.
  rewrite (findProjectClass_eq env ext _ filePath Hpath), tryCatch_bind_returned.
  rewrite bind_returned. cbn [outcome events fst snd app].
  fold (siblingPath env filePath ext). reflexivity.
Qed.

Lemma bind_assoc {A B C} (m : M A) (f : A -> M B) (g : B -> M C) :
  bind (bind m f) g = bind m (fun x => bind (f x) g).
Proof.
  destruct m as [[a|e|] l]; cbn [bind]; try reflexivity.
  destruct (f a) as [[b|e|] l']; cbn [bind]; try reflexivity.
  destruct (g b) as [o l'']. now rewrite app_assoc.
Qed.

Lemma bind_mapM {A B C} (f : A -> B) (m : M A) (k : B -> M C) :
  bind (mapM f m) k = bind m (fun x => k (f x)).
Proof.
  unfold mapM. rewrite bind_assoc. apply bind_ext. intros x. apply bind_ret_l.
Qed.

Lemma mapM_bind {A B C} (f : B -> C) (m : M A) (k : A -> M B) :
  mapM f (bind m k) = bind m (fun x => mapM f (k x)).
Proof. unfold mapM. apply bind_assoc. Qed.

Lemma mapM_returned {A B} (f : A -> B) (a : A) (l : list Event) :
  mapM f (Returned a, l) = (Returned (f a), l).
Proof. unfold mapM. cbn. now rewrite app_nil_r. Qed.

Lemma mapM_tryCatch {A B} (f : A -> B) (m : M A) (a : A) :
  tryCatch (mapM f m) (fun _ => ret (f a)) = mapM f (tryCatch m (fun _ => ret a)).
Proof.
  destruct m as [[x|e|] l]; unfold mapM; cbn; rewrite ?app_nil_r; reflexivity.
Qed.

Lemma outcome_mapM {A B} (f : A -> B) (m : M A) :
  outcome (mapM f m) =
    match outcome m with
    | Returned a => Returned (f a)
    | Thrown e => Thrown e
    | Timeout => Timeout
    end.
Proof. unfold mapM. rewrite outcome_bind. now destruct (outcome m). Qed.

Lemma events_mapM {A B} (f : A -> B) (m : M A) : events (mapM f m) = events m.
Proof.
  unfold mapM. rewrite events_bind. destruct (outcome m); cbn; now rewrite ?app_nil_r.
Qed.

Section FilePath.

Variable env : Env.
Variable filePath : option string.

Lemma attempt_withFilePath (className : string) (rewrite : bool) (st : Fallback) :
  attempt env className rewrite (withFilePath filePath st) =
    mapM (withFilePath filePath) (attempt env className rewrite st).
Proof.
  rewrite !attempt_eq, mapM_returned.
  destruct (javap env className); destruct rewrite; reflexivity.
Qed.

Lemma packagesLoop_withFilePath (simpleClassName : string) (pkgs : list string) :
  forall st,
    packagesLoop env simpleClassName pkgs (withFilePath filePath st) =
      mapM (withFilePath filePath) (packagesLoop env simpleClassName pkgs st).
Proof.
  induction pkgs as [|pkg rest IH]; intros st; cbn [packagesLoop].
  - reflexivity.
  - change (ClassInfo.extends (classInfo (withFilePath filePath st)))
      with (ClassInfo.extends (classInfo st)).
    destruct (_ && _ && _); [apply IH|].
    cbv zeta. rewrite attempt_withFilePath, bind_mapM, mapM_bind.
    apply bind_ext. intros st'.
    change (found (withFilePath filePath st')) with (found st').
    destruct (found st'); [reflexivity | apply IH].
Qed.

Lemma systemFallback_setFilePath (c : ClassInfo.t) :
  systemFallback env (ClassInfo.setFilePath filePath c) =
    mapM (withFilePath filePath) (systemFallback env c).
Proof.
  unfold systemFallback. cbv zeta.
  change (fullClassNameOf (ClassInfo.setFilePath filePath c)) with (fullClassNameOf c).
  change {| classInfo := ClassInfo.setFilePath filePath c; found := false; error := None |}
    with (withFilePath filePath {| classInfo := c; found := false; error := None |}).
  assert (Happlet : forall st,
             appletStep env (withFilePath filePath st) =
               mapM (withFilePath filePath) (appletStep env st)).
  { intros st. unfold appletStep.
    change (ClassInfo.extends (classInfo (withFilePath filePath st)))
      with (ClassInfo.extends (classInfo st)).
    destruct (ClassInfo.extends (classInfo st)) as [ext|]; [|reflexivity].
    destruct (String.eqb ext "Applet");
      [apply attempt_withFilePath | reflexivity]. }
  assert (Hdirect : forall name st,
             directStep env name (withFilePath filePath st) =
               mapM (withFilePath filePath) (directStep env name st)).
  { intros name st. unfold directStep.
    destruct (Js.includes name ".");
      [apply attempt_withFilePath | reflexivity]. }
  rewrite Happlet, bind_mapM, mapM_bind. apply bind_ext. intros st1.
  rewrite Hdirect, bind_mapM, mapM_bind. apply bind_ext. intros st2.
  change (found (withFilePath filePath st2)) with (found st2).
  destruct (found st2); cbn [negb]; [reflexivity|].
  apply packagesLoop_withFilePath.
Qed.

Lemma walkStep_setFilePath (fuel : nat) (c : ClassInfo.t) :
  walkStep env fuel (ClassInfo.setFilePath filePath c) =
    mapM (ClassInfo.setFilePath filePath) (walkStep env fuel c).
Proof.
  unfold walkStep.
  change (ClassInfo.parentClass (ClassInfo.setFilePath filePath c))
    with (ClassInfo.parentClass c).
  destruct (ClassInfo.parentClass c) as [parent|]; [|reflexivity].
  destruct (Js.truthyOpt _); [|reflexivity].
  rewrite mapM_bind. apply bind_ext. intros chain. reflexivity.
Qed.

Lemma resolveSystemParent_setFilePath (fuel : nat) (c : ClassInfo.t) :
  resolveSystemParent env fuel (ClassInfo.setFilePath filePath c) =
    mapM (ClassInfo.setFilePath filePath) (resolveSystemParent env fuel c).
Proof.
  unfold resolveSystemParent.
  rewrite systemFallback_setFilePath, bind_mapM, mapM_bind.
  apply bind_ext. intros st.
  change (found (withFilePath filePath st)) with (found st).
  change (error (withFilePath filePath st)) with (error st).
  change (fullClassNameOf (ClassInfo.setFilePath filePath c)) with (fullClassNameOf c).
  destruct (found st); cbn [negb]; [apply walkStep_setFilePath | reflexivity].
Qed.

End FilePath.

(** [parse] on a file whose ancestor has no usable source file next to it. *)
Lemma parse_without_sibling (env : Env) (fuel : nat) (javaCode filePath : string)
    (p : ParsedClass.t) (ext : string) :
  Js.truthy filePath = true ->
  runParser env javaCode = Some p ->
  ParsedClass.extends p = Some ext ->
  Js.truthy ext = true ->
  Js.truthyOpt (siblingText env filePath ext) = false ->
  parse env fuel javaCode (Some filePath) =
    bind (Returned tt, EvParser javaCode :: siblingLookup env filePath ext)
      (fun _ =>
         mapM (ClassInfo.setFilePath (Some filePath))
           (tryCatch (tryCatch (resolveSystemParent env fuel (ParsedClass.toClassInfo p))
                               (fun _ => ret (ParsedClass.toClassInfo p)))
                     (fun _ => ret (ParsedClass.toClassInfo p)))) /\
  parse env fuel javaCode None =
    bind (Returned tt, [EvParser javaCode])
      (fun _ =>
         tryCatch (tryCatch (resolveSystemParent env fuel (ParsedClass.toClassInfo p))
                            (fun _ => ret (ParsedClass.toClassInfo p)))
                  (fun _ => ret (ParsedClass.toClassInfo p))).
Proof.
  intros Hpath Hp Hext Htruthy Hnone. split.
  - rewrite (parse_with_sibling env fuel javaCode filePath p ext Hpath Hp Hext Htruthy).
    cbv zeta. rewrite Hnone. unfold rootDescriptor. cbn [Js.truthyOpt]. rewrite Hpath.
    rewrite resolveSystemParent_setFilePath, !mapM_tryCatch. reflexivity.
  - rewrite parse_without_path, parseClass_eq, Hp, !bind_returned.
    cbn [ParsedClass.toClassInfo ClassInfo.extends]. rewrite Hext.
    cbn [Js.truthyOpt]. now rewrite Htruthy.
Qed.

(** X12. When the ancestor has a non-empty source file next to the file parsed,
    that file is what [parse] resolves it from: [javap] is asked nothing
    about the ancestor itself (the only [javap] calls are those of the
    parse of the sibling), [extends] stays as written, the parent is the
    descriptor returned for the sibling, and a sibling that cannot be parsed
    leaves the root descriptor as it is. *)
Theorem project_source_of_ancestor_takes_precedence :
  forall (env : Env) (fuel : nat) (javaCode filePath : string)
         (p : ParsedClass.t) (ext text : string),
    Js.truthy filePath = true ->
    runParser env javaCode = Some p ->
    ParsedClass.extends p = Some ext ->
    Js.truthy ext = true ->
    siblingText env filePath ext = Some text ->
    Js.truthy text = true ->
    let sibling := siblingPath env filePath ext in
    let root := rootDescriptor p (Some filePath) in
    outcome (parse env (S fuel) javaCode (Some filePath)) =
      match outcome (parse env fuel text (Some sibling)) with
      | Returned parent => Returned (ClassInfo.setParentClass (Some parent) root)
      | Thrown _ => Returned root
      | Timeout => Timeout
      end /\
    javapCalls (parse env (S fuel) javaCode (Some filePath)) =
      javapCalls (parse env fuel text (Some sibling)) /\
    events (parse env (S fuel) javaCode (Some filePath)) =
      [EvParser javaCode; EvExists sibling; EvRead sibling] ++
      events (parse env fuel text (Some sibling)).
Proof.
  intros env fuel javaCode filePath p ext text
    Hpath Hp Hext Htruthy Htext Hnonempty sibling root.
  rewrite (parse_with_sibling env (S fuel) javaCode filePath p ext Hpath Hp Hext Htruthy).
  cbv zeta. fold root. rewrite Htext. cbn [Js.truthyOpt Js.optOrElse]. unfold Js.orElse.
  rewrite Hnonempty. fold sibling.
  assert (Hlook : siblingLookup env filePath ext = [EvExists sibling; EvRead sibling]).
  { unfold siblingLookup, siblingText in *. fold sibling in Htext |- *.
    now destruct (existsSync env sibling). }
  rewrite Hlook, bind_returned. cbn [outcome events fst snd].
  rewrite outcome_tryCatch, events_tryCatch, outcome_bind, events_bind.
  unfold javapCalls at 1. cbn [events snd app flat_map].
  fold (javapCalls (parse env fuel text (Some sibling))).
  destruct (parse env fuel text (Some sibling)) as [[parent|e|] l];
    cbn [outcome events fst snd ret app]; rewrite ?app_nil_r;
    (split; [reflexivity|]); (split; [|reflexivity]);
    unfold javapCalls; cbn [events snd]; now rewrite ?app_nil_r.
Qed.

(** [/proj/A.java] with [class A extends B {}] next to [/proj/B.java]. *)
Lemma project_source_of_ancestor_takes_precedence_witness :
  outcome (parse Examples.localParent 1 "class A extends B {}" (Some "/proj/A.java")) =
    match outcome (parse Examples.localParent 0 "class B {}" (Some "/proj/B.java")) with
    | Returned parent =>
        Returned (ClassInfo.setParentClass (Some parent)
                    (rootDescriptor (Examples.emptyClass "A" (Some "B"))
                       (Some "/proj/A.java")))
    | Thrown _ =>
        Returned (rootDescriptor (Examples.emptyClass "A" (Some "B")) (Some "/proj/A.java"))
    | Timeout => Timeout
    end /\
  javapCalls (parse Examples.localParent 1 "class A extends B {}" (Some "/proj/A.java")) =
    javapCalls (parse Examples.localParent 0 "class B {}" (Some "/proj/B.java")) /\
  events (parse Examples.localParent 1 "class A extends B {}" (Some "/proj/A.java")) =
    [EvParser "class A extends B {}"; EvExists "/proj/B.java"; EvRead "/proj/B.java"] ++
    events (parse Examples.localParent 0 "class B {}" (Some "/proj/B.java")).
Proof.
  exact (project_source_of_ancestor_takes_precedence Examples.localParent 0
           "class A extends B {}" "/proj/A.java" (Examples.emptyClass "A" (Some "B"))
           "B" "class B {}" eq_refl eq_refl eq_refl eq_refl eq_refl eq_refl).
Defined.

(** X13. A source file next to the file parsed that carries the ancestor's name
    but does not parse ends the resolution: [parse] returns the root
    descriptor without parent and [javap] is not asked, even when it knows
    the class. *)
Theorem unparsable_sibling_suppresses_fallback :
  forall (env : Env) (fuel : nat) (javaCode filePath : string)
         (p : ParsedClass.t) (ext text : string),
    Js.truthy filePath = true ->
    runParser env javaCode = Some p ->
    ParsedClass.extends p = Some ext ->
    Js.truthy ext = true ->
    siblingText env filePath ext = Some text ->
    Js.truthy text = true ->
    runParser env text = None ->
    parse env (S fuel) javaCode (Some filePath) =
      (Returned (rootDescriptor p (Some filePath)),
       [EvParser javaCode; EvExists (siblingPath env filePath ext);
        EvRead (siblingPath env filePath ext); EvParser text]).
Proof.
  intros env fuel javaCode filePath p ext text Hpath Hp Hext Htruthy Htext Hnonempty Hbad.
  rewrite (parse_with_sibling env (S fuel) javaCode filePath p ext Hpath Hp Hext Htruthy).
  cbv zeta. rewrite Htext. cbn [Js.truthyOpt Js.optOrElse]. unfold Js.orElse.
  rewrite Hnonempty, (parse_eq env fuel text), parseClass_eq, Hbad.
  assert (Hlook : siblingLookup env filePath ext =
                  [EvExists (siblingPath env filePath ext);
                   EvRead (siblingPath env filePath ext)]).
  { unfold siblingLookup, siblingText in *.
    now destruct (existsSync env (siblingPath env filePath ext)). }
  rewrite Hlook. reflexivity.
Qed.

(** [/proj/Exception.java] is not Java: [java.lang.Exception] is not looked
    up. *)
Lemma unparsable_sibling_suppresses_fallback_witness :
  parse brokenSibling 1 "class A extends Exception {}" (Some "/proj/A.java") =
    (Returned (rootDescriptor (Examples.emptyClass "A" (Some "Exception"))
                 (Some "/proj/A.java")),
     [EvParser "class A extends Exception {}"; EvExists "/proj/Exception.java";
      EvRead "/proj/Exception.java"; EvParser "not Java"]).
Proof.
  exact (unparsable_sibling_suppresses_fallback brokenSibling 0
           "class A extends Exception {}" "/proj/A.java"
           (Examples.emptyClass "A" (Some "Exception")) "Exception" "not Java"
           eq_refl eq_refl eq_refl eq_refl eq_refl eq_refl eq_refl).
Defined.

Lemma JavapOnly_events {A} (m : M A) :
  Calls JavapOnly m -> map EvJavap (javapCalls m) = events m.
Proof.
  unfold Calls, javapCalls. induction 1 as [|ev l Hev _ IH]; [reflexivity|].
  destruct ev; try discriminate. cbn [flat_map app map]. now rewrite IH.
Qed.

(** X14. When the file that would hold the ancestor does not exist, cannot be
    read or is empty, [parse] with a file path goes on as [parse] without
    one: same outcome except that the descriptor carries the file path, same
    [javap] calls, and one or two filesystem calls after the parser call. *)
Theorem missing_sibling_falls_back_to_javap :
  forall (env : Env) (fuel : nat) (javaCode filePath : string)
         (p : ParsedClass.t) (ext : string),
    Js.truthy filePath = true ->
    runParser env javaCode = Some p ->
    ParsedClass.extends p = Some ext ->
    Js.truthy ext = true ->
    Js.truthyOpt (siblingText env filePath ext) = false ->
    outcome (parse env fuel javaCode (Some filePath)) =
      match outcome (parse env fuel javaCode None) with
      | Returned d => Returned (ClassInfo.setFilePath (Some filePath) d)
      | Thrown e => Thrown e
      | Timeout => Timeout
      end /\
    javapCalls (parse env fuel javaCode (Some filePath)) =
      javapCalls (parse env fuel javaCode None) /\
    events (parse env fuel javaCode (Some filePath)) =
      EvParser javaCode :: siblingLookup env filePath ext ++
      map EvJavap (javapCalls (parse env fuel javaCode None)).
Proof.
  intros env fuel javaCode filePath p ext Hpath Hp Hext Htruthy Hnone.
  destruct (parse_without_sibling env fuel javaCode filePath p ext
              Hpath Hp Hext Htruthy Hnone) as [-> ->].
  assert (Hjavap : Calls JavapOnly
            (tryCatch (tryCatch (resolveSystemParent env fuel (ParsedClass.toClassInfo p))
                                (fun _ => ret (ParsedClass.toClassInfo p)))
                      (fun _ => ret (ParsedClass.toClassInfo p)))).
  { apply Calls_tryCatch; [|intros; apply Calls_ret].
    apply Calls_tryCatch; [|intros; apply Calls_ret].
    apply Calls_resolveSystemParent. }
  apply JavapOnly_events in Hjavap. revert Hjavap.
  generalize
    (tryCatch (tryCatch (resolveSystemParent env fuel (ParsedClass.toClassInfo p))
                        (fun _ => ret (ParsedClass.toClassInfo p)))
              (fun _ => ret (ParsedClass.toClassInfo p))).
  intros m Hm.
  rewrite !bind_returned. cbn [outcome events fst snd].
  rewrite outcome_mapM, events_mapM.
  assert (Hlook : flat_map (fun ev => match ev with EvJavap n => [n] | _ => [] end)
                    (siblingLookup env filePath ext) = []).
  { unfold siblingLookup. now destruct (existsSync env _). }
  assert (Hcalls : javapCalls (outcome m, [EvParser javaCode] ++ events m) = javapCalls m).
  { reflexivity. }
  split; [reflexivity|]. rewrite Hcalls. split.
  - unfold javapCalls at 1. cbn [events snd app flat_map].
    now rewrite flat_map_app, Hlook.
  - now rewrite Hm.
Qed.

(** [class A extends Exception {}] in [/proj/A.java] next to an empty
    [/proj/Exception.java]. *)
Lemma missing_sibling_falls_back_to_javap_witness :
  outcome (parse emptySibling 2 "class A extends Exception {}"
             (Some "/proj/A.java")) =
    match outcome (parse emptySibling 2 "class A extends Exception {}" None) with
    | Returned d => Returned (ClassInfo.setFilePath (Some "/proj/A.java") d)
    | Thrown e => Thrown e
    | Timeout => Timeout
    end /\
  javapCalls (parse emptySibling 2 "class A extends Exception {}"
                (Some "/proj/A.java")) =
    javapCalls (parse emptySibling 2 "class A extends Exception {}" None) /\
  events (parse emptySibling 2 "class A extends Exception {}"
            (Some "/proj/A.java")) =
    EvParser "class A extends Exception {}" ::
    siblingLookup emptySibling "/proj/A.java" "Exception" ++
    map EvJavap
      (javapCalls (parse emptySibling 2 "class A extends Exception {}" None)).
Proof.
  exact (missing_sibling_falls_back_to_javap emptySibling 2
           "class A extends Exception {}" "/proj/A.java"
           (Examples.emptyClass "A" (Some "Exception")) "Exception"
           eq_refl eq_refl eq_refl eq_refl eq_refl).
Defined.

(** ** What the regular expressions match *)

Lemma length_append (a b : string) :
  String.length (a +:+ b) = String.length a + String.length b.
Proof. induction a as [|x a IH]; [reflexivity|]. rewrite append_cons. cbn. now rewrite IH. Qed.

Lemma substring_append (a b : string) :
  String.substring 0 (String.length a) (a +:+ b) = a.
Proof.
  induction a as [|x a IH]; [now destruct b|].
  rewrite append_cons. cbn. now rewrite IH.
Qed.

Lemma substring_whole (s : string) : String.substring 0 (String.length s) s = s.
Proof. induction s as [|x s IH]; [reflexivity|]. cbn. now rewrite IH. Qed.

Lemma consumed_append (w rest : string) : Re.consumed (w +:+ rest) rest = w.
Proof.
  unfold Re.consumed. rewrite length_append.
  replace (String.length w + String.length rest - String.length rest)
    with (String.length w) by lia.
  apply substring_append.
Qed.

Lemma prefix_append (l s : string) :
  String.prefix l s = true -> s = l +:+ Re.dropPrefix l s.
Proof.
  intros H. apply prefix_correct in H. unfold Re.dropPrefix.
  revert s H. induction l as [|x l IH]; intros s H.
  - cbn. rewrite Nat.sub_0_r. now rewrite substring_whole.
  - destruct s as [|y s]; [discriminate|].
    cbn in H. injection H as -> H. rewrite append_cons. f_equal.
    cbn [String.length Nat.sub String.substring]. now apply IH.
Qed.

(** The matcher is sound: when [run r s k c] succeeds, [r] matches a prefix
    of [s] and the continuation succeeded on the rest. *)
Lemma run_sound (r : Re.t) :
  forall (s : string) (k : string -> Re.Caps -> option Re.Caps) (c res : Re.Caps),
    Re.run r s k c = Some res ->
    exists w rest caps,
      s = w +:+ rest /\ Matches r w caps /\ k rest (c ++ caps) = Some res.
Proof.
  induction r as [p | l | a IHa b IHb | a IHa b IHb | a IHa | a IHa];
    intros s k c res; cbn [Re.run].
  - destruct s as [|x rest]; [discriminate|].
    destruct (p x) eqn:Hp; [|discriminate]. intros Hk.
    exists (String x ""), rest, []. rewrite app_nil_r.
    split; [reflexivity|]. split; [now constructor | exact Hk].
  - destruct (String.prefix l s) eqn:Hl; [|discriminate]. intros Hk.
    exists l, (Re.dropPrefix l s), []. rewrite app_nil_r.
    split; [now apply prefix_append|]. split; [constructor | exact Hk].
  - intros H. apply IHa in H as (wa & rest1 & ca & -> & Ha & H).
    apply IHb in H as (wb & rest & cb & -> & Hb & H).
    exists (wa +:+ wb), rest, (ca ++ cb).
    split; [now rewrite append_assoc|].
    split; [now constructor|]. now rewrite app_assoc.
  - destruct (Re.run a s k c) as [r|] eqn:Ha.
    + intros [= ->]. apply IHa in Ha as (w & rest & caps & -> & Hm & H).
      exists w, rest, caps. split; [reflexivity|]. split; [now apply Matches_AltL | exact H].
    + intros Hb. apply IHb in Hb as (w & rest & caps & -> & Hm & H).
      exists w, rest, caps. split; [reflexivity|]. split; [now apply Matches_AltR | exact H].
  - generalize (String.length s) at 1. intros n. revert s c.
    induction n as [|n IHn]; intros s c.
    + intros Hk. exists "", s, []. rewrite app_nil_r.
      split; [reflexivity|]. split; [constructor | exact Hk].
    + match goal with
      | |- context [Re.run a s ?k' c] => destruct (Re.run a s k' c) as [r|] eqn:Ha
      end.
      * intros [= ->]. apply IHa in Ha as (w1 & rest1 & c1 & -> & Hm1 & H).
        destruct (Nat.ltb _ _); [|discriminate].
        apply IHn in H as (w2 & rest & c2 & -> & Hm2 & H).
        exists (w1 +:+ w2), rest, (c1 ++ c2).
        split; [now rewrite append_assoc|].
        split; [now constructor|]. now rewrite app_assoc.
      * intros Hk. exists "", s, []. rewrite app_nil_r.
        split; [reflexivity|]. split; [constructor | exact Hk].
  - intros H. apply IHa in H as (w & rest & caps & -> & Hm & H).
    rewrite consumed_append in H.
    exists w, rest, (caps ++ [w]).
    split; [reflexivity|]. split; [now constructor|]. now rewrite app_assoc.
Qed.

Lemma matchStart_sound (r : Re.t) (s : string) (caps : Re.Caps) :
  Re.matchStart r s = Some caps -> exists w rest, s = w +:+ rest /\ Matches r w caps.
Proof.
  unfold Re.matchStart. intros H.
  apply run_sound in H as (w & rest & caps' & -> & Hm & [= <-]).
  now exists w, rest.
Qed.

Lemma search_sound (r : Re.t) (s : string) (caps : Re.Caps) :
  Re.search r s = Some caps ->
  exists before w rest, s = before +:+ w +:+ rest /\ Matches r w caps.
Proof.
  induction s as [|x s IH]; cbn [Re.search].
  - destruct (Re.matchStart r "") as [c|] eqn:Hm; [|discriminate].
    intros [= ->]. apply matchStart_sound in Hm as (w & rest & Hs & Hm).
    now exists "", w, rest.
  - destruct (Re.matchStart r (String x s)) as [c|] eqn:Hm.
    + intros [= ->]. apply matchStart_sound in Hm as (w & rest & Hs & Hm).
      now exists "", w, rest.
    + intros H. apply IH in H as (before & w & rest & -> & Hw).
      now exists (String x before), w, rest.
Qed.

Lemma Matches_groupFree (r : Re.t) (w : string) (caps : Re.Caps) :
  Matches r w caps -> groupFree r = true -> caps = [].
Proof.
  induction 1 as [ | | a b wa wb ca cb _ IHa _ IHb | a b w c _ IH | a b w c _ IH
                  | | a w1 w2 c1 c2 _ IH1 _ IH2 | a w c _ IH ];
    cbn [groupFree]; intros Hg; try reflexivity; try discriminate.
  - apply andb_true_iff in Hg as [Ha Hb]. now rewrite (IHa Ha), (IHb Hb).
  - apply andb_true_iff in Hg as [Ha _]. auto.
  - apply andb_true_iff in Hg as [_ Hb]. auto.
  - now rewrite (IH1 Hg), (IH2 Hg).
Qed.

Lemma allChars_append (p : ascii -> bool) (a b : string) :
  allChars p (a +:+ b) = allChars p a && allChars p b.
Proof.
  unfold allChars. induction a as [|x a IH]; [reflexivity|].
  rewrite append_cons. cbn. rewrite IH. now rewrite andb_assoc.
Qed.

Lemma Matches_Star_Cls (p : ascii -> bool) (w : string) (caps : Re.Caps) :
  Matches (Re.Star (Re.Cls p)) w caps -> allChars p w = true.
Proof.
  remember (Re.Star (Re.Cls p)) as r eqn:Hr. intros H. revert Hr.
  induction H as [ | | | | | | a w1 w2 c1 c2 H1 _ _ IH2 | ]; intros Hr;
    try discriminate; [reflexivity|].
  injection Hr as ->. rewrite allChars_append, (IH2 eq_refl), andb_true_r.
  inversion H1; subst. unfold allChars. cbn. now rewrite andb_true_r.
Qed.

(** [(p+)] captures a non-empty text of characters of [p]. *)
Lemma Matches_Grp_Plus_Cls (p : ascii -> bool) (w : string) (caps : Re.Caps) :
  Matches (Re.Grp (Re.Plus (Re.Cls p))) w caps -> caps = [w] /\ textOf p w.
Proof.
  intros H. inversion H as [ | | | | | | | a w' c Hplus ]; subst.
  unfold Re.Plus in Hplus.
  inversion Hplus as [ | | a b wa wb ca cb Ha Hb | | | | | ]; subst.
  inversion Ha; subst. apply Matches_Star_Cls in Hb as Hall.
  apply Matches_groupFree in Hb; [|reflexivity]. subst cb.
  split; [reflexivity|]. split; [rewrite append_cons; discriminate|].
  rewrite allChars_append, Hall, andb_true_r. unfold allChars. cbn.
  now rewrite andb_true_r.
Qed.

Lemma Matches_Seq_inv (a b : Re.t) (w : string) (caps : Re.Caps) :
  Matches (Re.Seq a b) w caps ->
  exists wa wb ca cb, Matches a wa ca /\ Matches b wb cb /\ caps = ca ++ cb.
Proof. intros H. inversion H; subst. eauto 8. Qed.

(** The two groups of the class-declaration expression. *)
Lemma classDeclRe_captures (w : string) (caps : Re.Caps) :
  Matches classDeclRe w caps ->
  exists name ext, caps = [name; ext] /\ textOf identChar name /\ textOf identChar ext.
Proof.
  unfold classDeclRe. cbv zeta. intros H.
  apply Matches_Seq_inv in H as (w1 & r1 & c1 & d1 & H1 & H & ->).
  apply Matches_groupFree in H1; [|reflexivity]. subst c1.
  apply Matches_Seq_inv in H as (w2 & r2 & c2 & d2 & H2 & H & ->).
  apply Matches_groupFree in H2; [|reflexivity]. subst c2.
  apply Matches_Seq_inv in H as (w3 & r3 & c3 & d3 & H3 & H & ->).
  apply Matches_groupFree in H3; [|reflexivity]. subst c3.
  apply Matches_Seq_inv in H as (name & r4 & c4 & d4 & H4 & H & ->).
  apply Matches_Grp_Plus_Cls in H4 as [-> Hname].
  apply Matches_Seq_inv in H as (w5 & r5 & c5 & d5 & H5 & H & ->).
  apply Matches_groupFree in H5; [|reflexivity]. subst c5.
  apply Matches_Seq_inv in H as (w6 & r6 & c6 & d6 & H6 & H & ->).
  apply Matches_groupFree in H6; [|reflexivity]. subst c6.
  apply Matches_Seq_inv in H as (w7 & ext & c7 & d7 & H7 & H & ->).
  apply Matches_groupFree in H7; [|reflexivity]. subst c7.
  apply Matches_Grp_Plus_Cls in H as [-> Hext].
  now exists name, ext.
Qed.

(** The two groups of the field expression. *)
Lemma fieldRe_captures (w : string) (caps : Re.Caps) :
  Matches fieldRe w caps ->
  exists type name, caps = [type; name] /\ textOf typeChar type /\ textOf Re.word name.
Proof.
  unfold fieldRe. intros H.
  apply Matches_Seq_inv in H as (w1 & r1 & c1 & d1 & H1 & H & ->).
  apply Matches_groupFree in H1; [|reflexivity]. subst c1.
  apply Matches_Seq_inv in H as (w2 & r2 & c2 & d2 & H2 & H & ->).
  apply Matches_groupFree in H2; [|reflexivity]. subst c2.
  apply Matches_Seq_inv in H as (w3 & r3 & c3 & d3 & H3 & H & ->).
  apply Matches_groupFree in H3; [|reflexivity]. subst c3.
  apply Matches_Seq_inv in H as (type & r4 & c4 & d4 & H4 & H & ->).
  apply Matches_Grp_Plus_Cls in H4 as [-> Htype].
  apply Matches_Seq_inv in H as (w5 & name & c5 & d5 & H5 & H & ->).
  apply Matches_groupFree in H5; [|reflexivity]. subst c5.
  apply Matches_Grp_Plus_Cls in H as [-> Hname].
  now exists type, name.
Qed.

(** ** Invariants of the descriptor built from [javap] text *)

(** A property of the initial descriptor that the three assignments of
    [parseJavapOutput] keep holds for the descriptor returned. *)
Lemma parseJavapOutput_invariant (P : ClassInfo.t -> Prop) :
  (forall c line name ext,
      P c -> Re.search classDeclRe line = Some [name; ext] ->
      P (ClassInfo.setExtends (Some ext)
           (ClassInfo.setModifiers
              (filterBoolean (Js.split (Js.trim (nth 0 (Js.split line "class") "")) " "))
              c))) ->
  (forall c line,
      P c -> Js.truthy (MethodInfo.name (parseJavapMethod line)) = true ->
      P (ClassInfo.pushMethod (parseJavapMethod line) c)) ->
  (forall c line,
      P c -> Js.truthy (FieldInfo.name (parseJavapField line)) = true ->
      P (ClassInfo.pushField (parseJavapField line) c)) ->
  forall output fullClassName,
    P (ClassInfo.mk (Js.optOrElse (Js.pop (Js.split fullClassName ".")) "")
         [] [] [] [] None None (Some (Js.beforeLastDot fullClassName)) None None) ->
    P (parseJavapOutput output fullClassName).
Proof.
  intros Hclass Hmethod Hfield output fullClassName. unfold parseJavapOutput. cbv zeta.
  generalize (Js.startsWith fullClassName "java." || Js.startsWith fullClassName "javax.").
  intros sys.
  generalize (ClassInfo.mk (Js.optOrElse (Js.pop (Js.split fullClassName ".")) "")
                [] [] [] [] None None (Some (Js.beforeLastDot fullClassName)) None None).
  generalize false. generalize (Js.split output newline).
  intros lines. induction lines as [|rawLine lines IH]; intros b c Hc; [exact Hc|].
  cbn [fold_left].
  destruct (parseJavapLine sys (c, b) rawLine) as [c' b'] eqn:Hline.
  apply IH. unfold parseJavapLine in Hline.
  destruct (negb (Js.truthy (Js.trim rawLine)) || _); [now injection Hline as <- _|].
  destruct (b && _); [now injection Hline as <- _|].
  destruct (Js.includes (Js.trim rawLine) "class").
  { destruct (Re.search classDeclRe (Js.trim rawLine))
      as [[|g1 [|g2 [|g3 rest]]]|] eqn:Hre; try (now injection Hline as <- _).
    injection Hline as <- _. now apply (Hclass c (Js.trim rawLine) g1 g2). }
  destruct sys; [now injection Hline as <- _|].
  destruct (_ || _ || _ || _); [|now injection Hline as <- _].
  destruct (Js.includes (Js.trim rawLine) "(").
  - destruct (Js.truthy _) eqn:Hname; [|now injection Hline as <- _].
    injection Hline as <- _. now apply Hmethod.
  - destruct (Js.truthy _) eqn:Hname; [|now injection Hline as <- _].
    injection Hline as <- _. now apply Hfield.
Qed.

Lemma allChars_no_dot (p : ascii -> bool) (s : string) :
  p "."%char = false -> allChars p s = true -> Js.includes s "." = false.
Proof.
  intros Hp. unfold allChars. induction s as [|x s IH]; [reflexivity|].
  cbn [list_ascii_of_string forallb]. intros H. apply andb_true_iff in H as [Hx Hs].
  rewrite includes_dot_cons, (IH Hs), orb_false_r.
  apply Ascii.eqb_neq. intros ->. congruence.
Qed.

Lemma prefix_literal (p rest : string) : String.prefix p (p +:+ rest) = true.
Proof.
  induction p as [|x p IH]; [now destruct rest|].
  rewrite append_cons. cbn [String.prefix]. now destruct (ascii_dec x x).
Qed.

(** What [parseJavapField] returns: the empty field, or the two captures. *)
Lemma parseJavapField_shape (line : string) :
  parseJavapField line = FieldInfo.empty \/
  (textOf Re.word (FieldInfo.name (parseJavapField line)) /\
   textOf typeChar (FieldInfo.type (parseJavapField line))).
Proof.
  unfold parseJavapField.
  destruct (Re.search fieldRe line) as [caps|] eqn:Hre; [|now left].
  apply search_sound in Hre as (before & w & rest & _ & Hm).
  apply fieldRe_captures in Hm as (type & name & -> & Htype & Hname).
  right. now split.
Qed.

(** X15. The [extends] value of a descriptor built from [javap] text is a
    non-empty text of letters, digits, [_], [.] and [$]: what the second
    group of the class-declaration expression captured. *)
Theorem javap_extends_is_a_class_name :
  forall (output fullClassName ext : string),
    ClassInfo.extends (parseJavapOutput output fullClassName) = Some ext ->
    textOf identChar ext /\ Js.truthy ext = true.
Proof.
  intros output fullClassName.
  apply (parseJavapOutput_invariant
           (fun c => forall ext, ClassInfo.extends c = Some ext ->
                                 textOf identChar ext /\ Js.truthy ext = true)).
  - intros c line name ext _ Hre e [= <-].
    apply search_sound in Hre as (before & w & rest & _ & Hm).
    apply classDeclRe_captures in Hm as (name' & ext' & [= -> ->] & _ & Hext).
    split; [exact Hext|]. destruct Hext as [Hne _].
    unfold Js.truthy. now destruct (String.eqb_spec ext' "").
  - intros c line H _. exact H.
  - intros c line H _. exact H.
  - intros ext [=].
Qed.

(** The text printed for [java.lang.Exception]. *)
Lemma javap_extends_is_a_class_name_witness :
  textOf identChar "java.lang.Throwable" /\ Js.truthy "java.lang.Throwable" = true.
Proof.
  exact (javap_extends_is_a_class_name
           "public class java.lang.Exception extends java.lang.Throwable {"
           "java.lang.Exception" "java.lang.Throwable" eq_refl).
Defined.

(** X16. The modifiers of a descriptor built from [javap] text are set together
    with [extends] only: a class whose declaration line has no [extends]
    clause, as [javap] prints it for the direct subclasses of
    [java.lang.Object], keeps no modifier, [abstract] included. *)
Theorem javap_modifiers_need_an_extends_clause :
  forall (output fullClassName : string),
    ClassInfo.extends (parseJavapOutput output fullClassName) = None ->
    ClassInfo.modifiers (parseJavapOutput output fullClassName) = [] /\
    Js.startsWith
      (PlantUMLGenerator.generateClassDefinition (parseJavapOutput output fullClassName))
      "class " = true.
Proof.
  intros output fullClassName Hnone.
  assert (Hmod : ClassInfo.modifiers (parseJavapOutput output fullClassName) = []).
  { revert Hnone.
    apply (parseJavapOutput_invariant
             (fun c => ClassInfo.extends c = None -> ClassInfo.modifiers c = [])).
    - intros c line name ext _ _ [=].
    - intros c line H _. exact H.
    - intros c line H _. exact H.
    - reflexivity. }
  split; [exact Hmod|].
  destruct (javap_descriptor_SameIdentity output fullClassName)
    as (_ & _ & Hann & Himpl & _).
  destruct (parseJavapOutput output fullClassName)
    as [name fields methods modifiers annotations ext impl pkg file parent].
  cbn [ClassInfo.modifiers ClassInfo.annotations ClassInfo.implements] in Hmod, Hann, Himpl.
  subst modifiers annotations impl.
  unfold Js.startsWith, PlantUMLGenerator.generateClassDefinition.
  cbn [ClassInfo.packageName ClassInfo.annotations ClassInfo.modifiers ClassInfo.name
       ClassInfo.implements ClassInfo.fields ClassInfo.methods Js.arrIncludes existsb].
  cbv zeta.
  generalize (match pkg with
              | Some p => Js.startsWith p "java." || Js.startsWith p "javax."
              | None => false
              end).
  intros [|]; cbn [negb PlantUMLGenerator.appendEach fold_left].
  - rewrite !append_assoc. apply (prefix_literal "class ").
  - rewrite !appendEach_concat, !append_assoc. apply (prefix_literal "class ").
Qed.

(** The text printed for [java.lang.Number]. *)
Lemma javap_modifiers_need_an_extends_clause_witness :
  ClassInfo.modifiers
    (parseJavapOutput
       "public abstract class java.lang.Number implements java.io.Serializable {"
       "java.lang.Number") = [] /\
  Js.startsWith
    (PlantUMLGenerator.generateClassDefinition
       (parseJavapOutput
          "public abstract class java.lang.Number implements java.io.Serializable {"
          "java.lang.Number"))
    "class " = true.
Proof.
  exact (javap_modifiers_need_an_extends_clause
           "public abstract class java.lang.Number implements java.io.Serializable {"
           "java.lang.Number" eq_refl).
Defined.


(** X17. Every field recorded from [javap] text has a non-empty name of word
    characters and a non-empty type of characters of [[\w<>]], so never a
    qualified type name; every method recorded has a non-empty name, so
    that [generateMethod] never skips one. *)
Theorem javap_members_have_names :
  forall (output fullClassName : string),
    Forall (fun field =>
              textOf Re.word (FieldInfo.name field) /\
              textOf typeChar (FieldInfo.type field) /\
              Js.includes (FieldInfo.type field) "." = false)
           (ClassInfo.fields (parseJavapOutput output fullClassName)) /\
    Forall (fun method =>
              Js.truthy (MethodInfo.name method) = true /\
              PlantUMLGenerator.generateMethod method <> "")
           (ClassInfo.methods (parseJavapOutput output fullClassName)).
Proof.
  intros output fullClassName.
  apply (parseJavapOutput_invariant
           (fun c =>
              Forall (fun field =>
                        textOf Re.word (FieldInfo.name field) /\
                        textOf typeChar (FieldInfo.type field) /\
                        Js.includes (FieldInfo.type field) "." = false)
                     (ClassInfo.fields c) /\
              Forall (fun method =>
                        Js.truthy (MethodInfo.name method) = true /\
                        PlantUMLGenerator.generateMethod method <> "")
                     (ClassInfo.methods c))).
  - intros c line name ext H _. exact H.
  - intros c line [Hf Hm] Hname. split; [exact Hf|].
    cbn [ClassInfo.methods ClassInfo.pushMethod].
    apply Forall_app. split; [exact Hm|]. constructor; [|constructor].
    split; [exact Hname|].
    unfold PlantUMLGenerator.generateMethod. rewrite Hname. cbn [negb]. cbv zeta.
    rewrite !append_cons. discriminate.
  - intros c line [Hf Hm] Hname. split; [|exact Hm].
    cbn [ClassInfo.fields ClassInfo.pushField].
    apply Forall_app. split; [exact Hf|]. constructor; [|constructor].
    destruct (parseJavapField_shape line) as [Hempty|[Hn Ht]].
    + rewrite Hempty in Hname. discriminate.
    + split; [exact Hn|]. split; [exact Ht|].
      apply (allChars_no_dot typeChar); [reflexivity | apply Ht].
  - split; constructor.
Qed.

(** ** Blocks of runtime classes *)

Lemma prefix_beforeLastDot (p n : string) :
  String.prefix p (Js.beforeLastDot n) = true -> String.prefix p n = true.
Proof.
  revert p. induction n as [|c t IH]; intros p; [exact id|].
  cbn [Js.beforeLastDot]. destruct (Js.includes t ".").
  - destruct p as [|x p]; [reflexivity|]. cbn [String.prefix].
    destruct (ascii_dec x c); [apply IH | discriminate].
  - destruct p as [|x p]; [reflexivity | discriminate].
Qed.

(** X18. The block written for a descriptor built from [javap] text whose
    package is under [java.] or [javax.] is the class line, with the simple
    name of the class asked for, and the marker line: whatever the text
    holds, no member, annotation or interface is shown. *)
Theorem runtime_class_block_is_marker_only :
  forall (output fullClassName : string),
    let d := parseJavapOutput output fullClassName in
    Js.startsWith (Js.beforeLastDot fullClassName) "java." ||
    Js.startsWith (Js.beforeLastDot fullClassName) "javax." = true ->
    isSystemClassName fullClassName = true /\
    PlantUMLGenerator.generateClassDefinition d =
      (if Js.arrIncludes (ClassInfo.modifiers d) "abstract"
       then "abstract class " else "class ")
      +:+ afterLastDot fullClassName +:+ " {" +:+ newline
      +:+ "    ..System Class.." +:+ newline
      +:+ "}" +:+ newline +:+ newline.
Proof.
  intros output fullClassName d Hsys. split.
  - unfold isSystemClassName, Js.startsWith in *.
    apply orb_true_iff in Hsys as [H|H]; apply prefix_beforeLastDot in H; rewrite H;
      [reflexivity | apply orb_true_r].
  - pose proof (javap_descriptor_name output fullClassName) as Hname.
    destruct (javap_descriptor_SameIdentity output fullClassName)
      as (_ & Hpkg & _ & Himpl & _).
    fold d in Hname, Hpkg, Himpl.
    cbn [ClassInfo.packageName ClassInfo.implements] in Hpkg, Himpl.
    unfold PlantUMLGenerator.generateClassDefinition.
    rewrite Hpkg, Himpl, Hname, Hsys. cbn [negb]. cbv zeta.
    destruct (Js.arrIncludes (ClassInfo.modifiers d) "abstract");
      rewrite !append_assoc; reflexivity.
Qed.

(** The block of [java.lang.Exception]. *)
Lemma runtime_class_block_is_marker_only_witness :
  isSystemClassName "java.lang.Exception" = true /\
  PlantUMLGenerator.generateClassDefinition
    (parseJavapOutput "public class java.lang.Exception extends java.lang.Throwable {"
       "java.lang.Exception") =
    (if Js.arrIncludes
          (ClassInfo.modifiers
             (parseJavapOutput
                "public class java.lang.Exception extends java.lang.Throwable {"
                "java.lang.Exception")) "abstract"
     then "abstract class " else "class ")
    +:+ afterLastDot "java.lang.Exception" +:+ " {" +:+ newline
    +:+ "    ..System Class.." +:+ newline
    +:+ "}" +:+ newline +:+ newline.
Proof.
  exact (runtime_class_block_is_marker_only
           "public class java.lang.Exception extends java.lang.Throwable {"
           "java.lang.Exception" eq_refl).
Defined.

(** ** The set of emitted names *)

Lemma interfaceBlocks_known (interfaces : list string) (blocks : list Block)
    (s : PlantUMLGenerator.Processed) :
  Forall (fun n => n ∈ s) (map PlantUMLGenerator.getSimpleClassName interfaces) ->
  fold_left interfaceBlock interfaces (blocks, s) = (blocks, s).
Proof.
  induction interfaces as [|i interfaces IH]; [reflexivity|].
  cbn [map fold_left]. intros H. apply Forall_cons in H as [Hi Hrest].
  unfold interfaceBlock at 2. unfold PlantUMLGenerator.has.
  rewrite (bool_decide_eq_true_2 _ Hi). cbn [negb]. now apply IH.
Qed.

(** When every name the pass tests is already in the set, the pass records
    no block and leaves the set as it is. *)
Lemma definitionBlocks_known (c : ClassInfo.t) :
  forall s,
    Forall (fun n => n ∈ s) (flat_map namesTested (chainOf c)) ->
    definitionBlocks c s = ([], s).
Proof.
  induction c as [c IH] using chain_ind. intros s H.
  destruct c as [name fields methods modifiers annotations ext impl pkg file parent].
  cbn [chainOf flat_map ClassInfo.parentClass] in H.
  apply Forall_app in H as [Hme Hanc].
  unfold namesTested in Hme.
  cbn [ClassInfo.name ClassInfo.parentClass ClassInfo.extends ClassInfo.implements] in Hme.
  apply Forall_cons in Hme as [Hname Hme]. apply Forall_app in Hme as [Hext Himpl].
  cbn [definitionBlocks ClassInfo.name ClassInfo.parentClass ClassInfo.extends
       ClassInfo.implements].
  unfold PlantUMLGenerator.has at 1. rewrite (bool_decide_eq_true_2 _ Hname).
  cbn [negb].
  assert (Hmid :
    match parent with
    | Some p => let '(b, p0) := definitionBlocks p s in ([] ++ b, p0)
    | None =>
        match ext with
        | Some e =>
            if Js.truthy e &&
               negb (PlantUMLGenerator.has s (PlantUMLGenerator.getSimpleClassName e))
            then ([] ++ [PlaceholderBlock e],
                  PlantUMLGenerator.add (PlantUMLGenerator.getSimpleClassName e) s)
            else ([], s)
        | None => ([], s)
        end
    end = (([] : list Block), s)).
  { destruct parent as [p|].
    - now rewrite (IH p eq_refl s Hanc).
    - destruct ext as [e|]; [|reflexivity].
      destruct (Js.truthy e); [|reflexivity].
      apply Forall_cons in Hext as [He _].
      unfold PlantUMLGenerator.has. now rewrite (bool_decide_eq_true_2 _ He). }
  rewrite Hmid.
  destruct impl as [interfaces|]; [|reflexivity].
  now apply interfaceBlocks_known.
Qed.

(** Every name the pass tests is in the set when the pass is over. *)
Lemma namesTested_processed (c : ClassInfo.t) :
  forall s, Forall (fun n => n ∈ snd (definitionBlocks c s))
                   (flat_map namesTested (chainOf c)).
Proof.
  induction c as [c IH] using chain_ind. intros s.
  rewrite snd_definitionBlocks. cbv zeta.
  destruct (mark_grows (ClassInfo.name c) s) as [_ H1]. revert H1.
  generalize (if PlantUMLGenerator.has s (ClassInfo.name c) then s
              else PlantUMLGenerator.add (ClassInfo.name c) s).
  intros s1 H1.
  assert (Hs2 :
    let s2 := match ClassInfo.parentClass c with
              | Some p => snd (definitionBlocks p s1)
              | None =>
                  match ClassInfo.extends c with
                  | Some ext =>
                      if Js.truthy ext &&
                         negb (PlantUMLGenerator.has s1
                                 (PlantUMLGenerator.getSimpleClassName ext))
                      then PlantUMLGenerator.add
                             (PlantUMLGenerator.getSimpleClassName ext) s1
                      else s1
                  | None => s1
                  end
              end in
    ClassInfo.name c ∈ s2 /\
    Forall (fun n => n ∈ s2)
      match ClassInfo.parentClass c, ClassInfo.extends c with
      | None, Some ext =>
          if Js.truthy ext then [PlantUMLGenerator.getSimpleClassName ext] else []
      | _, _ => []
      end /\
    Forall (fun n => n ∈ s2)
      match ClassInfo.parentClass c with
      | Some p => flat_map namesTested (chainOf p)
      | None => []
      end).
  { cbv zeta. destruct (ClassInfo.parentClass c) as [p|] eqn:Hp.
    - split; [now apply (definitionBlocks_grows p)|].
      split; [constructor | apply (IH p eq_refl)].
    - split; [|split; [|constructor]].
      + destruct (ClassInfo.extends c) as [e|]; [|exact H1].
        destruct (_ && _); [|exact H1]. apply elem_of_add. now right.
      + destruct (ClassInfo.extends c) as [e|]; [|constructor].
        destruct (Js.truthy e); [|constructor]. cbn [andb].
        constructor; [|constructor].
        destruct (mark_grows (PlantUMLGenerator.getSimpleClassName e) s1) as [_ Hin].
        destruct (PlantUMLGenerator.has s1 _); exact Hin. }
  cbv zeta in Hs2. revert Hs2.
  match goal with
  | |- (_ ∈ ?x /\ _) -> _ => generalize x
  end.
  intros s2 (Hself & Hext & Hanc).
  assert (Hgrow : forall m, m ∈ s2 ->
             m ∈ match ClassInfo.implements c with
                 | Some interfaces => fold_left markInterface interfaces s2
                 | None => s2
                 end).
  { intros m Hm. destruct (ClassInfo.implements c) as [interfaces|]; [|exact Hm].
    now apply (markInterfaces_grows interfaces s2). }
  assert (Himpl : Forall (fun n =>
                            n ∈ match ClassInfo.implements c with
                                | Some interfaces => fold_left markInterface interfaces s2
                                | None => s2
                                end)
                    (map PlantUMLGenerator.getSimpleClassName
                       (default [] (ClassInfo.implements c)))).
  { destruct (ClassInfo.implements c) as [interfaces|]; [|constructor].
    cbn [default]. apply Forall_map, Forall_forall. intros i Hi.
    now apply (markInterfaces_grows interfaces s2). }
  destruct c as [name fields methods modifiers annotations ext impl pkg file parent].
  cbn [chainOf flat_map ClassInfo.parentClass ClassInfo.name ClassInfo.extends
       ClassInfo.implements] in *.
  apply Forall_app. split.
  - unfold namesTested.
    cbn [ClassInfo.name ClassInfo.parentClass ClassInfo.extends ClassInfo.implements].
    constructor; [now apply Hgrow|]. apply Forall_app. split; [|exact Himpl].
    eapply Forall_impl; [exact Hext | exact Hgrow].
  - destruct parent as [p|]; [|constructor].
    eapply Forall_impl; [exact Hanc | exact Hgrow].
Qed.

(** X19. The definitions pass never takes a name out of [processedClasses], and
    the name of the descriptor it is called on is in the set afterwards. *)
Theorem definitions_pass_only_adds_names :
  forall (classInfo : ClassInfo.t) (processedClasses : PlantUMLGenerator.Processed),
    (forall n, n ∈ processedClasses ->
       n ∈ snd (PlantUMLGenerator.generateAllClassDefinitionsRecursive
                  classInfo processedClasses)) /\
    ClassInfo.name classInfo ∈
      snd (PlantUMLGenerator.generateAllClassDefinitionsRecursive
             classInfo processedClasses).
Proof.
  intros c s. rewrite definitions_blocks. cbn [snd]. apply definitionBlocks_grows.
Qed.

(** X20. A second definitions pass on the set left by the first one writes
    nothing and leaves the set as it is: without the [clear()] of
    [generateClassDiagram] a diagram generated again would have no
    definition block. *)
Theorem second_definitions_pass_writes_nothing :
  forall (classInfo : ClassInfo.t) (processedClasses : PlantUMLGenerator.Processed),
    let after :=
      snd (PlantUMLGenerator.generateAllClassDefinitionsRecursive
             classInfo processedClasses) in
    PlantUMLGenerator.generateAllClassDefinitionsRecursive classInfo after = ("", after).
Proof.
  intros c s after. subst after. rewrite !definitions_blocks. cbn [snd].
  now rewrite (definitionBlocks_known c _ (namesTested_processed c s)).
Qed.

(** * Scanning a directory *)

(** Induction on the directory tree. *)
Lemma Node_tree_ind (P : FileScanner.Node -> Prop) :
  P FileScanner.File ->
  (forall entries, Forall (fun e => P (snd e)) entries -> P (FileScanner.Dir entries)) ->
  P FileScanner.Unreadable ->
  P FileScanner.Dangling ->
  forall node, P node.
Proof.
  intros HFile HDir HUnreadable HDangling.
  fix IH 1. intros [ |entries| | ]; [exact HFile | | exact HUnreadable | exact HDangling].
  apply HDir. induction entries as [|[file child] rest IHrest]; constructor.
  - apply IH.
  - exact IHrest.
Qed.

Lemma scanJavaFiles_spec (join : string -> string -> string) (node : FileScanner.Node) :
  forall dir,
    FileScanner.scanJavaFiles join dir node =
      if FileScanner.readable node then Some (FileScanner.javaFiles join dir node) else None.
Proof.
  induction node as [ |entries IH| | ] using Node_tree_ind; intros dir;
    try reflexivity.
  cbn [FileScanner.scanJavaFiles FileScanner.javaFiles FileScanner.readable].
  match goal with
  | |- ?f entries [] = (if ?a entries then Some (?e entries) else None) =>
      enough (H : forall results,
                 f entries results =
                   if a entries then Some (results ++ e entries) else None)
        by apply (H [])
  end.
  induction IH as [|[file child] rest Hchild _ IHrest]; intros results.
  - now rewrite app_nil_r.
  - cbn [snd] in Hchild.
    destruct child as [ |es| | ]; cbn [andb app].
    + destruct (String.eqb (FileScanner.extname file) ".java") eqn:Hext.
      * rewrite IHrest.
        destruct (_ rest); [|reflexivity]. now rewrite <- app_assoc.
      * apply IHrest.
    + rewrite (Hchild (join dir file)).
      destruct (FileScanner.readable (FileScanner.Dir es)); cbn [andb]; [|reflexivity].
      rewrite IHrest. destruct (_ rest); [|reflexivity]. now rewrite <- app_assoc.
    + reflexivity.
    + reflexivity.
Qed.

Lemma includes_append_r (a b : string) :
  Js.includes b "." = true -> Js.includes (a +:+ b) "." = true.
Proof.
  intros H. induction a as [|x a IH]; [exact H|].
  rewrite append_cons, includes_dot_cons, IH. apply orb_true_r.
Qed.

Lemma beforeLastDot_append (a b : string) :
  Js.includes b "." = false -> Js.beforeLastDot (a +:+ "." +:+ b) = a.
Proof.
  intros Hb. induction a as [|x a IH].
  - change ("" +:+ "." +:+ b) with (String "." b).
    cbn [Js.beforeLastDot]. now rewrite Hb.
  - rewrite append_cons. cbn [Js.beforeLastDot].
    rewrite includes_append_r
      by (change ("." +:+ b) with (String "." b); now rewrite includes_dot_cons).
    now rewrite IH.
Qed.

Lemma afterLastDot_append (a b : string) :
  Js.includes b "." = false -> afterLastDot (a +:+ "." +:+ b) = b.
Proof.
  intros Hb. induction a as [|x a IH].
  - change ("" +:+ "." +:+ b) with (String "." b).
    cbn [afterLastDot]. now rewrite Hb.
  - rewrite append_cons. cbn [afterLastDot].
    rewrite includes_append_r
      by (change ("." +:+ b) with (String "." b); now rewrite includes_dot_cons).
    exact IH.
Qed.

(** The names [path.extname] gives the extension [.java] to. *)
Lemma extname_java (file : string) :
  FileScanner.extname file = ".java" <-> FileScanner.javaName file.
Proof.
  unfold FileScanner.extname, FileScanner.javaName. split.
  - destruct (Js.includes file ".") eqn:Hdot; cbn [negb]; [|discriminate].
    destruct (String.eqb_spec (Js.beforeLastDot file) "") as [|Hstem]; [discriminate|].
    destruct (String.eqb file ".."); [discriminate|].
    rewrite append_cons. intros [= Hext].
    exists (Js.beforeLastDot file). split; [exact Hstem|].
    change ("" +:+ afterLastDot file) with (afterLastDot file) in Hext.
    rewrite <- (before_after_last_dot file Hdot) at 1. now rewrite Hext.
  - intros (stem & Hstem & ->).
    change (stem +:+ ".java") with (stem +:+ "." +:+ "java").
    rewrite includes_append_r by reflexivity. cbn [negb].
    rewrite beforeLastDot_append, afterLastDot_append by reflexivity.
    destruct (String.eqb_spec stem "") as [|_]; [contradiction|].
    destruct (String.eqb_spec (stem +:+ "." +:+ "java") "..") as [Heq|_]; [|reflexivity].
    apply (f_equal String.length) in Heq. rewrite length_append in Heq.
    change (String.length ("." +:+ "java")) with 5 in Heq.
    change (String.length "..") with 2 in Heq. lia.
Qed.

Lemma javaFiles_Dir (join : string -> string -> string) (dir : string)
    (entries : list (string * FileScanner.Node)) :
  FileScanner.javaFiles join dir (FileScanner.Dir entries) =
    flat_map (fun e =>
                match snd e with
                | FileScanner.File =>
                    if String.eqb (FileScanner.extname (fst e)) ".java"
                    then [join dir (fst e)] else []
                | child => FileScanner.javaFiles join (join dir (fst e)) child
                end) entries.
Proof.
  cbn [FileScanner.javaFiles].
  induction entries as [|[file child] rest IH]; [reflexivity|].
  cbn [flat_map fst snd]. rewrite <- IH. now destruct child.
Qed.

Lemma readable_Dir (entries : list (string * FileScanner.Node)) :
  FileScanner.readable (FileScanner.Dir entries) =
    forallb (fun e =>
               match snd e with
               | FileScanner.File => true
               | child => FileScanner.readable child
               end) entries.
Proof.
  cbn [FileScanner.readable].
  induction entries as [|[file child] rest IH]; [reflexivity|].
  cbn [forallb fst snd]. rewrite <- IH. now destruct child.
Qed.

(** The listing holds the Java files of the tree and nothing else. *)
Lemma javaFiles_spec (join : string -> string -> string) (node : FileScanner.Node) :
  forall dir p,
    In p (FileScanner.javaFiles join dir node) <->
    exists d file,
      FileScanner.Entry join dir node d file FileScanner.File /\
      FileScanner.javaName file /\ p = join d file.
Proof.
  induction node as [ |entries IH| | ] using Node_tree_ind; intros dir p;
    try (split; [intros [] | intros (d & file & H & _); inversion H]).
  rewrite javaFiles_Dir, in_flat_map. rewrite Forall_forall in IH. split.
  - intros ([file child] & Hin & Hp). cbn [fst snd] in Hp.
    destruct child as [ |es| | ].
    + destruct (String.eqb_spec (FileScanner.extname file) ".java") as [Hext|];
        [|destruct Hp].
      destruct Hp as [<-|[]]. exists dir, file.
      split; [now constructor|]. split; [now apply extname_java | reflexivity].
    + apply (IH (file, FileScanner.Dir es)) in Hp as (d & f & He & Hj & ->);
        [|now apply list_elem_of_In].
      exists d, f. split; [|now split].
      eapply FileScanner.Entry_below; eassumption.
    + destruct Hp.
    + destruct Hp.
  - intros (d & file & He & Hj & ->).
    inversion He as [dir' entries' file' child' Hin
                    | dir' entries' sub below d' file' child' Hin Hbelow]; subst.
    + exists (file, FileScanner.File). split; [exact Hin|]. cbn [fst snd].
      apply extname_java in Hj. rewrite Hj. now left.
    + exists (sub, below). split; [exact Hin|]. cbn [fst snd].
      assert (Hp : In (join d file) (FileScanner.javaFiles join (join dir sub) below)).
      { apply (IH (sub, below)); [now apply list_elem_of_In|].
        exists d, file. now split. }
      destruct below; [inversion Hbelow | exact Hp..].
Qed.

(** A tree is readable when it is a directory below which no entry is
    unreadable or dangling. *)
Lemma readable_spec (join : string -> string -> string) (node : FileScanner.Node) :
  forall dir,
    FileScanner.readable node = true <->
    (exists entries, node = FileScanner.Dir entries) /\
    forall d file child,
      FileScanner.Entry join dir node d file child ->
      child <> FileScanner.Unreadable /\ child <> FileScanner.Dangling.
Proof.
  induction node as [ |entries IH| | ] using Node_tree_ind; intros dir;
    try (split; [discriminate | intros [(entries & [=]) _]]).
  rewrite readable_Dir, forallb_forall. rewrite Forall_forall in IH. split.
  - intros Hall. split; [now exists entries|].
    intros d file child He.
    inversion He as [dir' entries' file' child' Hin
                    | dir' entries' sub below d' file' child' Hin Hbelow]; subst.
    + specialize (Hall _ Hin). cbn [snd] in Hall.
      split; intros ->; discriminate.
    + specialize (Hall _ Hin) as Hsub. cbn [snd] in Hsub.
      assert (Hr : FileScanner.readable below = true).
      { destruct below; [inversion Hbelow | exact Hsub..]. }
      apply (IH (sub, below)) with (dir := join dir sub) in Hr
        as [_ Hr]; [|now apply list_elem_of_In].
      now apply (Hr d file child).
  - intros [_ Hgood] [file child] Hin. cbn [snd].
    destruct child as [ |es| | ]; [reflexivity | | |].
    + apply (IH (file, FileScanner.Dir es)) with (dir := join dir file);
        [now apply list_elem_of_In|].
      split; [now exists es|]. intros d f child He. apply (Hgood d f child).
      eapply FileScanner.Entry_below; eassumption.
    + destruct (Hgood dir file FileScanner.Unreadable) as [H _]; [now constructor|].
      now contradiction H.
    + destruct (Hgood dir file FileScanner.Dangling) as [_ H]; [now constructor|].
      now contradiction H.
Qed.

(** X21. The scan returns the Java files of the whole tree, or nothing at all:
    it fails when one directory below cannot be listed or one entry cannot
    be examined (and when the starting point is not a directory), whatever
    was collected before; otherwise it returns the listing of the tree,
    directory by directory in the order of the entries. *)
Theorem scan_is_all_or_nothing :
  forall (join : string -> string -> string) (dir : string) (node : FileScanner.Node),
    FileScanner.scanJavaFiles join dir node =
      (if FileScanner.readable node
       then Some (FileScanner.javaFiles join dir node) else None) /\
    (FileScanner.readable node = true <->
     (exists entries, node = FileScanner.Dir entries) /\
     forall d file child,
       FileScanner.Entry join dir node d file child ->
       child <> FileScanner.Unreadable /\ child <> FileScanner.Dangling).
Proof.
  intros join dir node. split; [apply scanJavaFiles_spec | apply readable_spec].
Qed.

(** X22. When the scan returns, the paths it reports are those of the entries
    that are not directories and whose name is a non-empty stem followed by
    [.java], at any depth: a directory is never reported, whatever its name,
    and neither is a file named [.java]. *)
Theorem scan_reports_the_java_files :
  forall (join : string -> string -> string) (dir : string) (node : FileScanner.Node)
         (results : list string),
    FileScanner.scanJavaFiles join dir node = Some results ->
    forall p,
      In p results <->
      exists d file,
        FileScanner.Entry join dir node d file FileScanner.File /\
        FileScanner.javaName file /\ p = join d file.
Proof.
  intros join dir node results Hscan p.
  rewrite scanJavaFiles_spec in Hscan.
  destruct (FileScanner.readable node); [|discriminate].
  injection Hscan as <-. apply javaFiles_spec.
Qed.

(** The scan of the example project. *)
Lemma scan_reports_the_java_files_witness :
  In "/p/sub/B.java" ["/p/A.java"; "/p/sub/B.java"] <->
  exists d file,
    FileScanner.Entry Examples.posixJoin "/p" FileScanner.project d file FileScanner.File /\
    FileScanner.javaName file /\ "/p/sub/B.java" = Examples.posixJoin d file.
Proof.
  exact (scan_reports_the_java_files Examples.posixJoin "/p" FileScanner.project
           ["/p/A.java"; "/p/sub/B.java"] eq_refl "/p/sub/B.java").
Defined.

(** ** Further facts about [parse] and its helpers *)

(** X23. [findProjectClass] never throws, makes at most two calls, both to the
    file system ([existsSync], then [readFileSync] only when the file
    exists), and does not use its [packageName] argument: the file is looked
    for next to the current file only. *)
Theorem findProjectClass_looks_next_to_the_file_only :
  forall (env : Env) (className : string) (packageName : option string)
         (currentFilePath : option string),
    (exists text,
        outcome (findProjectClass env className packageName currentFilePath)
          = Returned text) /\
    findProjectClass env className packageName currentFilePath =
      findProjectClass env className None currentFilePath /\
    length (events (findProjectClass env className packageName currentFilePath)) <= 2 /\
    Calls (fun ev => isFs ev = true)
      (findProjectClass env className packageName currentFilePath) /\
    (In (EvRead (siblingPath env (default "" currentFilePath) className))
        (events (findProjectClass env className packageName currentFilePath)) ->
     existsSync env (siblingPath env (default "" currentFilePath) className) = true).
Proof.
  intros env className packageName currentFilePath.
  split; [apply findProjectClass_returns|]. split; [reflexivity|].
  destruct currentFilePath as [p|];
    [|split; [cbn; lia | split; [apply Calls_ret | intros []]]].
  destruct (Js.truthy p) eqn:Hp.
  - rewrite (findProjectClass_eq env className packageName p Hp).
    unfold siblingLookup, Calls. cbn [events snd].
    change (default "" (Some p)) with p.
    destruct (existsSync env (siblingPath env p className)).
    + split; [cbn; lia|]. split; [repeat constructor | reflexivity].
    + split; [cbn; lia|]. split; [repeat constructor|].
      intros [[=]|[]].
  - unfold findProjectClass. rewrite Hp. cbn [negb].
    split; [cbn; lia | split; [apply Calls_ret | intros []]].
Qed.

(** X24. A class without [extends] is returned as parsed after the one call of
    the parser: nothing is looked up, in the project or through [javap],
    and the chain has depth 1. *)
Theorem class_without_extends_is_returned_as_parsed :
  forall (env : Env) (fuel : nat) (javaCode : string) (filePath : option string)
         (p : ParsedClass.t),
    runParser env javaCode = Some p ->
    Js.truthyOpt (ParsedClass.extends p) = false ->
    parse env fuel javaCode filePath =
      (Returned (rootDescriptor p filePath), [EvParser javaCode]) /\
    ClassInfo.depth (rootDescriptor p filePath) = 1 /\
    PlantUMLGenerator.generateAllRelationshipsRecursive (rootDescriptor p filePath) =
      concatAll (map (fun i => PlantUMLGenerator.getSimpleClassName i +:+ " <|.. "
                                 +:+ ParsedClass.name p +:+ newline)
                     (ParsedClass.implements p)).
Proof.
  intros env fuel javaCode filePath p Hp Hext.
  split; [|split].
  - rewrite parse_eq, parseClass_eq, Hp, bind_returned.
    change (if Js.truthyOpt filePath
            then ClassInfo.setFilePath filePath (ParsedClass.toClassInfo p)
            else ParsedClass.toClassInfo p) with (rootDescriptor p filePath).
    cbv zeta. rewrite rootDescriptor_extends, Hext. reflexivity.
  - unfold rootDescriptor. now destruct (Js.truthyOpt filePath).
  - assert (Hrel : forall c,
               ClassInfo.parentClass c = None ->
               Js.truthyOpt (ClassInfo.extends c) = false ->
               PlantUMLGenerator.generateAllRelationshipsRecursive c =
                 concatAll (map (fun i => PlantUMLGenerator.getSimpleClassName i
                                            +:+ " <|.. " +:+ ClassInfo.name c +:+ newline)
                                (default [] (ClassInfo.implements c)))).
    { intros [name fields methods modifiers annotations ext impl pkg file parent].
      cbn [ClassInfo.parentClass ClassInfo.extends ClassInfo.implements ClassInfo.name].
      intros -> Hno.
      cbn [PlantUMLGenerator.generateAllRelationshipsRecursive ClassInfo.extends
           ClassInfo.implements ClassInfo.parentClass ClassInfo.name].
      assert (Hstart : match ext with
                       | Some e =>
                           if Js.truthy e
                           then "" +:+ PlantUMLGenerator.getSimpleClassName e
                                  +:+ PlantUMLGenerator.inheritanceArrow e
                                  +:+ name +:+ newline
                           else ""
                       | None => ""
                       end = "").
      { destruct ext as [e|]; [|reflexivity]. cbn [Js.truthyOpt] in Hno. now rewrite Hno. }
      rewrite Hstart. destruct impl as [interfaces|]; [|reflexivity].
      now rewrite appendEach_concat. }
    rewrite Hrel.
    + unfold rootDescriptor. now destruct (Js.truthyOpt filePath).
    + apply rootDescriptor_parentClass.
    + now rewrite rootDescriptor_extends.
Qed.

(** [class B {}] of the example project. *)
Lemma class_without_extends_is_returned_as_parsed_witness :
  parse Examples.localParent 0 "class B {}" (Some "/proj/B.java") =
    (Returned (rootDescriptor (Examples.emptyClass "B" None) (Some "/proj/B.java")),
     [EvParser "class B {}"]) /\
  ClassInfo.depth (rootDescriptor (Examples.emptyClass "B" None) (Some "/proj/B.java")) = 1 /\
  PlantUMLGenerator.generateAllRelationshipsRecursive
    (rootDescriptor (Examples.emptyClass "B" None) (Some "/proj/B.java")) =
    concatAll (map (fun i => PlantUMLGenerator.getSimpleClassName i +:+ " <|.. "
                               +:+ ParsedClass.name (Examples.emptyClass "B" None)
                               +:+ newline)
                   (ParsedClass.implements (Examples.emptyClass "B" None))).
Proof.
  exact (class_without_extends_is_returned_as_parsed Examples.localParent 0
           "class B {}" (Some "/proj/B.java") (Examples.emptyClass "B" None)
           eq_refl eq_refl).
Defined.

(** X25. The simple name of a class name has no dot, is its own simple name, and
    with the qualifier before the last dot gives the class name back. *)
Theorem simple_name_is_the_text_after_the_last_dot :
  forall className : string,
    Js.includes (PlantUMLGenerator.getSimpleClassName className) "." = false /\
    PlantUMLGenerator.getSimpleClassName
      (PlantUMLGenerator.getSimpleClassName className) =
      PlantUMLGenerator.getSimpleClassName className /\
    (if Js.includes className "."
     then Js.beforeLastDot className +:+ "."
            +:+ PlantUMLGenerator.getSimpleClassName className
     else PlantUMLGenerator.getSimpleClassName className) = className.
Proof.
  intros className. rewrite !getSimpleClassName_afterLastDot.
  split; [apply afterLastDot_no_dot|]. split.
  - apply afterLastDot_id, afterLastDot_no_dot.
  - destruct (Js.includes className ".") eqn:Hdot.
    + now apply before_after_last_dot.
    + now apply afterLastDot_id.
Qed.

(** ** One [javap] call per ancestor *)

Lemma tried_nonempty (env : Env) (n : string) (rest : list string) :
  1 <= length (tried env (n :: rest)).
Proof. cbn [tried length]. lia. Qed.

Lemma attemptNames_cons (ext : string) :
  exists n rest, attemptNames ext = n :: rest.
Proof. unfold attemptNames. destruct (String.eqb ext "Applet"); cbn [app]; eauto. Qed.

Lemma resolveSystemParent_depth (env : Env) (fuel : nat) (c d : ClassInfo.t)
    (ext : string) :
  ClassInfo.packageName c = None ->
  ClassInfo.extends c = Some ext ->
  Js.truthy ext = true ->
  outcome (resolveSystemParent env fuel c) = Returned d ->
  ClassInfo.depth d <= 1 + length (javapCalls (resolveSystemParent env fuel c)).
Proof.
  intros Hpkg Hext Htruthy.
  destruct (systemFallback_spec env c ext Hpkg Hext Htruthy) as (st & Heq & Hres).
  unfold resolveSystemParent. rewrite outcome_bind, javapCalls_bind, Heq.
  rewrite javapCalls_map. cbn [outcome fst]. rewrite length_app.
  destruct (attemptNames_cons ext) as (n & rest & Hcand).
  pose proof (tried_nonempty env n rest) as Htried. rewrite <- Hcand in Htried.
  unfold FallbackResult in Hres.
  destruct (winner env (attemptNames ext)) as [w|].
  - destruct Hres as (Hfound & stdout & Hjavap & Hc).
    rewrite Hfound, Hc. cbn [negb]. unfold walkStep, resolvedAs.
    cbn [ClassInfo.parentClass ClassInfo.setExtends ClassInfo.setParentClass].
    pose proof (javap_descriptor_parentClass stdout w) as Hnone.
    destruct (Js.truthyOpt (ClassInfo.extends (parseJavapOutput stdout w))).
    + rewrite outcome_bind, javapCalls_bind.
      destruct (outcome (walkParents env fuel _)) as [chain| |] eqn:Hwalk;
        [|discriminate..].
      cbn [outcome ret fst]. intros [= <-].
      apply walkParents_depth in Hwalk. rewrite length_app.
      change (ClassInfo.depth
                (ClassInfo.setParentClass
                   (Some (ClassInfo.setParentClass chain (parseJavapOutput stdout w)))
                   (ClassInfo.setExtends (Some w)
                      (ClassInfo.setParentClass (Some (parseJavapOutput stdout w)) c))))
        with (S (ClassInfo.depth
                   (ClassInfo.setParentClass chain (parseJavapOutput stdout w)))).
      destruct chain as [q|].
      * rewrite depth_setParentClass. lia.
      * destruct (parseJavapOutput stdout w); cbn in Hnone |- *; subst. cbn. lia.
    + cbn [outcome ret fst]. intros [= <-].
      change (ClassInfo.depth
                (ClassInfo.setExtends (Some w)
                   (ClassInfo.setParentClass (Some (parseJavapOutput stdout w)) c)))
        with (S (ClassInfo.depth (parseJavapOutput stdout w))).
      destruct (parseJavapOutput stdout w); cbn in Hnone |- *; subst. cbn. lia.
  - destruct Hres as (Hnot & _). rewrite Hnot. discriminate.
Qed.

(** X26. Every ancestor of the chain built without project files comes from one
    successful [javap] call: the depth of the chain returned is at most one
    more than the number of [javap] calls, and it is one when no call was
    made. *)
Theorem chain_depth_is_bounded_by_the_javap_calls :
  forall (env : Env) (fuel : nat) (javaCode : string) (d : ClassInfo.t),
    outcome (parse env fuel javaCode None) = Returned d ->
    ClassInfo.depth d <= 1 + length (javapCalls (parse env fuel javaCode None)).
Proof.
  intros env fuel javaCode d.
  rewrite parse_without_path, outcome_bind, javapCalls_bind, parseClass_eq.
  destruct (runParser env javaCode) as [p|]; [|discriminate].
  cbn [outcome fst]. change (javapCalls (Returned (ParsedClass.toClassInfo p),
                                         [EvParser javaCode])) with (@nil string).
  cbn [app].
  set (root := ParsedClass.toClassInfo p).
  assert (Hroot : ClassInfo.depth root = 1) by reflexivity.
  destruct (Js.truthyOpt (ClassInfo.extends root)) eqn:Hset.
  - destruct (ClassInfo.extends root) as [ext|] eqn:Hext; [|discriminate].
    cbn [Js.truthyOpt] in Hset.
    rewrite !outcome_tryCatch, !javapCalls_tryCatch, !outcome_tryCatch.
    destruct (outcome (resolveSystemParent env fuel root)) as [c'|e|] eqn:Hres.
    + intros [= <-]. rewrite !app_nil_r.
      now apply (resolveSystemParent_depth env fuel root c' ext).
    + cbn [outcome ret fst]. intros [= <-]. rewrite Hroot. lia.
    + discriminate.
  - cbn [outcome ret fst]. intros [= <-]. rewrite Hroot. lia.
Qed.

(** [class A extends Exception {}]: three descriptors, two calls. *)
Lemma chain_depth_is_bounded_by_the_javap_calls_witness :
  exists d,
    outcome (parse Examples.exceptionChild 2 "class A extends Exception {}" None)
      = Returned d /\
    ClassInfo.depth d <=
      1 + length (javapCalls
                    (parse Examples.exceptionChild 2 "class A extends Exception {}" None)).
Proof.
  eexists. split; [reflexivity|].
  apply (chain_depth_is_bounded_by_the_javap_calls Examples.exceptionChild 2
           "class A extends Exception {}"). reflexivity.
Defined.

(** ** Parameters of [javap] methods in the diagram *)

Lemma list_ascii_of_string_append (a b : string) :
  list_ascii_of_string (a +:+ b) = list_ascii_of_string a ++ list_ascii_of_string b.
Proof. induction a as [|x a IH]; [reflexivity|]. rewrite append_cons. cbn. now rewrite IH. Qed.

Lemma trimStartL_noLeadingSpace (l : list ascii) : noLeadingSpace (Js.trimStartL l).
Proof.
  induction l as [|c l IH]; [exact I|]. cbn [Js.trimStartL].
  destruct (Js.isSpace c) eqn:Hc; [exact IH | exact Hc].
Qed.

Lemma trimStartL_id (l : list ascii) : noLeadingSpace l -> Js.trimStartL l = l.
Proof. destruct l as [|c l]; [reflexivity|]. cbn. now intros ->. Qed.

Lemma trimStartL_suffix (l : list ascii) : exists pre, l = pre ++ Js.trimStartL l.
Proof.
  induction l as [|c l (pre & IH)]; [now exists []|]. cbn [Js.trimStartL].
  destruct (Js.isSpace c).
  - exists (c :: pre). cbn. now f_equal.
  - now exists [].
Qed.

Lemma trimL_clean (l : list ascii) :
  noLeadingSpace (trimL l) /\ noLeadingSpace (rev (trimL l)).
Proof.
  unfold trimL. rewrite rev_involutive. split; [|apply trimStartL_noLeadingSpace].
  pose proof (trimStartL_noLeadingSpace l) as Hk.
  destruct (trimStartL_suffix (rev (Js.trimStartL l))) as (pre & Hpre).
  apply (f_equal (@rev ascii)) in Hpre. rewrite rev_involutive, rev_app_distr in Hpre.
  rewrite Hpre in Hk.
  destruct (rev (Js.trimStartL (rev (Js.trimStartL l)))); [exact I | exact Hk].
Qed.

Lemma trimL_blank_after (l : list ascii) : trimL (trimL l ++ [" "%char]) = trimL l.
Proof.
  destruct (trimL_clean l) as [Hhead Hlast].
  generalize dependent (trimL l). intros m Hhead Hlast.
  destruct m as [|c m]; [reflexivity|].
  unfold trimL.
  rewrite (trimStartL_id ((c :: m) ++ [" "%char])) by exact Hhead.
  rewrite rev_app_distr. cbn [rev app Js.trimStartL].
  change (Js.isSpace " ") with true. cbn iota.
  change (rev m ++ [c]) with (rev (c :: m)).
  rewrite (trimStartL_id _ Hlast). apply rev_involutive.
Qed.

Lemma trim_blank_after (s : string) : Js.trim (Js.trim s +:+ " " +:+ "") = Js.trim s.
Proof.
  unfold Js.trim at 1. rewrite list_ascii_of_string_append.
  unfold Js.trim at 1. rewrite list_ascii_of_string_of_list_ascii.
  change (list_ascii_of_string (" " +:+ "")) with [" "%char].
  fold (trimL (list_ascii_of_string s)).
  fold (trimL (trimL (list_ascii_of_string s) ++ [" "%char])).
  now rewrite trimL_blank_after.
Qed.

Lemma rendered_parameters (pieces : list string) :
  map (fun p => Js.trim (ParameterInfo.type p +:+ " " +:+ ParameterInfo.name p))
      (List.filter (fun p => Js.truthy (ParameterInfo.type p))
         (map (fun param => ParameterInfo.mk "" (Js.trim param)) pieces)) =
    filterBoolean (map Js.trim pieces).
Proof.
  unfold filterBoolean. induction pieces as [|x pieces IH]; [reflexivity|].
  cbn [map List.filter ParameterInfo.type].
  destruct (Js.truthy (Js.trim x)); [|exact IH].
  cbn [map ParameterInfo.type ParameterInfo.name]. now rewrite trim_blank_after, IH.
Qed.

(** X27. A method whose parameters come from [parseParameters] is drawn with the
    parameter types alone, trimmed and separated by [, ]: the blank that
    [generateMethod] puts before the (empty) parameter name is trimmed
    away, and empty pieces of the parameter text are dropped. *)
Theorem javap_parameters_are_drawn_as_types :
  forall (paramString name returnType : string) (modifiers annotations : list string),
    Js.truthy name = true ->
    PlantUMLGenerator.generateMethod
      (MethodInfo.mk name returnType (parseParameters paramString) modifiers annotations) =
      "    " +:+ PlantUMLGenerator.getVisibilitySymbol modifiers
        +:+ (if Js.arrIncludes modifiers "static" then "{static} " else "")
        +:+ returnType +:+ " " +:+ name +:+ "("
        +:+ (if Js.truthy (Js.trim paramString)
             then Js.join (filterBoolean (map Js.trim (Js.split paramString ","))) ", "
             else "")
        +:+ ")" +:+ newline.
Proof.
  intros paramString name returnType modifiers annotations Hname.
  unfold PlantUMLGenerator.generateMethod.
  cbn [MethodInfo.name MethodInfo.modifiers MethodInfo.returnType MethodInfo.parameters].
  rewrite Hname. cbn [negb]. cbv zeta. unfold parseParameters.
  destruct (Js.truthy (Js.trim paramString)); cbn [negb]; [|reflexivity].
  now rewrite rendered_parameters.
Qed.

(** [printStackTrace(java.io.PrintStream, int)] as [javap] prints it. *)
Lemma javap_parameters_are_drawn_as_types_witness :
  PlantUMLGenerator.generateMethod
    (MethodInfo.mk "printStackTrace" "void"
       (parseParameters "java.io.PrintStream, int") ["public"] []) =
    "    " +:+ PlantUMLGenerator.getVisibilitySymbol ["public"]
      +:+ (if Js.arrIncludes ["public"] "static" then "{static} " else "")
      +:+ "void" +:+ " " +:+ "printStackTrace" +:+ "("
      +:+ (if Js.truthy (Js.trim "java.io.PrintStream, int")
           then Js.join (filterBoolean
                           (map Js.trim (Js.split "java.io.PrintStream, int" ","))) ", "
           else "")
      +:+ ")" +:+ newline.
Proof.
  exact (javap_parameters_are_drawn_as_types "java.io.PrintStream, int"
           "printStackTrace" "void" ["public"] [] eq_refl).
Defined.

(** ** Method lines *)

Lemma prefix_char (x c : ascii) (t : string) :
  String.prefix (String x "") (String c t) = Ascii.eqb c x.
Proof.
  cbn [String.prefix]. destruct (ascii_dec x c) as [<-|Hne].
  - rewrite Ascii.eqb_refl. now destruct t.
  - symmetry. apply Ascii.eqb_neq. congruence.
Qed.

Lemma includes_char_cons (x c : ascii) (t : string) :
  Js.includes (String c t) (String x "") = Ascii.eqb c x || Js.includes t (String x "").
Proof. cbn [Js.includes]. now rewrite prefix_char. Qed.

(** Splitting at a character the text does not hold gives the text back. *)
Lemma split_without_separator (x : ascii) (s : string) :
  Js.includes s (String x "") = false -> Js.split s (String x "") = [s].
Proof.
  unfold Js.split. cbn [String.eqb].
  enough (H : forall cur, Js.includes s (String x "") = false ->
                          Js.splitGo (String x "") s 0 cur = [cur +:+ s])
    by (intros Hs; now rewrite (H "" Hs)).
  induction s as [|c t IH]; intros cur.
  - intros _. cbn. now rewrite append_empty_r.
  - rewrite includes_char_cons. intros H. apply orb_false_iff in H as [Hc Ht].
    cbn [Js.splitGo]. rewrite prefix_char, Hc, (IH _ Ht). now rewrite append_assoc.
Qed.

(** X28. A line without parenthesis makes [parseJavapMethod] fail on
    [line.split('(')[1]], which is [undefined]: the [catch] block returns
    the method with empty name, which [parseJavapOutput] and
    [generateMethod] drop. *)
Theorem method_line_without_parenthesis_is_dropped :
  forall line : string,
    Js.includes line "(" = false ->
    parseJavapMethod line = MethodInfo.empty /\
    PlantUMLGenerator.generateMethod (parseJavapMethod line) = "".
Proof.
  intros line Hline.
  assert (Hnone : parseJavapMethodTry line = None).
  { unfold parseJavapMethodTry. cbv zeta.
    rewrite (split_without_separator "(" line Hline).
    change (nth_error [line] 1) with (@None string).
    destruct (Js.includes line (extractClassName line +:+ "(")); [reflexivity|].
    now destruct (nth_error _ 1). }
  unfold parseJavapMethod. rewrite Hnone. now split.
Qed.

(** A field line. *)
Lemma method_line_without_parenthesis_is_dropped_witness :
  parseJavapMethod "public int count;" = MethodInfo.empty /\
  PlantUMLGenerator.generateMethod (parseJavapMethod "public int count;") = "".
Proof.
  exact (method_line_without_parenthesis_is_dropped "public int count;" eq_refl).
Defined.

(** * The fallback and the failures it absorbs *)

(** ** The candidate names *)

(** The [simpleClassName] of the code is the text after the last dot,
    unless nothing follows that dot. *)
Lemma simpleClassNameOf_afterLastDot (ext : string) :
  Js.truthy (afterLastDot ext) = true ->
  simpleClassNameOf (Some ext) = afterLastDot ext.
Proof.
  intros Hsimple. unfold simpleClassNameOf.
  destruct (Js.includes ext ".") eqn:Hdot.
  - assert (Htruthy : Js.truthy ext = true) by now destruct ext.
    rewrite Htruthy, pop_split_dot. cbn [andb Js.optOrElse].
    rewrite orElse_empty. unfold Js.orElse. now rewrite Hsimple.
  - rewrite andb_false_r, orElse_empty. symmetry. now apply afterLastDot_id.
Qed.

Lemma attemptNames_candidates (ext : string) :
  Js.truthy (afterLastDot ext) = true -> attemptNames ext = candidates ext.
Proof.
  intros Hsimple. unfold attemptNames, candidates.
  now rewrite simpleClassNameOf_afterLastDot.
Qed.

Lemma afterLastDot_truthy (ext : string) :
  Js.truthy (afterLastDot ext) = true -> Js.truthy ext = true.
Proof. now destruct ext. Qed.

(** The fallback on the descriptor of a parsed class, with the candidates
    in the words of the specification. *)
Lemma systemFallback_candidates (env : Env) (p : ParsedClass.t)
    (filePath : option string) (ext : string) :
  ParsedClass.extends p = Some ext ->
  Js.truthy (afterLastDot ext) = true ->
  exists st,
    systemFallback env (rootDescriptor p filePath) =
      (Returned st, map EvJavap (tried env (candidates ext))) /\
    FallbackResult env (candidates ext) (rootDescriptor p filePath) st.
Proof.
  intros Hext Hsimple. rewrite <- (attemptNames_candidates ext Hsimple).
  apply systemFallback_spec.
  - apply rootDescriptor_packageName.
  - now rewrite rootDescriptor_extends.
  - now apply afterLastDot_truthy.
Qed.

Lemma winner_of_a_resolving_candidate (env : Env) (names : list string)
    (n stdout : string) :
  In n names -> javap env n = Some stdout ->
  exists w, winner env names = Some w.
Proof.
  intros Hin Hjavap. unfold winner.
  destruct (List.find (resolves env) names) as [w|] eqn:Hfind; [now exists w|].
  pose proof (find_none _ _ Hfind n Hin) as Hnot.
  unfold resolves in Hnot. now rewrite Hjavap in Hnot.
Qed.

(** C5. For the descriptor of a parsed class whose ancestor [ext] was not
    found in the project, the names handed to [javap] by the fallback are
    the candidates in this order, [java.applet.Applet] first when [ext] is
    literally [Applet], then [ext] as given, then the simple name of [ext]
    (the text after its last dot) under [java.lang.], [java.util.],
    [java.io.], [java.applet.], [javax.swing.], [java.awt.], [java.net.],
    [java.sql.], [javax.servlet.], [java.math.], [java.security.],
    [java.text.], [java.time.], up to and including the first one that
    resolves; no candidate after it is tried, and the parent descriptor is
    the one parsed from its text. When none resolves, all were tried and no
    parent is set. The simple name is not empty: [ext] does not end in a
    dot. *)
Theorem fallback_tries_candidates_in_order :
  forall (env : Env) (p : ParsedClass.t) (filePath : option string) (ext : string),
    ParsedClass.extends p = Some ext ->
    Js.truthy (afterLastDot ext) = true ->
    let c := rootDescriptor p filePath in
    let simple := afterLastDot ext in
    candidates ext =
      (if String.eqb ext "Applet" then ["java.applet.Applet"] else []) ++
      [ ext; "java.lang." +:+ simple; "java.util." +:+ simple; "java.io." +:+ simple;
        "java.applet." +:+ simple; "javax.swing." +:+ simple; "java.awt." +:+ simple;
        "java.net." +:+ simple; "java.sql." +:+ simple; "javax.servlet." +:+ simple;
        "java.math." +:+ simple; "java.security." +:+ simple; "java.text." +:+ simple;
        "java.time." +:+ simple ] /\
    javapCalls (systemFallback env c) = tried env (candidates ext) /\
    exists st,
      outcome (systemFallback env c) = Returned st /\
      match winner env (candidates ext) with
      | Some w =>
          found st = true /\
          exists stdout,
            javap env w = Some stdout /\
            ClassInfo.parentClass (classInfo st) = Some (parseJavapOutput stdout w)
      | None =>
          found st = false /\ ClassInfo.parentClass (classInfo st) = None
      end.
Proof.
  intros env p filePath ext Hext Hsimple c simple.
  split; [reflexivity|].
  destruct (systemFallback_candidates env p filePath ext Hext Hsimple)
    as (st & Heq & Hres).
  fold c in Heq, Hres. rewrite Heq. split; [apply javapCalls_map|].
  exists st. split; [reflexivity|].
  unfold FallbackResult in Hres.
  destruct (winner env (candidates ext)) as [w|].
  - destruct Hres as (Hfound & stdout & Hjavap & Hc).
    split; [exact Hfound|]. exists stdout. split; [exact Hjavap|].
    rewrite Hc. reflexivity.
  - destruct Hres as (Hfound & Hc). split; [exact Hfound|].
    rewrite Hc. apply rootDescriptor_parentClass.
Qed.

(** C5 at [class A extends util.ArrayList {}]: the name as given fails, its
    simple name [ArrayList] fails under [java.lang.] and resolves under
    [java.util.]; nothing else is tried. *)
Lemma fallback_tries_candidates_in_order_witness :
  javapCalls
    (systemFallback partlyQualified
       (rootDescriptor (Examples.emptyClass "A" (Some "util.ArrayList")) None)) =
    tried partlyQualified (candidates "util.ArrayList") /\
  tried partlyQualified (candidates "util.ArrayList") =
    ["util.ArrayList"; "java.lang.ArrayList"; "java.util.ArrayList"].
Proof.
  split; [|reflexivity].
  exact (proj1 (proj2 (fallback_tries_candidates_in_order partlyQualified
                         (Examples.emptyClass "A" (Some "util.ArrayList")) None
                         "util.ArrayList" eq_refl eq_refl))).
Defined.

(** ** The name written into [extends] *)

(** C3. For the descriptor of a parsed class, whenever some candidate name
    resolves through [javap], the fallback succeeds and [extends] holds the
    winning name, the first candidate that resolves, with [parentClass] the
    descriptor parsed from its text, whichever attempt succeeded: the Applet
    attempt and the loop over the namespaces assign the name, the direct
    attempt tries the [extends] value itself, which needs no assignment.
    The ancestor loop that follows never raises and leaves [extends] as it
    is. *)
Theorem extends_holds_winning_name :
  forall (env : Env) (p : ParsedClass.t) (filePath : option string)
         (ext n text : string),
    ParsedClass.extends p = Some ext ->
    Js.truthy (afterLastDot ext) = true ->
    In n (candidates ext) ->
    javap env n = Some text ->
    let c := rootDescriptor p filePath in
    exists w stdout st,
      winner env (candidates ext) = Some w /\
      javap env w = Some stdout /\
      outcome (systemFallback env c) = Returned st /\
      found st = true /\
      ClassInfo.extends (classInfo st) = Some w /\
      ClassInfo.parentClass (classInfo st) = Some (parseJavapOutput stdout w) /\
      forall fuel,
        match outcome (resolveSystemParent env fuel c) with
        | Returned c' => ClassInfo.extends c' = Some w
        | Thrown _ => False
        | Timeout => True
        end.
Proof.
  intros env p filePath ext n text Hext Hsimple Hin Hjavap c.
  destruct (winner_of_a_resolving_candidate env (candidates ext) n text Hin Hjavap)
    as (w & Hw).
  destruct (systemFallback_candidates env p filePath ext Hext Hsimple)
    as (st & Heq & Hres).
  fold c in Heq, Hres. unfold FallbackResult in Hres. rewrite Hw in Hres.
  destruct Hres as (Hfound & stdout & Hstdout & Hc).
  exists w, stdout, st.
  split; [exact Hw|]. split; [exact Hstdout|].
  split; [now rewrite Heq|]. split; [exact Hfound|].
  split; [now rewrite Hc|]. split; [now rewrite Hc|].
  intros fuel. unfold resolveSystemParent. rewrite Heq, bind_returned.
  cbn [outcome fst]. rewrite Hfound. cbn [negb].
  destruct (outcome (walkStep env fuel (classInfo st))) as [c'|e|] eqn:Hwalk.
  - apply walkStep_extends in Hwalk. now rewrite Hwalk, Hc.
  - now apply outcome_walkStep in Hwalk.
  - exact I.
Qed.

(** C3 at [class A extends Exception {}]: [java.lang.Exception] resolves,
    and it is the name found in [extends] after the fallback and after the
    ancestor loop. *)
Lemma extends_holds_winning_name_witness :
  exists st,
    winner Examples.exceptionChild (candidates "Exception") = Some "java.lang.Exception" /\
    outcome (systemFallback Examples.exceptionChild
               (rootDescriptor (Examples.emptyClass "A" (Some "Exception")) None))
      = Returned st /\
    found st = true /\
    ClassInfo.extends (classInfo st) = Some "java.lang.Exception" /\
    (exists c',
        outcome (resolveSystemParent Examples.exceptionChild 2
                   (rootDescriptor (Examples.emptyClass "A" (Some "Exception")) None))
          = Returned c') /\
    match outcome (resolveSystemParent Examples.exceptionChild 2
                     (rootDescriptor (Examples.emptyClass "A" (Some "Exception")) None))
    with
    | Returned c' => ClassInfo.extends c' = Some "java.lang.Exception"
    | Thrown _ => False
    | Timeout => True
    end.
Proof.
  destruct (extends_holds_winning_name Examples.exceptionChild
              (Examples.emptyClass "A" (Some "Exception")) None
              "Exception" "java.lang.Exception"
              "public class java.lang.Exception extends java.lang.Throwable {"
              eq_refl eq_refl (or_intror (or_introl eq_refl)) eq_refl)
    as (w & stdout & st & Hw & _ & Hst & Hfound & Hextends & _ & Hloop).
  vm_compute in Hw. injection Hw as <-.
  exists st. split; [reflexivity|]. split; [exact Hst|]. split; [exact Hfound|].
  split; [exact Hextends|]. split; [eexists; reflexivity | exact (Hloop 2)].
Defined.

(** ** Failures while the ancestors are resolved *)





